(** * Gate-visualisation script of the Shakespeare generator

    A shallow embedding of [visualization.py]: the recurrent cells, the model
    that replays them over a sequence, the text dataset and the loop that
    writes one heatmap per gate and per sequence.

    Numbers.  Tensor entries are modelled as real numbers ([R]); the
    rounding of the 32-bit floating point numbers the script computes with is
    not part of the model.  Tensors of rank two are lists of rows.  Python
    exceptions are explicit results ([Raise]). *)

From Stdlib Require Import Reals Lra Lia Ascii String DecimalString DecimalNat.
From stdpp Require Import base list gmap strings.

(** ** Exceptions *)

Inductive exn : Set :=
| TypeError
| IndexError
| KeyError
| ValueError
| RuntimeError
| FileNotFoundError.

Inductive result (A : Type) : Type :=
| Ok (a : A)
| Raise (e : exn).

Arguments Ok {A} a.
Arguments Raise {A} e.

Definition bind {A B : Type} (m : result A) (k : A -> result B) : result B :=
  match m with
  | Ok a => k a
  | Raise e => Raise e
  end.

Notation "'let*' p ':=' m 'in' k" :=
  (bind m (fun p => k))
  (at level 10, p pattern, m at level 100, k at level 200).

(** ** Tensors *)

Abbreviation Tensor := (list (list R)).

(** The shape [(m, n)] of a rank-two tensor. *)
Definition has_shape (t : Tensor) (m n : nat) : Prop :=
  length t = m /\ Forall (fun row => length row = n) t.

Module torch.

Definition sigmoid1 (x : R) : R := (1 / (1 + exp (- x)))%R.

Definition sigmoid (t : Tensor) : Tensor := map (map sigmoid1) t.

Definition tanh (t : Tensor) : Tensor := map (map Rtrigo_def.tanh) t.

Definition zeros (rows cols : nat) : Tensor :=
  replicate rows (replicate cols 0%R).

(** Elementwise operations are defined on operands of one shape, which is
    how the script uses them; any other pair of operands is an error here
    (broadcasting is not modelled). *)
Definition same_shape (a b : Tensor) : bool :=
  bool_decide (map length a = map length b).

Definition elementwise (g : R -> R -> R) (a b : Tensor) : result Tensor :=
  if same_shape a b then Ok (zip_with (zip_with g) a b)
  else Raise RuntimeError.

Definition mul : Tensor -> Tensor -> result Tensor := elementwise Rmult.
Definition add : Tensor -> Tensor -> result Tensor := elementwise Rplus.

(** [k - t] for a Python number [k]. *)
Definition rsub (k : R) (t : Tensor) : Tensor :=
  map (map (fun v => (k - v)%R)) t.

(** [torch.cat((a, b), dim=1)] *)
Definition cat_dim1 (a b : Tensor) : result Tensor :=
  if bool_decide (length a = length b) then Ok (zip_with app a b)
  else Raise RuntimeError.

(** [torch.cat(ts, dim=0)] *)
Definition cat_dim0 (ts : list Tensor) : result Tensor :=
  match concat ts with
  | [] => if bool_decide (ts = []) then Raise RuntimeError else Ok []
  | row :: rows =>
      if forallb (fun r => bool_decide (length r = length row)) rows
      then Ok (row :: rows)
      else Raise RuntimeError
  end.

(** [t.T] *)
Definition transpose (t : Tensor) : Tensor :=
  match t with
  | [] => []
  | row :: _ =>
      map (fun j => map (fun r => nth j r 0%R) t) (seq 0 (length row))
  end.

End torch.

Module F.

Definition dot (u v : list R) : R := foldr Rplus 0%R (zip_with Rmult u v).

(** [F.linear(input, weight)]: [input @ weight.T], no bias. *)
Definition linear (input weight : Tensor) : result Tensor :=
  if forallb
       (fun r => forallb (fun w => bool_decide (length r = length w)) weight)
       input
  then Ok (map (fun r => map (fun w => dot r w) weight) input)
  else Raise RuntimeError.

End F.

(** [nn.Parameter(torch.Tensor(rows, cols))] filled in place by
    [param.uniform_]: entry [(i, j)] receives the draw [g i j]. *)
Definition new_parameter (rows cols : nat) (g : nat -> nat -> R) : Tensor :=
  map (fun i => map (fun j => g i j) (seq 0 cols)) (seq 0 rows).

(** ** The recurrent cells *)

Module VisualizeGRUCell.

Record t : Type := {
  input_size : nat;
  hidden_size : nat;
  W_z : Tensor;
  W_r : Tensor;
  W : Tensor
}.

(** [__init__]; [rng k] is the draw that fills the [k]-th parameter. *)
Definition init (input_size hidden_size : nat) (rng : nat -> nat -> nat -> R)
  : t :=
  {| input_size := input_size;
     hidden_size := hidden_size;
     W_z := new_parameter hidden_size (hidden_size + input_size) (rng 0);
     W_r := new_parameter hidden_size (hidden_size + input_size) (rng 1);
     W := new_parameter hidden_size (hidden_size + input_size) (rng 2) |}.

Definition forward (self : t) (x : Tensor) (prev_state : option Tensor)
  : result (Tensor * (Tensor * Tensor * Tensor)) :=
  let prev_h :=
    match prev_state with
    | None => let batch := length x in torch.zeros batch (hidden_size self)
    | Some h => h
    end in
  let* concat_hx := torch.cat_dim1 prev_h x in
  let* lin_z := F.linear concat_hx (W_z self) in
  let z := torch.sigmoid lin_z in
  let* lin_r := F.linear concat_hx (W_r self) in
  let r := torch.sigmoid lin_r in
  let* r_h := torch.mul r prev_h in
  let* concat_rhx := torch.cat_dim1 r_h x in
  let* lin_h := F.linear concat_rhx (W self) in
  let h_tilde := torch.tanh lin_h in
  let* keep := torch.mul (torch.rsub 1 z) prev_h in
  let* renew := torch.mul z h_tilde in
  let* next_h := torch.add keep renew in
  Ok (next_h, (z, r, h_tilde)).

End VisualizeGRUCell.

Module VisualizeCoupledLSTMCell.

Record t : Type := {
  input_size : nat;
  hidden_size : nat;
  W_f : Tensor;
  W_c : Tensor;
  W_o : Tensor
}.

Definition init (input_size hidden_size : nat) (rng : nat -> nat -> nat -> R)
  : t :=
  {| input_size := input_size;
     hidden_size := hidden_size;
     W_f := new_parameter hidden_size (hidden_size + input_size) (rng 0);
     W_c := new_parameter hidden_size (hidden_size + input_size) (rng 1);
     W_o := new_parameter hidden_size (hidden_size + input_size) (rng 2) |}.

Definition forward (self : t) (x : Tensor)
  (prev_state : option (Tensor * Tensor))
  : result (Tensor * Tensor * (Tensor * Tensor * Tensor)) :=
  let '(prev_h, prev_c) :=
    match prev_state with
    | None =>
        let batch := length x in
        (torch.zeros batch (hidden_size self),
         torch.zeros batch (hidden_size self))
    | Some s => s
    end in
  let* concat_hx := torch.cat_dim1 prev_h x in
  let* lin_f := F.linear concat_hx (W_f self) in
  let f := torch.sigmoid lin_f in
  let* lin_o := F.linear concat_hx (W_o self) in
  let o := torch.sigmoid lin_o in
  let* lin_c := F.linear concat_hx (W_c self) in
  let c_tilde := torch.tanh lin_c in
  let* kept := torch.mul f prev_c in
  let* fresh := torch.mul (torch.rsub 1 f) c_tilde in
  let* next_c := torch.add kept fresh in
  let* next_h := torch.mul o (torch.tanh next_c) in
  Ok (next_h, next_c, (f, o, c_tilde)).

End VisualizeCoupledLSTMCell.

(** ** The published equations, one sample at a time

    These definitions follow the equations as they are printed: vectors,
    a matrix-vector product [W·v], the concatenation [[h;x]] and the
    elementwise product. *)

Module Published.

Definition matvec (W : Tensor) (v : list R) : list R :=
  map (fun w => foldr Rplus 0%R (zip_with Rmult w v)) W.

Definition hadamard (u v : list R) : list R := zip_with Rmult u v.
Definition vadd (u v : list R) : list R := zip_with Rplus u v.
Definition one_minus (u : list R) : list R := map (fun a => (1 - a)%R) u.
Definition sigma (u : list R) : list R := map torch.sigmoid1 u.
Definition vtanh (u : list R) : list R := map Rtrigo_def.tanh u.

Section Coupled.
Variables W_f W_o W_c : Tensor.
Variables x h c : list R.

Definition coupled_f : list R := sigma (matvec W_f (h ++ x)).
Definition coupled_o : list R := sigma (matvec W_o (h ++ x)).
Definition coupled_c_tilde : list R := vtanh (matvec W_c (h ++ x)).
Definition coupled_next_c : list R :=
  vadd (hadamard coupled_f c)
       (hadamard (one_minus coupled_f) coupled_c_tilde).
Definition coupled_next_h : list R :=
  hadamard coupled_o (vtanh coupled_next_c).
End Coupled.

Definition coupled_cell (W_f W_o W_c : Tensor) (x h c : list R)
  : list R * list R * (list R * list R * list R) :=
  (coupled_next_h W_f W_o W_c x h c,
   coupled_next_c W_f W_c x h c,
   (coupled_f W_f x h, coupled_o W_o x h, coupled_c_tilde W_c x h)).

(** The recurrence unrolled over a sequence of inputs: the gate signals
    of every step, and the state after the last one. *)
Fixpoint coupled_signals (W_f W_o W_c : Tensor) (xs : list (list R))
  (h c : list R) : list (list R * list R * list R) :=
  match xs with
  | [] => []
  | x :: rest =>
      (coupled_f W_f x h, coupled_o W_o x h, coupled_c_tilde W_c x h)
      :: coupled_signals W_f W_o W_c rest
           (coupled_next_h W_f W_o W_c x h c)
           (coupled_next_c W_f W_c x h c)
  end.

Fixpoint coupled_final (W_f W_o W_c : Tensor) (xs : list (list R))
  (h c : list R) : list R * list R :=
  match xs with
  | [] => (h, c)
  | x :: rest =>
      coupled_final W_f W_o W_c rest
        (coupled_next_h W_f W_o W_c x h c)
        (coupled_next_c W_f W_c x h c)
  end.

Section GRU.
Variables W_z W_r W : Tensor.
Variables x h : list R.

Definition gru_z : list R := sigma (matvec W_z (h ++ x)).
Definition gru_r : list R := sigma (matvec W_r (h ++ x)).
Definition gru_h_tilde : list R :=
  vtanh (matvec W (hadamard gru_r h ++ x)).
Definition gru_next_h : list R :=
  vadd (hadamard (one_minus gru_z) h) (hadamard gru_z gru_h_tilde).
End GRU.

End Published.

(** ** Library layers: [nn.Embedding] and [nn.Linear] *)

Inductive dtype : Set := int64 | float64.

(** An index tensor of rank two, such as the batch of token indices the data
    loader hands to the model.  The shape is kept next to the rows, so that a
    tensor with no row or no column still knows its size. *)
Record IndexTensor : Type := {
  tensor_dtype : dtype;
  shape0 : nat;
  shape1 : nat;
  entries : list (list nat)
}.

Definition index_tensor_wf (t : IndexTensor) : Prop :=
  length (entries t) = shape0 t /\
  Forall (fun row => length row = shape1 t) (entries t).

Fixpoint mapM {A B : Type} (g : A -> result B) (l : list A) : result (list B) :=
  match l with
  | [] => Ok []
  | a :: rest =>
      let* b := g a in
      let* bs := mapM g rest in
      Ok (b :: bs)
  end.

(** [l[i]] for a Python list and a non-negative [i]. *)
Definition item {A : Type} (l : list A) (i : nat) : result A :=
  match l !! i with
  | Some a => Ok a
  | None => Raise IndexError
  end.

Module Embedding.

Record t : Type := {
  num_embeddings : nat;
  embedding_dim : nat;
  weight : Tensor
}.

(** The weights are drawn entry by entry and the row of the padding token
    is then set to zero. *)
Definition init (num_embeddings embedding_dim padding_idx : nat)
  (g : nat -> nat -> R) : t :=
  {| num_embeddings := num_embeddings;
     embedding_dim := embedding_dim;
     weight := <[padding_idx := replicate embedding_dim 0%R]>
                 (new_parameter num_embeddings embedding_dim g) |}.

(** The result has shape [(shape0, shape1, embedding_dim)]: one list of
    embedded steps per batch row. *)
Definition forward (self : t) (indices : IndexTensor)
  : result (list Tensor) :=
  match tensor_dtype indices with
  | float64 => Raise RuntimeError
  | int64 => mapM (mapM (item (weight self))) (entries indices)
  end.

End Embedding.

Module Linear.

Record t : Type := {
  weight : Tensor;
  bias : list R
}.

Definition init (in_features out_features : nat)
  (gw : nat -> nat -> R) (gb : nat -> R) : t :=
  {| weight := new_parameter out_features in_features gw;
     bias := map gb (seq 0 out_features) |}.

Definition forward (self : t) (x : Tensor) : result Tensor :=
  let* y := F.linear x (weight self) in
  if forallb (fun r => bool_decide (length r = length (bias self))) y
  then Ok (map (fun r => zip_with Rplus r (bias self)) y)
  else Raise RuntimeError.

End Linear.

(** ** The model *)

Definition PADDING_TOKEN : nat := 0.
Definition CKPT_VOCABULARY_SIZE : nat := 82.
Definition CKPT_EMBEDDING_DIM : nat := 256.
Definition CKPT_HIDDEN_SIZE : nat := 128.

(** The random draws consumed by the constructors of the three layers. *)
Record Entropy : Type := {
  embedding_draw : nat -> nat -> R;
  rnn_draw : nat -> nat -> nat -> R;
  classifier_weight_draw : nat -> nat -> R;
  classifier_bias_draw : nat -> R
}.

Abbreviation GateSignals := (Tensor * Tensor * Tensor)%type.
Abbreviation CellState := (option (Tensor * Tensor)).

Module VisualizeInternalGates.

Record t : Type := {
  embedding : Embedding.t;
  rnn_model : VisualizeCoupledLSTMCell.t;
  classifier : Linear.t
}.

Definition init (e : Entropy) : t :=
  let vocabulary_size := CKPT_VOCABULARY_SIZE in
  let embedding_dim := CKPT_EMBEDDING_DIM in
  let hidden_size := CKPT_HIDDEN_SIZE in
  {| embedding :=
       Embedding.init vocabulary_size embedding_dim PADDING_TOKEN
         (embedding_draw e);
     rnn_model :=
       VisualizeCoupledLSTMCell.init embedding_dim hidden_size (rnn_draw e);
     classifier :=
       Linear.init hidden_size vocabulary_size
         (classifier_weight_draw e) (classifier_bias_draw e) |}.

(** [data[:, step, :]] *)
Definition select_step (data : list Tensor) (step : nat) : result Tensor :=
  mapM (fun steps => item steps step) data.

(** The body of [for step in range(total_steps)], threading [state] and
    [internals]. *)
Fixpoint steps_loop (self : t) (data : list Tensor) (steps : list nat)
  (state : CellState) (internals : list GateSignals)
  : result (CellState * list GateSignals) :=
  match steps with
  | [] => Ok (state, internals)
  | step :: rest =>
      let* x := select_step data step in
      let* (next_h, next_c, gate_signals) :=
        VisualizeCoupledLSTMCell.forward (rnn_model self) x state in
      steps_loop self data rest (Some (next_h, next_c))
        (internals ++ [gate_signals])
  end.

(** The list of the tuples that [zip] makes of the unpacked [internals]. *)
Definition zip_star (internals : list GateSignals) : list (list Tensor) :=
  match internals with
  | [] => []
  | _ :: _ =>
      [map (fun g => g.1.1) internals;
       map (fun g => g.1.2) internals;
       map (fun g => g.2) internals]
  end.

Definition forward (self : t) (batch_reviews : IndexTensor)
  : result (Tensor * gmap string (list Tensor)) :=
  let* data := Embedding.forward (embedding self) batch_reviews in
  let state : CellState := None in
  let total_steps := shape1 batch_reviews in
  let internals : list GateSignals := [] in
  let* (state, internals) :=
    steps_loop self data (seq 0 total_steps) state internals in
  let* logits :=
    match state with
    | None => Raise TypeError
    | Some s => Linear.forward (classifier self) s.1
    end in
  let internals := zip_star internals in
  let* update := item internals 0 in
  let* reset := item internals 1 in
  let* candidates := item internals 2 in
  let outputs : gmap string (list Tensor) :=
    <["cell_state_candidates" := candidates]>
      (<["reset_signals" := reset]>
         (<["update_signals" := update]> ∅)) in
  Ok (logits, outputs).

End VisualizeInternalGates.

(** ** Text, dictionaries and file names *)

(** A character of a Python [str] is its Unicode code point. *)
Abbreviation pychar := N.

(** A dictionary comprehension inserts its items from left to right, so the
    last item with a given key is the one that stays. *)
Definition dict_comprehension `{Countable K} {V : Type} (items : list (K * V))
  : gmap K V :=
  foldl (fun d kv => <[kv.1 := kv.2]> d) ∅ items.

Definition enumerate {A : Type} (l : list A) : list (nat * A) :=
  zip (seq 0 (length l)) l.

(** [d[k]] *)
Definition dict_get `{Countable K} {V : Type} (d : gmap K V) (k : K)
  : result V :=
  match d !! k with
  | Some v => Ok v
  | None => Raise KeyError
  end.

(** [l[i]] for any Python integer [i]. *)
Definition py_list_get {A : Type} (l : list A) (i : Z) : result A :=
  let n := Z.of_nat (length l) in
  if (0 <=? i)%Z then item l (Z.to_nat i)
  else if (- n <=? i)%Z then item l (Z.to_nat (n + i))
  else Raise IndexError.

(** The bytes that [bytes.strip()] removes. *)
Definition is_space (c : pychar) : bool :=
  bool_decide (c ∈ [32; 9; 10; 13; 11; 12]%N).

Fixpoint lstrip (s : list pychar) : list pychar :=
  match s with
  | [] => []
  | c :: rest => if is_space c then lstrip rest else s
  end.

Definition strip (s : list pychar) : list pychar :=
  reverse (lstrip (reverse (lstrip s))).

(** [s.split(sep)] for a separator of one character. *)
Fixpoint split (sep : pychar) (s : list pychar) : list (list pychar) :=
  match s with
  | [] => [[]]
  | c :: rest =>
      if bool_decide (c = sep) then [] :: split sep rest
      else match split sep rest with
           | [] => [[c]]
           | line :: lines => (c :: line) :: lines
           end
  end.

Definition newline : pychar := 10%N.

Definition lower_ascii (a : ascii) : ascii :=
  let n := nat_of_ascii a in
  if (65 <=? n) && (n <=? 90) then ascii_of_nat (n + 32) else a.

(** [s.lower()] on the ASCII strings the script applies it to. *)
Fixpoint lower (s : string) : string :=
  match s with
  | EmptyString => EmptyString
  | String a rest => String (lower_ascii a) (lower rest)
  end.

(** ['%02d' % n] for a natural number. *)
Definition format_02d (n : nat) : string :=
  let digits := NilZero.string_of_uint (Nat.to_uint n) in
  if String.length digits <? 2 then String.append "0" digits else digits.

Definition starts_with_slash (s : string) : bool :=
  match s with
  | String a _ => bool_decide (a = "/"%char)
  | EmptyString => false
  end.

Fixpoint ends_with_slash (s : string) : bool :=
  match s with
  | EmptyString => false
  | String a EmptyString => bool_decide (a = "/"%char)
  | String _ rest => ends_with_slash rest
  end.

(** [os.path.join(a, b)] on a POSIX system. *)
Definition os_path_join (a b : string) : string :=
  if starts_with_slash b then b
  else if bool_decide (a = EmptyString) || ends_with_slash a
       then String.append a b
       else String.append a (String.append "/" b).

(** ** The dataset *)

(** A NumPy array of rank one.  [np.array] of a list of Python integers has
    an integer type, of the empty list a floating point type. *)
Record ndarray : Type := {
  array_dtype : dtype;
  array_items : list nat
}.

Definition np_array (l : list nat) : ndarray :=
  {| array_dtype := match l with [] => float64 | _ :: _ => int64 end;
     array_items := l |}.

(** What [convert_to_chars] may be given. *)
Inductive Sequence : Type :=
| OfTensor (t : IndexTensor)
| OfArray (a : ndarray).

Module VisualizeWarAndPeaceDataset.

Record t : Type := {
  vocabulary : list pychar;
  data : list (list pychar);
  char2index : gmap pychar nat;
  index2char : gmap nat pychar
}.

(** [file_text] is the content of [data/war_and_peace_visualize.txt],
    decoded.  The script strips the bytes before it decodes them; the
    bytes it strips are ASCII, so the decoded characters are stripped
    here. *)
Definition init (vocabulary : list pychar) (file_text : list pychar) : t :=
  let raw_text := strip file_text in
  {| vocabulary := vocabulary;
     data := split newline raw_text;
     char2index :=
       dict_comprehension (map (fun ix => (ix.2, ix.1)) (enumerate vocabulary));
     index2char :=
       dict_comprehension (map (fun ix => (ix.1, ix.2)) (enumerate vocabulary))
  |}.

Definition len (self : t) : nat := length (data self).

Definition getitem (self : t) (index : Z) : result (ndarray * Z) :=
  let* line := py_list_get (data self) index in
  let* indices := mapM (dict_get (char2index self)) line in
  Ok (np_array indices, (-1)%Z).

Definition convert_to_chars (self : t) (sequence : Sequence)
  : result (list pychar) :=
  match sequence with
  | OfTensor tensor =>
      (* [squeeze(0)] drops the first dimension when its size is one;
         otherwise [tolist()] is a list of lists, and a list is no key *)
      match entries tensor with
      | [] => Ok []
      | [row] => mapM (dict_get (index2char self)) row
      | _ :: _ :: _ => Raise TypeError
      end
  | OfArray a => mapM (dict_get (index2char self)) (array_items a)
  end.

End VisualizeWarAndPeaceDataset.

(** The default [DataLoader]: batches of one sample, in the order of the
    indices [0 .. len - 1]; the sample's array becomes a tensor with a new
    first dimension of size one. *)
Definition default_collate (sample : ndarray * Z) : IndexTensor * list Z :=
  ({| tensor_dtype := array_dtype sample.1;
      shape0 := 1;
      shape1 := length (array_items sample.1);
      entries := [array_items sample.1] |},
   [sample.2]).

Definition DataLoader_fetch (dataset : VisualizeWarAndPeaceDataset.t)
  (i : nat) : result (IndexTensor * list Z) :=
  let* sample := VisualizeWarAndPeaceDataset.getitem dataset (Z.of_nat i) in
  Ok (default_collate sample).

(** ** Rendering *)

(** What [plt.savefig] writes: the file name and what the heatmap shows. *)
Record Figure : Type := {
  path : string;
  xticklabels : list pychar;
  vmin : Z;
  vmax : Z;
  cells : Tensor
}.

(** A path that holds the character of code 0. *)
Fixpoint has_nul (s : string) : bool :=
  match s with
  | EmptyString => false
  | String a rest => bool_decide (a = "000"%char) || has_nul rest
  end.

(** [os.makedirs(path, exist_ok=True)] on a file system that lets the
    process create the directory: the empty path is no directory
    ([FileNotFoundError]) and a path with a null character is refused
    ([ValueError]); any other directory is there afterwards. *)
Definition os_makedirs (path : string) : result unit :=
  if bool_decide (path = EmptyString) then Raise FileNotFoundError
  else if has_nul path then Raise ValueError
  else Ok tt.

(** The heatmap is drawn first; the directory is then created when it is
    missing, and the result is the figure that [plt.savefig] writes. *)
Definition visualize_internals (sequence_id : nat) (sequence : list pychar)
  (gate_name : string) (states : list Tensor) (saving_dir : string)
  : result Figure :=
  let* states := torch.cat_dim0 states in
  let states := torch.transpose states in
  let* vmin :=
    if bool_decide (gate_name ∈ ["update_signals"; "reset_signals"])
    then Ok 0%Z
    else if bool_decide (gate_name = "cell_state_candidates")
         then Ok (-1)%Z
         else Raise ValueError in
  let* _ := os_makedirs saving_dir in
  Ok {| path :=
          os_path_join saving_dir
            (String.append (String.append "S" (String.append (format_02d sequence_id) "_"))
               (String.append (lower gate_name) ".png"));
        xticklabels := sequence;
        vmin := vmin;
        vmax := 1%Z;
        cells := states |}.

(** ** The script *)

(** The loaded checkpoint: the vocabulary and the trained weights. *)
Record Checkpoint : Type := {
  ckpt_vocabulary : list pychar;
  ckpt_weights : VisualizeInternalGates.t
}.

Definition gate_names : list string :=
  ["update_signals"; "reset_signals"; "cell_state_candidates"].

(** The inner [for gate in ...]; [saved] is the list of the figures written
    so far, oldest first. *)
Fixpoint gates_loop (dataset : VisualizeWarAndPeaceDataset.t) (step : nat)
  (sequences : IndexTensor) (outputs : gmap string (list Tensor))
  (gates : list string) (saved : list Figure) : list Figure * result unit :=
  match gates with
  | [] => (saved, Ok tt)
  | gate :: rest =>
      let drawn :=
        let* chars :=
          VisualizeWarAndPeaceDataset.convert_to_chars dataset
            (OfTensor sequences) in
        let* states := dict_get outputs gate in
        visualize_internals step chars gate states "visualize/" in
      match drawn with
      | Ok figure =>
          gates_loop dataset step sequences outputs rest (saved ++ [figure])
      | Raise e => (saved, Raise e)
      end
  end.

(** The outer [for step, (sequences, labels) in enumerate(data_loader)];
    the line that the body prints is left out. *)
Fixpoint batches_loop (model : VisualizeInternalGates.t)
  (dataset : VisualizeWarAndPeaceDataset.t) (steps : list nat)
  (saved : list Figure) : list Figure * result unit :=
  match steps with
  | [] => (saved, Ok tt)
  | step :: rest =>
      match DataLoader_fetch dataset step with
      | Raise e => (saved, Raise e)
      | Ok (sequences, labels) =>
          match VisualizeInternalGates.forward model sequences with
          | Raise e => (saved, Raise e)
          | Ok (_, outputs) =>
              match gates_loop dataset step sequences outputs gate_names saved
              with
              | (saved', Ok _) => batches_loop model dataset rest saved'
              | (saved', Raise e) => (saved', Raise e)
              end
          end
      end
  end.

(** [checkpoint] and [file_text] are the contents of the two files the
    script reads, [entropy] the draws of the model's constructor.  The result
    is the list of the figures written, in the order of writing, and how the
    run ended. *)
Definition war_and_peace_visualizer (checkpoint : Checkpoint)
  (file_text : list pychar) (entropy : Entropy) : list Figure * result unit :=
  let state_dict := checkpoint in
  let model := VisualizeInternalGates.init entropy in
  let vocabulary := ckpt_vocabulary state_dict in
  let dataset := VisualizeWarAndPeaceDataset.init vocabulary file_text in
  batches_loop model dataset
    (seq 0 (VisualizeWarAndPeaceDataset.len dataset)) [].

(** ** Predicates used in the statements *)

(** Every entry of the tensor lies strictly between [lo] and [hi]. *)
Definition strictly_within (lo hi : R) (t : Tensor) : Prop :=
  Forall (Forall (fun v => (lo < v < hi)%R)) t.

(** A tensor of rank three and shape [(batch, steps, width)], as a list of
    one sequence of vectors per batch row. *)
Definition has_shape3 (data : list Tensor) (batch steps width : nat) : Prop :=
  length data = batch /\ Forall (fun row => has_shape row steps width) data.

(** The weights of a coupled cell have the shapes its constructor gives
    them. *)
Definition coupled_cell_wf (cell : VisualizeCoupledLSTMCell.t) : Prop :=
  let hs := VisualizeCoupledLSTMCell.hidden_size cell in
  let ins := VisualizeCoupledLSTMCell.input_size cell in
  has_shape (VisualizeCoupledLSTMCell.W_f cell) hs (hs + ins) /\
  has_shape (VisualizeCoupledLSTMCell.W_c cell) hs (hs + ins) /\
  has_shape (VisualizeCoupledLSTMCell.W_o cell) hs (hs + ins).

(** The architecture of the checkpoint: the shapes that the constructor of
    the model gives to the weights of its three layers. *)
Definition checkpoint_architecture (self : VisualizeInternalGates.t) : Prop :=
  let cell := VisualizeInternalGates.rnn_model self in
  has_shape (Embedding.weight (VisualizeInternalGates.embedding self))
    CKPT_VOCABULARY_SIZE CKPT_EMBEDDING_DIM /\
  VisualizeCoupledLSTMCell.input_size cell = CKPT_EMBEDDING_DIM /\
  VisualizeCoupledLSTMCell.hidden_size cell = CKPT_HIDDEN_SIZE /\
  coupled_cell_wf cell /\
  has_shape (Linear.weight (VisualizeInternalGates.classifier self))
    CKPT_VOCABULARY_SIZE CKPT_HIDDEN_SIZE /\
  length (Linear.bias (VisualizeInternalGates.classifier self))
  = CKPT_VOCABULARY_SIZE.

(** The dictionary that [forward] builds from the signals of the steps. *)
Definition outputs_of (signals : list GateSignals) : gmap string (list Tensor) :=
  <["cell_state_candidates" := map (fun g : GateSignals => g.2) signals]>
    (<["reset_signals" := map (fun g : GateSignals => g.1.2) signals]>
       (<["update_signals" := map (fun g : GateSignals => g.1.1) signals]> ∅)).

(** The vectors that the embedding layer returns for a row of indices. *)
Definition embedded (self : VisualizeInternalGates.t) (indices : list nat)
  : Tensor :=
  map (fun i =>
         nth i (Embedding.weight (VisualizeInternalGates.embedding self)) [])
    indices.

(** The name of the file that holds the heatmap of a gate of a sequence. *)
Definition file_name (step : nat) (gate : string) : string :=
  String.append "visualize/S"
    (String.append (format_02d step) (String.append "_" (String.append gate ".png"))).

(** The heatmap of one gate: the signals of the steps, one column a step. *)
Definition heatmap (step : nat) (line : list pychar) (gate : string)
  (lowest : Z) (states : list Tensor) : Figure :=
  {| path := file_name step gate;
     xticklabels := line;
     vmin := lowest;
     vmax := 1%Z;
     cells := torch.transpose (concat states) |}.

(** The three heatmaps of a sequence, in the order of the gates. *)
Definition three_figures (step : nat) (line : list pychar)
  (signals : list GateSignals) : list Figure :=
  [heatmap step line "update_signals" 0
     (map (fun g : GateSignals => g.1.1) signals);
   heatmap step line "reset_signals" 0
     (map (fun g : GateSignals => g.1.2) signals);
   heatmap step line "cell_state_candidates" (-1)
     (map (fun g : GateSignals => g.2) signals)].

(** The batch that the data loader makes of a row of indices. *)
Definition batch_of (indices : list nat) : IndexTensor :=
  (default_collate (np_array indices, (-1)%Z)).1.

(** A text that the script replays to the end: every line has a character,
    and every character is in the vocabulary. *)
Definition replayable (vocabulary : list pychar) (lines : list (list pychar))
  : Prop :=
  Forall (fun line => line <> [] /\ Forall (fun x => x ∈ vocabulary) line)
    lines.

(** [u] gates an update in the way the gate [z] of the GRU cell of this file
    does: the next state is [(1 - u)⊙previous + u⊙candidate]. *)
Definition acts_as_update_gate (u previous candidate next : list R) : Prop :=
  next = Published.vadd (Published.hadamard (Published.one_minus u) previous)
           (Published.hadamard u candidate).

(** Draws that are all equal to [w]. *)
Definition constant_entropy (w : R) : Entropy :=
  {| embedding_draw := fun _ _ => w;
     rnn_draw := fun _ _ _ => w;
     classifier_weight_draw := fun _ _ => w;
     classifier_bias_draw := fun _ => w |}.

(** A batch of one sequence of one token, the token of index one. *)
Definition one_token : IndexTensor :=
  {| tensor_dtype := int64; shape0 := 1; shape1 := 1; entries := [[1]] |}.

(** [figures] are the three heatmaps of the sequence of index [step]: the
    line is encoded, replayed by [model], and every gate is drawn from the
    signals that [forward] returns. *)
Definition sequence_figures (model : VisualizeInternalGates.t)
  (dataset : VisualizeWarAndPeaceDataset.t) (step : nat)
  (figures : list Figure) : Prop :=
  exists (line : list pychar) (indices : list nat) (logits : Tensor)
         (signals : list GateSignals),
    VisualizeWarAndPeaceDataset.data dataset !! step = Some line /\
    mapM (dict_get (VisualizeWarAndPeaceDataset.char2index dataset)) line
    = Ok indices /\
    VisualizeInternalGates.forward model (batch_of indices)
    = Ok (logits, outputs_of signals) /\
    length signals = length line /\
    figures = three_figures step line signals.

(** The characters that [format_02d] writes. *)
Definition is_digit (a : ascii) : Prop :=
  48 <= nat_of_ascii a <= 57.

Fixpoint all_digits (s : string) : Prop :=
  match s with
  | EmptyString => True
  | String a rest => is_digit a /\ all_digits rest
  end.

(** The number that a string of digits writes. *)
Definition read_decimal (s : string) : option nat :=
  option_map Nat.of_uint (NilEmpty.uint_of_string s).

(** A small input of the script, used to instantiate the statements: the
    vocabulary [ab], the text of the two lines [ba] and [a], a checkpoint
    whose weights are all 1/32 and a constructor whose draws are all 1/16. *)
Definition sample_vocabulary : list pychar := [97; 98]%N.
Definition sample_text : list pychar := [98; 97; 10; 97]%N.
Definition sample_checkpoint : Checkpoint :=
  {| ckpt_vocabulary := sample_vocabulary;
     ckpt_weights := VisualizeInternalGates.init (constant_entropy (1 / 32)) |}.
Definition sample_entropy : Entropy := constant_entropy (1 / 16).

(** [r] gates a reset in the way the gate [r] of the GRU cell of this file
    does: the candidate is [tanh(W·[r⊙h;x])]. *)
Definition acts_as_reset_gate (W : Tensor) (r h x candidate : list R) : Prop :=
  candidate
  = Published.vtanh (Published.matvec W (Published.hadamard r h ++ x)).

(** A batch of one sequence with no token, and one of one sequence of two
    tokens. *)
Definition no_token : IndexTensor :=
  {| tensor_dtype := int64; shape0 := 1; shape1 := 0; entries := [[]] |}.
Definition two_tokens : IndexTensor :=
  {| tensor_dtype := int64; shape0 := 1; shape1 := 2; entries := [[1; 1]] |}.

(** With weights all equal to [w], a hidden state whose [m] entries are all
    [hv] and an input whose [n] entries are all [xv], every gate has the same
    value before its activation function. *)
Definition preactivation (m n : nat) (w hv xv : R) : R :=
  (INR m * (w * hv) + INR n * (w * xv))%R.

(** The state of one hidden unit after the first step of the model whose
    draws are all [w], on the token of index one, and what its gates see
    before their activation functions at the first and second steps. *)
Definition first_preactivation (w : R) : R :=
  preactivation CKPT_HIDDEN_SIZE CKPT_EMBEDDING_DIM w 0 w.
Definition first_cell_state (w : R) : R :=
  (torch.sigmoid1 (first_preactivation w) * 0
   + (1 - torch.sigmoid1 (first_preactivation w))
     * Rtrigo_def.tanh (first_preactivation w))%R.
Definition first_hidden_state (w : R) : R :=
  (torch.sigmoid1 (first_preactivation w)
   * Rtrigo_def.tanh (first_cell_state w))%R.
Definition second_preactivation (w : R) : R :=
  preactivation CKPT_HIDDEN_SIZE CKPT_EMBEDDING_DIM w (first_hidden_state w) w.

(** The loop of the script, run with a given model over the text. *)
Definition replay (model : VisualizeInternalGates.t)
  (vocabulary file_text : list pychar) : list Figure * result unit :=
  let dataset := VisualizeWarAndPeaceDataset.init vocabulary file_text in
  batches_loop model dataset
    (seq 0 (VisualizeWarAndPeaceDataset.len dataset)) [].

(** The first cell of the first figure of a run: the signal of the first
    hidden unit at the first step. *)
Definition first_cell (run : list Figure * result unit) : R :=
  match run.1 with
  | [] => 0%R
  | figure :: _ => nth 0 (nth 0 (cells figure) []) 0%R
  end.

(** The file names of a run that has finished [done] sequences and has
    written [k] figures of the next one. *)
Definition written_in_order (paths : list string) : Prop :=
  exists done k : nat,
    paths
    = flat_map (fun i => map (file_name i) gate_names) (seq 0 done)
      ++ map (file_name done) (take k gate_names).

(** ** The other two cells of the file *)

(** [torch.cat((a, b, c), dim=1)] *)
Definition cat_dim1_three (a b c : Tensor) : result Tensor :=
  if bool_decide (length a = length b /\ length b = length c)
  then Ok (zip_with app a (zip_with app b c))
  else Raise RuntimeError.

Module VisualizeLSTMCell.

Record t : Type := {
  input_size : nat;
  hidden_size : nat;
  W_f : Tensor;
  W_i : Tensor;
  W_c : Tensor;
  W_o : Tensor
}.

Definition init (input_size hidden_size : nat) (rng : nat -> nat -> nat -> R)
  : t :=
  {| input_size := input_size;
     hidden_size := hidden_size;
     W_f := new_parameter hidden_size (hidden_size + input_size) (rng 0);
     W_i := new_parameter hidden_size (hidden_size + input_size) (rng 1);
     W_c := new_parameter hidden_size (hidden_size + input_size) (rng 2);
     W_o := new_parameter hidden_size (hidden_size + input_size) (rng 3) |}.

Definition forward (self : t) (x : Tensor)
  (prev_state : option (Tensor * Tensor))
  : result (Tensor * Tensor * (Tensor * Tensor * Tensor * Tensor)) :=
  let '(prev_h, prev_c) :=
    match prev_state with
    | None =>
        let batch := length x in
        (torch.zeros batch (hidden_size self),
         torch.zeros batch (hidden_size self))
    | Some s => s
    end in
  let* concat_hx := torch.cat_dim1 prev_h x in
  let* lin_f := F.linear concat_hx (W_f self) in
  let f := torch.sigmoid lin_f in
  let* lin_i := F.linear concat_hx (W_i self) in
  let i := torch.sigmoid lin_i in
  let* lin_o := F.linear concat_hx (W_o self) in
  let o := torch.sigmoid lin_o in
  let* lin_c := F.linear concat_hx (W_c self) in
  let c_tilde := torch.tanh lin_c in
  let* kept := torch.mul f prev_c in
  let* fresh := torch.mul i c_tilde in
  let* next_c := torch.add kept fresh in
  let* next_h := torch.mul o (torch.tanh next_c) in
  Ok (next_h, next_c, (f, i, o, c_tilde)).

End VisualizeLSTMCell.

Module VisualizePeepholedLSTMCell.

Record t : Type := {
  input_size : nat;
  hidden_size : nat;
  W_f : Tensor;
  W_i : Tensor;
  W_c : Tensor;
  W_o : Tensor
}.

Definition init (input_size hidden_size : nat) (rng : nat -> nat -> nat -> R)
  : t :=
  {| input_size := input_size;
     hidden_size := hidden_size;
     W_f := new_parameter hidden_size (2 * hidden_size + input_size) (rng 0);
     W_i := new_parameter hidden_size (2 * hidden_size + input_size) (rng 1);
     W_c := new_parameter hidden_size (2 * hidden_size + input_size) (rng 2);
     W_o := new_parameter hidden_size (2 * hidden_size + input_size) (rng 3) |}.

Definition forward (self : t) (x : Tensor)
  (prev_state : option (Tensor * Tensor))
  : result (Tensor * Tensor * (Tensor * Tensor * Tensor * Tensor)) :=
  let '(prev_h, prev_c) :=
    match prev_state with
    | None =>
        let batch := length x in
        (torch.zeros batch (hidden_size self),
         torch.zeros batch (hidden_size self))
    | Some s => s
    end in
  let* concat_hx := cat_dim1_three prev_c prev_h x in
  let* lin_f := F.linear concat_hx (W_f self) in
  let f := torch.sigmoid lin_f in
  let* lin_i := F.linear concat_hx (W_i self) in
  let i := torch.sigmoid lin_i in
  let* lin_o := F.linear concat_hx (W_o self) in
  let o := torch.sigmoid lin_o in
  let* lin_c := F.linear concat_hx (W_c self) in
  let c_tilde := torch.tanh lin_c in
  let* kept := torch.mul f prev_c in
  let* fresh := torch.mul i c_tilde in
  let* next_c := torch.add kept fresh in
  let* next_h := torch.mul o (torch.tanh next_c) in
  Ok (next_h, next_c, (f, i, o, c_tilde)).

End VisualizePeepholedLSTMCell.

(** What the two cells compute for one sample: [v] is what the gates see,
    [[h;x]] in the plain cell and [[c;h;x]] in the cell with peepholes. *)
Module GatedStep.

Definition gate (W : Tensor) (v : list R) : list R :=
  Published.sigma (Published.matvec W v).

Definition candidate (W : Tensor) (v : list R) : list R :=
  Published.vtanh (Published.matvec W v).

Definition next_c (W_f W_i W_c : Tensor) (v c : list R) : list R :=
  Published.vadd (Published.hadamard (gate W_f v) c)
    (Published.hadamard (gate W_i v) (candidate W_c v)).

Definition next_h (W_f W_i W_c W_o : Tensor) (v c : list R) : list R :=
  Published.hadamard (gate W_o v)
    (Published.vtanh (next_c W_f W_i W_c v c)).

End GatedStep.

(** Every entry of the tensor is strictly between [- bound] and [bound]. *)
Definition magnitude_below (bound : R) (t : Tensor) : Prop :=
  strictly_within (- bound) bound t.

(** The classifier on one sample: [W·v + bias]. *)
Definition affine (W : Tensor) (bias v : list R) : list R :=
  Published.vadd (Published.matvec W v) bias.

(** [sep.join(lines)] *)
Fixpoint join (sep : pychar) (lines : list (list pychar)) : list pychar :=
  match lines with
  | [] => []
  | line :: rest =>
      match rest with
      | [] => line
      | _ :: _ => line ++ sep :: join sep rest
      end
  end.

(** The rows of indices of what [convert_to_chars] is given: those of the
    tensor, or the one row that the array is. *)
Definition sequence_rows (sequence : Sequence) : list (list nat) :=
  match sequence with
  | OfTensor t => entries t
  | OfArray a => [array_items a]
  end.

(** * Properties *)

(** ** Shapes and the tensor operations *)

Lemma has_shape_length (t : Tensor) (m n : nat) :
  has_shape t m n -> length t = m.
Proof. by intros [? _]. Qed.

Lemma has_shape_lookup (t : Tensor) (m n i : nat) (row : list R) :
  has_shape t m n -> t !! i = Some row -> length row = n.
Proof.
  intros [_ Hrows] Hi.
  rewrite Forall_lookup in Hrows. by eapply Hrows.
Qed.

Lemma has_shape_map_length (t : Tensor) (m n : nat) :
  has_shape t m n -> map length t = replicate m n.
Proof.
  intros [<- Hrows]. induction Hrows as [|row t Hrow _ IH]; simpl; [done|].
  by rewrite Hrow, IH.
Qed.

Lemma has_shape_pointwise (g : R -> R) (t : Tensor) (m n : nat) :
  has_shape t m n -> has_shape (map (map g) t) m n.
Proof.
  intros [Hlen Hrows]. split; [by rewrite length_map|].
  apply Forall_fmap. eapply Forall_impl; [exact Hrows|].
  intros row Hrow. simpl. by rewrite length_map.
Qed.

Lemma has_shape_zeros (m n : nat) : has_shape (torch.zeros m n) m n.
Proof.
  split; [apply length_replicate|].
  apply Forall_replicate, length_replicate.
Qed.

Lemma has_shape_new_parameter (m n : nat) (g : nat -> nat -> R) :
  has_shape (new_parameter m n g) m n.
Proof.
  unfold new_parameter. split.
  - by rewrite length_map, length_seq.
  - apply Forall_fmap, Forall_forall. intros i _. simpl.
    by rewrite length_map, length_seq.
Qed.

Lemma has_shape_zip_with (g : R -> R -> R) (a b : Tensor) (m n : nat) :
  has_shape a m n -> has_shape b m n ->
  has_shape (zip_with (zip_with g) a b) m n.
Proof.
  intros [Ha Hra] [Hb Hrb]. split.
  - rewrite length_zip_with. lia.
  - apply Forall_lookup. intros i row Hi.
    apply lookup_zip_with_Some in Hi as (ra & rb & -> & Hia & Hib).
    rewrite Forall_lookup in Hra, Hrb.
    rewrite length_zip_with, (Hra _ _ Hia), (Hrb _ _ Hib). lia.
Qed.

Lemma elementwise_ok (g : R -> R -> R) (a b : Tensor) (m n : nat) :
  has_shape a m n -> has_shape b m n ->
  torch.elementwise g a b = Ok (zip_with (zip_with g) a b).
Proof.
  intros Ha Hb. unfold torch.elementwise, torch.same_shape.
  rewrite bool_decide_eq_true_2; [done|].
  by rewrite (has_shape_map_length a m n), (has_shape_map_length b m n).
Qed.

Lemma cat_dim1_ok (a b : Tensor) (m na nb : nat) :
  has_shape a m na -> has_shape b m nb ->
  torch.cat_dim1 a b = Ok (zip_with app a b) /\
  has_shape (zip_with app a b) m (na + nb).
Proof.
  intros [Ha Hra] [Hb Hrb]. split.
  - unfold torch.cat_dim1. rewrite bool_decide_eq_true_2; [done|lia].
  - split; [rewrite length_zip_with; lia|].
    apply Forall_lookup. intros i row Hi.
    apply lookup_zip_with_Some in Hi as (ra & rb & -> & Hia & Hib).
    rewrite Forall_lookup in Hra, Hrb.
    by rewrite length_app, (Hra _ _ Hia), (Hrb _ _ Hib).
Qed.

Lemma linear_ok (input weight : Tensor) (m j k : nat) :
  has_shape input m k -> has_shape weight j k ->
  F.linear input weight
  = Ok (map (fun r => map (fun w => F.dot r w) weight) input) /\
  has_shape (map (fun r => map (fun w => F.dot r w) weight) input) m j.
Proof.
  intros [Hi Hri] [Hw Hrw]. split.
  - unfold F.linear.
    replace (forallb _ input) with true; [done|].
    symmetry. apply forallb_forall. intros r Hr.
    apply forallb_forall. intros w Hwin.
    apply bool_decide_eq_true_2.
    rewrite Forall_forall in Hri, Hrw.
    rewrite (Hri r), (Hrw w); [done| |]; by apply list_elem_of_In.
  - split; [by rewrite length_map|].
    apply Forall_fmap, Forall_forall. intros r _. simpl.
    by rewrite length_map.
Qed.

Lemma dot_comm (u v : list R) : F.dot u v = F.dot v u.
Proof.
  unfold F.dot. revert v.
  induction u as [|a u IH]; intros [|b v]; simpl; try done.
  by rewrite IH, Rmult_comm.
Qed.

(** ** One step of the coupled cell *)

Section CoupledStep.
Import VisualizeCoupledLSTMCell.

Variable self : VisualizeCoupledLSTMCell.t.
Let hs := hidden_size self.
Let ins := input_size self.

Hypothesis shape_W_f : has_shape (W_f self) hs (hs + ins).
Hypothesis shape_W_c : has_shape (W_c self) hs (hs + ins).
Hypothesis shape_W_o : has_shape (W_o self) hs (hs + ins).

Lemma coupled_forward_rows (x h c : Tensor) (batch : nat) :
  has_shape x batch ins -> has_shape h batch hs -> has_shape c batch hs ->
  exists next_h next_c f o c_tilde,
    forward self x (Some (h, c)) = Ok (next_h, next_c, (f, o, c_tilde)) /\
    has_shape next_h batch hs /\ has_shape next_c batch hs /\
    has_shape f batch hs /\ has_shape o batch hs /\
    has_shape c_tilde batch hs /\
    forall (b : nat) (xb hb cb : list R),
      x !! b = Some xb -> h !! b = Some hb -> c !! b = Some cb ->
      (next_h !! b, next_c !! b, (f !! b, o !! b, c_tilde !! b))
      = (Some (Published.coupled_next_h (W_f self) (W_o self) (W_c self) xb hb cb),
         Some (Published.coupled_next_c (W_f self) (W_c self) xb hb cb),
         (Some (Published.coupled_f (W_f self) xb hb),
          Some (Published.coupled_o (W_o self) xb hb),
          Some (Published.coupled_c_tilde (W_c self) xb hb))).
Proof.
  intros Hx Hh Hc. unfold forward.
  destruct (cat_dim1_ok h x batch hs ins Hh Hx) as [-> Hhx]. simpl.
  destruct (linear_ok _ (W_f self) _ _ _ Hhx shape_W_f) as [-> Hlf]. simpl.
  destruct (linear_ok _ (W_o self) _ _ _ Hhx shape_W_o) as [-> Hlo]. simpl.
  destruct (linear_ok _ (W_c self) _ _ _ Hhx shape_W_c) as [-> Hlc]. simpl.
  set (f := torch.sigmoid _). set (o := torch.sigmoid _).
  set (c_tilde := torch.tanh _).
  assert (Hf : has_shape f batch hs) by by apply has_shape_pointwise.
  assert (Ho : has_shape o batch hs) by by apply has_shape_pointwise.
  assert (Hct : has_shape c_tilde batch hs) by by apply has_shape_pointwise.
  unfold torch.mul, torch.add.
  rewrite (elementwise_ok _ f c batch hs Hf Hc). simpl.
  assert (H1f : has_shape (torch.rsub 1 f) batch hs)
    by by apply has_shape_pointwise.
  rewrite (elementwise_ok _ _ c_tilde batch hs H1f Hct). simpl.
  assert (Hkept := has_shape_zip_with Rmult _ _ _ _ Hf Hc).
  assert (Hfresh := has_shape_zip_with Rmult _ _ _ _ H1f Hct).
  rewrite (elementwise_ok _ _ _ batch hs Hkept Hfresh). simpl.
  assert (Hnc := has_shape_zip_with Rplus _ _ _ _ Hkept Hfresh).
  assert (Htc : has_shape (torch.tanh (zip_with (zip_with Rplus)
            (zip_with (zip_with Rmult) f c)
            (zip_with (zip_with Rmult) (torch.rsub 1 f) c_tilde))) batch hs)
    by by apply has_shape_pointwise.
  rewrite (elementwise_ok _ o _ batch hs Ho Htc). simpl.
  eexists _, _, _, _, _. split; [reflexivity|].
  repeat (split; [by auto using has_shape_zip_with|]).
  intros b xb hb cb Hxb Hhb Hcb.
  assert (Hfb : f !! b = Some (Published.coupled_f (W_f self) xb hb)).
  { unfold f, torch.sigmoid. rewrite !list_lookup_fmap, lookup_zip_with, Hhb.
    simpl. rewrite Hxb. simpl. unfold Published.coupled_f, Published.sigma,
      Published.matvec. do 2 f_equal. apply map_ext. intros w.
    apply dot_comm. }
  assert (Hob : o !! b = Some (Published.coupled_o (W_o self) xb hb)).
  { unfold o, torch.sigmoid. rewrite !list_lookup_fmap, lookup_zip_with, Hhb.
    simpl. rewrite Hxb. simpl. unfold Published.coupled_o, Published.sigma,
      Published.matvec. do 2 f_equal. apply map_ext. intros w.
    apply dot_comm. }
  assert (Hctb : c_tilde !! b
                 = Some (Published.coupled_c_tilde (W_c self) xb hb)).
  { unfold c_tilde, torch.tanh.
    rewrite !list_lookup_fmap, lookup_zip_with, Hhb.
    simpl. rewrite Hxb. simpl. unfold Published.coupled_c_tilde,
      Published.vtanh, Published.matvec. do 2 f_equal. apply map_ext.
    intros w. apply dot_comm. }
  assert (Hncb : zip_with (zip_with Rplus) (zip_with (zip_with Rmult) f c)
             (zip_with (zip_with Rmult) (torch.rsub 1 f) c_tilde) !! b
           = Some (Published.coupled_next_c (W_f self) (W_c self) xb hb cb)).
  { rewrite !lookup_zip_with. unfold torch.rsub.
    rewrite list_lookup_fmap, Hfb, Hcb, Hctb. reflexivity. }
  rewrite lookup_zip_with, Hob. unfold torch.tanh at 1.
  rewrite list_lookup_fmap, Hncb, Hfb, Hctb. reflexivity.
Qed.

End CoupledStep.

(** C3.  The coupled cell computes, for every sample of the batch, the
    published coupled-gate equations: [f = sigmoid(W_f·[h;x])],
    [o = sigmoid(W_o·[h;x])], [c_tilde = tanh(W_c·[h;x])],
    [next_c = f⊙c + (1-f)⊙c_tilde] and [next_h = o⊙tanh(next_c)]; it returns
    [(next_h, next_c, (f, o, c_tilde))]. *)
Theorem coupled_lstm_transcribes_equations
  (self : VisualizeCoupledLSTMCell.t) (x h c : Tensor) (batch : nat) :
  let hs := VisualizeCoupledLSTMCell.hidden_size self in
  let ins := VisualizeCoupledLSTMCell.input_size self in
  let W_f := VisualizeCoupledLSTMCell.W_f self in
  let W_c := VisualizeCoupledLSTMCell.W_c self in
  let W_o := VisualizeCoupledLSTMCell.W_o self in
  has_shape W_f hs (hs + ins) ->
  has_shape W_c hs (hs + ins) ->
  has_shape W_o hs (hs + ins) ->
  has_shape x batch ins -> has_shape h batch hs -> has_shape c batch hs ->
  exists next_h next_c f o c_tilde,
    VisualizeCoupledLSTMCell.forward self x (Some (h, c))
    = Ok (next_h, next_c, (f, o, c_tilde)) /\
    forall (b : nat) (xb hb cb : list R),
      x !! b = Some xb -> h !! b = Some hb -> c !! b = Some cb ->
      let f_b := Published.sigma (Published.matvec W_f (hb ++ xb)) in
      let o_b := Published.sigma (Published.matvec W_o (hb ++ xb)) in
      let c_tilde_b := Published.vtanh (Published.matvec W_c (hb ++ xb)) in
      let next_c_b :=
        Published.vadd (Published.hadamard f_b cb)
          (Published.hadamard (Published.one_minus f_b) c_tilde_b) in
      let next_h_b := Published.hadamard o_b (Published.vtanh next_c_b) in
      f !! b = Some f_b /\ o !! b = Some o_b /\
      c_tilde !! b = Some c_tilde_b /\
      next_c !! b = Some next_c_b /\ next_h !! b = Some next_h_b.
Proof.
  intros hs ins W_f W_c W_o HWf HWc HWo Hx Hh Hc.
  destruct (coupled_forward_rows self HWf HWc HWo x h c batch Hx Hh Hc)
    as (next_h & next_c & f & o & c_tilde & Hrun & _ & _ & _ & _ & _ & Hrows).
  exists next_h, next_c, f, o, c_tilde. split; [exact Hrun|].
  intros b xb hb cb Hxb Hhb Hcb.
  specialize (Hrows b xb hb cb Hxb Hhb Hcb).
  injection Hrows as -> -> -> -> ->. by repeat split.
Qed.

Lemma coupled_lstm_transcribes_equations_witness :
  let self := VisualizeCoupledLSTMCell.init 1 1 (fun _ _ _ => 1%R) in
  exists next_h next_c f o c_tilde,
    VisualizeCoupledLSTMCell.forward self [[2%R]] (Some ([[0%R]], [[0%R]]))
    = Ok (next_h, next_c, (f, o, c_tilde)) /\
    forall (b : nat) (xb hb cb : list R),
      [[2%R]] !! b = Some xb -> [[0%R]] !! b = Some hb ->
      [[0%R]] !! b = Some cb ->
      let W := [[1%R; 1%R]] in
      let f_b := Published.sigma (Published.matvec W (hb ++ xb)) in
      let o_b := Published.sigma (Published.matvec W (hb ++ xb)) in
      let c_tilde_b := Published.vtanh (Published.matvec W (hb ++ xb)) in
      let next_c_b :=
        Published.vadd (Published.hadamard f_b cb)
          (Published.hadamard (Published.one_minus f_b) c_tilde_b) in
      let next_h_b := Published.hadamard o_b (Published.vtanh next_c_b) in
      f !! b = Some f_b /\ o !! b = Some o_b /\
      c_tilde !! b = Some c_tilde_b /\
      next_c !! b = Some next_c_b /\ next_h !! b = Some next_h_b.
Proof.
  intros self.
  apply (coupled_lstm_transcribes_equations self [[2%R]] [[0%R]] [[0%R]] 1);
    (split; [reflexivity | repeat constructor]).
Defined.

(** ** One step of the GRU cell *)

Lemma gru_forward_rows (self : VisualizeGRUCell.t) (x h : Tensor)
  (batch : nat) :
  let hs := VisualizeGRUCell.hidden_size self in
  let ins := VisualizeGRUCell.input_size self in
  has_shape (VisualizeGRUCell.W_z self) hs (hs + ins) ->
  has_shape (VisualizeGRUCell.W_r self) hs (hs + ins) ->
  has_shape (VisualizeGRUCell.W self) hs (hs + ins) ->
  has_shape x batch ins -> has_shape h batch hs ->
  exists next_h z r h_tilde,
    VisualizeGRUCell.forward self x (Some h) = Ok (next_h, (z, r, h_tilde)) /\
    forall (b : nat) (xb hb : list R),
      x !! b = Some xb -> h !! b = Some hb ->
      z !! b = Some (Published.gru_z (VisualizeGRUCell.W_z self) xb hb) /\
      r !! b = Some (Published.gru_r (VisualizeGRUCell.W_r self) xb hb) /\
      h_tilde !! b
      = Some (Published.gru_h_tilde (VisualizeGRUCell.W_r self)
                (VisualizeGRUCell.W self) xb hb) /\
      next_h !! b
      = Some (Published.gru_next_h (VisualizeGRUCell.W_z self)
                (VisualizeGRUCell.W_r self) (VisualizeGRUCell.W self) xb hb).
Proof.
  intros hs ins HWz HWr HW Hx Hh. unfold VisualizeGRUCell.forward.
  destruct (cat_dim1_ok h x batch hs ins Hh Hx) as [-> Hhx]. simpl.
  destruct (linear_ok _ _ _ _ _ Hhx HWz) as [-> Hlz]. simpl.
  destruct (linear_ok _ _ _ _ _ Hhx HWr) as [-> Hlr]. simpl.
  set (z := torch.sigmoid (map (fun u => map _ (VisualizeGRUCell.W_z self)) _)).
  set (r := torch.sigmoid (map (fun u => map _ (VisualizeGRUCell.W_r self)) _)).
  assert (Hz : has_shape z batch hs) by by apply has_shape_pointwise.
  assert (Hr : has_shape r batch hs) by by apply has_shape_pointwise.
  unfold torch.mul, torch.add.
  rewrite (elementwise_ok _ r h batch hs Hr Hh). simpl.
  assert (Hrh := has_shape_zip_with Rmult _ _ _ _ Hr Hh).
  destruct (cat_dim1_ok _ x batch hs ins Hrh Hx) as [-> Hrhx]. simpl.
  destruct (linear_ok _ _ _ _ _ Hrhx HW) as [-> Hlh]. simpl.
  set (h_tilde := torch.tanh _).
  assert (Hht : has_shape h_tilde batch hs) by by apply has_shape_pointwise.
  assert (H1z : has_shape (torch.rsub 1 z) batch hs)
    by by apply has_shape_pointwise.
  rewrite (elementwise_ok _ _ h batch hs H1z Hh). simpl.
  rewrite (elementwise_ok _ z h_tilde batch hs Hz Hht). simpl.
  assert (Hkeep := has_shape_zip_with Rmult _ _ _ _ H1z Hh).
  assert (Hrenew := has_shape_zip_with Rmult _ _ _ _ Hz Hht).
  rewrite (elementwise_ok _ _ _ batch hs Hkeep Hrenew). simpl.
  eexists _, _, _, _. split; [reflexivity|].
  intros b xb hb Hxb Hhb.
  assert (Hzb : z !! b
                = Some (Published.gru_z (VisualizeGRUCell.W_z self) xb hb)).
  { unfold z, torch.sigmoid. rewrite !list_lookup_fmap, lookup_zip_with, Hhb.
    simpl. rewrite Hxb. simpl. unfold Published.gru_z, Published.sigma,
      Published.matvec. do 2 f_equal. apply map_ext. intros w.
    apply dot_comm. }
  assert (Hrb : r !! b
                = Some (Published.gru_r (VisualizeGRUCell.W_r self) xb hb)).
  { unfold r, torch.sigmoid. rewrite !list_lookup_fmap, lookup_zip_with, Hhb.
    simpl. rewrite Hxb. simpl. unfold Published.gru_r, Published.sigma,
      Published.matvec. do 2 f_equal. apply map_ext. intros w.
    apply dot_comm. }
  assert (Hhtb : h_tilde !! b
                 = Some (Published.gru_h_tilde (VisualizeGRUCell.W_r self)
                           (VisualizeGRUCell.W self) xb hb)).
  { unfold h_tilde, torch.tanh.
    rewrite !list_lookup_fmap, !lookup_zip_with, Hrb, Hhb. simpl.
    rewrite Hxb. simpl. unfold Published.gru_h_tilde, Published.vtanh,
      Published.matvec. do 2 f_equal. apply map_ext. intros w.
    apply dot_comm. }
  repeat split; try done.
  rewrite !lookup_zip_with. unfold torch.rsub.
  rewrite list_lookup_fmap, Hzb, Hhb, Hhtb. reflexivity.
Qed.

(** C5.  The GRU cell computes, for every sample of the batch, the published
    GRU equations, with the zero vector for [h] when [prev_state] is [None]:
    [z = sigmoid(W_z·[h;x])], [r = sigmoid(W_r·[h;x])],
    [h_tilde = tanh(W·[r⊙h;x])] and [next_h = (1-z)⊙h + z⊙h_tilde]; it returns
    [(next_h, (z, r, h_tilde))]. *)
Theorem gru_transcribes_equations
  (self : VisualizeGRUCell.t) (x : Tensor) (prev_state : option Tensor)
  (batch : nat) :
  let hs := VisualizeGRUCell.hidden_size self in
  let ins := VisualizeGRUCell.input_size self in
  let W_z := VisualizeGRUCell.W_z self in
  let W_r := VisualizeGRUCell.W_r self in
  let W := VisualizeGRUCell.W self in
  has_shape W_z hs (hs + ins) ->
  has_shape W_r hs (hs + ins) ->
  has_shape W hs (hs + ins) ->
  has_shape x batch ins ->
  (forall prev_h, prev_state = Some prev_h -> has_shape prev_h batch hs) ->
  exists next_h z r h_tilde,
    VisualizeGRUCell.forward self x prev_state
    = Ok (next_h, (z, r, h_tilde)) /\
    forall (b : nat) (xb hb : list R),
      x !! b = Some xb ->
      match prev_state with
      | None => hb = replicate hs 0%R
      | Some prev_h => prev_h !! b = Some hb
      end ->
      let z_b := Published.sigma (Published.matvec W_z (hb ++ xb)) in
      let r_b := Published.sigma (Published.matvec W_r (hb ++ xb)) in
      let h_tilde_b :=
        Published.vtanh
          (Published.matvec W (Published.hadamard r_b hb ++ xb)) in
      let next_h_b :=
        Published.vadd (Published.hadamard (Published.one_minus z_b) hb)
          (Published.hadamard z_b h_tilde_b) in
      z !! b = Some z_b /\ r !! b = Some r_b /\
      h_tilde !! b = Some h_tilde_b /\ next_h !! b = Some next_h_b.
Proof.
  intros hs ins W_z W_r W HWz HWr HW Hx Hprev.
  destruct prev_state as [prev_h|].
  - destruct (gru_forward_rows self x prev_h batch HWz HWr HW Hx
                (Hprev _ eq_refl))
      as (next_h & z & r & h_tilde & Hrun & Hrows).
    exists next_h, z, r, h_tilde. split; [exact Hrun|].
    intros b xb hb Hxb Hhb. exact (Hrows b xb hb Hxb Hhb).
  - assert (Hzero : has_shape (torch.zeros (length x) hs) batch hs).
    { rewrite (has_shape_length x batch ins Hx). apply has_shape_zeros. }
    destruct (gru_forward_rows self x _ batch HWz HWr HW Hx Hzero)
      as (next_h & z & r & h_tilde & Hrun & Hrows).
    exists next_h, z, r, h_tilde. split; [exact Hrun|].
    intros b xb hb Hxb ->. apply (Hrows b xb _ Hxb).
    unfold torch.zeros. apply lookup_replicate_2.
    rewrite (has_shape_length x batch ins Hx).
    rewrite <- (has_shape_length x batch ins Hx).
    by apply lookup_lt_Some in Hxb.
Qed.

Lemma gru_transcribes_equations_witness :
  let self := VisualizeGRUCell.init 1 1 (fun _ _ _ => 1%R) in
  exists next_h z r h_tilde,
    VisualizeGRUCell.forward self [[2%R]] None
    = Ok (next_h, (z, r, h_tilde)) /\
    forall (b : nat) (xb hb : list R),
      [[2%R]] !! b = Some xb ->
      hb = replicate 1 0%R ->
      let W := [[1%R; 1%R]] in
      let z_b := Published.sigma (Published.matvec W (hb ++ xb)) in
      let r_b := Published.sigma (Published.matvec W (hb ++ xb)) in
      let h_tilde_b :=
        Published.vtanh
          (Published.matvec W (Published.hadamard r_b hb ++ xb)) in
      let next_h_b :=
        Published.vadd (Published.hadamard (Published.one_minus z_b) hb)
          (Published.hadamard z_b h_tilde_b) in
      z !! b = Some z_b /\ r !! b = Some r_b /\
      h_tilde !! b = Some h_tilde_b /\ next_h !! b = Some next_h_b.
Proof.
  intros self.
  apply (gru_transcribes_equations self [[2%R]] None 1);
    try (split; [reflexivity | repeat constructor]).
  intros prev_h Hprev. discriminate Hprev.
Defined.

(** ** Ranges of the activation functions *)

Lemma sigmoid1_range (x : R) : (0 < torch.sigmoid1 x < 1)%R.
Proof.
  unfold torch.sigmoid1. pose proof (exp_pos (- x)) as He.
  unfold Rdiv. rewrite Rmult_1_l. split.
  - apply Rinv_0_lt_compat. lra.
  - rewrite <- Rinv_1 at 2. apply Rinv_1_lt_contravar; lra.
Qed.

Lemma tanh_range (x : R) : (-1 < Rtrigo_def.tanh x < 1)%R.
Proof.
  unfold Rtrigo_def.tanh, sinh, cosh.
  pose proof (exp_pos x) as Hp. pose proof (exp_pos (- x)) as Hn.
  set (a := exp x) in *. set (b := exp (- x)) in *.
  clearbody a b. set (y := (/ ((a + b) / 2))%R).
  assert (Hy : (y * ((a + b) / 2) = 1)%R) by (apply Rinv_l; lra).
  assert (Hpos : (0 < y)%R) by (apply Rinv_0_lt_compat; lra).
  assert (Hya : (0 < y * a)%R) by (apply Rmult_lt_0_compat; lra).
  assert (Hyb : (0 < y * b)%R) by (apply Rmult_lt_0_compat; lra).
  change ((a - b) / 2 / ((a + b) / 2))%R with ((a - b) / 2 * y)%R.
  clearbody y. split; lra.
Qed.

Lemma convex_combination_range (f c ct : R) :
  (0 < f < 1)%R -> (-1 < c < 1)%R -> (-1 < ct < 1)%R ->
  (-1 < f * c + (1 - f) * ct < 1)%R.
Proof. intros Hf Hc Hct. split; nra. Qed.

Lemma gated_range (o v : R) :
  (0 < o < 1)%R -> (-1 < v < 1)%R -> (-1 < o * v < 1)%R.
Proof. intros Ho Hv. split; nra. Qed.

(** ** Ranges along the published recurrence *)

Lemma coupled_f_range (W : Tensor) (x h : list R) :
  Forall (fun v => (0 < v < 1)%R) (Published.coupled_f W x h).
Proof.
  unfold Published.coupled_f, Published.sigma.
  apply Forall_fmap, Forall_forall. intros v _. apply sigmoid1_range.
Qed.

Lemma coupled_o_range (W : Tensor) (x h : list R) :
  Forall (fun v => (0 < v < 1)%R) (Published.coupled_o W x h).
Proof.
  unfold Published.coupled_o, Published.sigma.
  apply Forall_fmap, Forall_forall. intros v _. apply sigmoid1_range.
Qed.

Lemma coupled_c_tilde_range (W : Tensor) (x h : list R) :
  Forall (fun v => (-1 < v < 1)%R) (Published.coupled_c_tilde W x h).
Proof.
  unfold Published.coupled_c_tilde, Published.vtanh.
  apply Forall_fmap, Forall_forall. intros v _. apply tanh_range.
Qed.

Lemma convex_rows_range (f c ct : list R) :
  Forall (fun v => (0 < v < 1)%R) f ->
  Forall (fun v => (-1 < v < 1)%R) c ->
  Forall (fun v => (-1 < v < 1)%R) ct ->
  Forall (fun v => (-1 < v < 1)%R)
    (Published.vadd (Published.hadamard f c)
       (Published.hadamard (Published.one_minus f) ct)).
Proof.
  intros Hf. revert c ct.
  induction Hf as [|a f Ha _ IH]; intros c ct Hc Hct; [constructor|].
  destruct Hc as [|b c Hb Hc]; [constructor|].
  destruct Hct as [|d ct Hd Hct]; [constructor|].
  simpl. constructor; [by apply convex_combination_range|by apply IH].
Qed.

Lemma coupled_next_c_range (W_f W_c : Tensor) (x h c : list R) :
  Forall (fun v => (-1 < v < 1)%R) c ->
  Forall (fun v => (-1 < v < 1)%R) (Published.coupled_next_c W_f W_c x h c).
Proof.
  intros Hc. unfold Published.coupled_next_c.
  apply convex_rows_range;
    auto using coupled_f_range, coupled_c_tilde_range.
Qed.

Lemma coupled_signals_range (W_f W_o W_c : Tensor) (xs : list (list R))
  (h c : list R) :
  Forall (fun s =>
            Forall (fun v => (0 < v < 1)%R) s.1.1 /\
            Forall (fun v => (0 < v < 1)%R) s.1.2 /\
            Forall (fun v => (-1 < v < 1)%R) s.2)
    (Published.coupled_signals W_f W_o W_c xs h c).
Proof.
  revert h c. induction xs as [|x xs IH]; intros h c; simpl; constructor.
  - simpl. auto using coupled_f_range, coupled_o_range, coupled_c_tilde_range.
  - apply IH.
Qed.

Lemma coupled_final_range (W_f W_o W_c : Tensor) (xs : list (list R))
  (h c : list R) :
  Forall (fun v => (-1 < v < 1)%R) c ->
  Forall (fun v => (-1 < v < 1)%R)
    (Published.coupled_final W_f W_o W_c xs h c).2.
Proof.
  revert h c. induction xs as [|x xs IH]; intros h c Hc; simpl; [done|].
  apply IH. by apply coupled_next_c_range.
Qed.

(** ** The loop over the steps of a sequence *)

Lemma mapM_total {A B : Type} (g : A -> result B) (g' : A -> B) (l : list A) :
  Forall (fun a => g a = Ok (g' a)) l -> mapM g l = Ok (map g' l).
Proof.
  induction 1 as [|a l Ha _ IH]; simpl; [done|]. by rewrite Ha, IH.
Qed.

Lemma item_total {A : Type} (l : list A) (i : nat) (d : A) :
  i < length l -> item l i = Ok (nth i l d).
Proof.
  intros Hi. unfold item. rewrite nth_lookup.
  destruct (lookup_lt_is_Some_2 l i Hi) as [a ->]. done.
Qed.

Lemma select_step_total (data : list Tensor) (batch steps width step : nat) :
  has_shape3 data batch steps width -> step < steps ->
  VisualizeInternalGates.select_step data step
  = Ok (map (fun row => nth step row []) data) /\
  has_shape (map (fun row : Tensor => nth step row []) data) batch width.
Proof.
  intros [Hlen Hrows] Hstep. split.
  - unfold VisualizeInternalGates.select_step. apply mapM_total.
    eapply Forall_impl; [exact Hrows|]. intros row [Hrow _]. simpl.
    apply item_total. lia.
  - split; [by rewrite length_map|].
    apply Forall_fmap. eapply Forall_impl; [exact Hrows|].
    intros row [Hrow Hvecs]. simpl.
    rewrite Forall_lookup in Hvecs.
    destruct (lookup_lt_is_Some_2 row step) as [v Hv]; [lia|].
    rewrite nth_lookup, Hv. simpl. by eapply Hvecs.
Qed.

Section StepsLoop.
Import VisualizeCoupledLSTMCell.

Variable self : VisualizeInternalGates.t.
Let cell := VisualizeInternalGates.rnn_model self.
Let hs := hidden_size cell.
Let ins := input_size cell.

Hypothesis cell_wf : coupled_cell_wf cell.

Variable data : list Tensor.
Variables batch total_steps : nat.
Hypothesis data_shape : has_shape3 data batch total_steps ins.

Lemma steps_loop_rows (steps : list nat) :
  Forall (fun s => s < total_steps) steps ->
  forall (h c : Tensor) (internals : list GateSignals),
    has_shape h batch hs -> has_shape c batch hs ->
    exists (h' c' : Tensor) (signals : list GateSignals),
      VisualizeInternalGates.steps_loop self data steps (Some (h, c))
        internals
      = Ok (Some (h', c'), internals ++ signals) /\
      has_shape h' batch hs /\ has_shape c' batch hs /\
      length signals = length steps /\
      Forall (fun g => has_shape g.1.1 batch hs /\
                       has_shape g.1.2 batch hs /\
                       has_shape g.2 batch hs) signals /\
      forall (b : nat) (row : Tensor) (hb cb : list R),
        data !! b = Some row -> h !! b = Some hb -> c !! b = Some cb ->
        let xs := map (fun s => nth s row []) steps in
        h' !! b
        = Some (Published.coupled_final (W_f cell) (W_o cell) (W_c cell)
                  xs hb cb).1 /\
        c' !! b
        = Some (Published.coupled_final (W_f cell) (W_o cell) (W_c cell)
                  xs hb cb).2 /\
        map (fun g : GateSignals => (g.1.1 !! b, g.1.2 !! b, g.2 !! b))
          signals
        = map (fun s => (Some s.1.1, Some s.1.2, Some s.2))
            (Published.coupled_signals (W_f cell) (W_o cell) (W_c cell)
               xs hb cb).
Proof.
  destruct cell_wf as (HWf & HWc & HWo).
  induction 1 as [|step steps Hstep _ IH]; intros h c internals Hh Hc.
  - exists h, c, []. simpl. rewrite app_nil_r.
    split_and!; try done.
  - simpl.
    destruct (select_step_total data batch total_steps ins step
                data_shape Hstep) as [-> Hx]. simpl.
    destruct (coupled_forward_rows cell HWf HWc HWo _ h c batch Hx Hh Hc)
      as (nh & nc & f & o & ct & Hrun & Hnh & Hnc & Hf & Ho & Hct & Hrows).
    fold cell. rewrite Hrun. simpl.
    destruct (IH nh nc (internals ++ [(f, o, ct)]) Hnh Hnc)
      as (h' & c' & signals & Hloop & Hh' & Hc' & Hlen & Hshapes & Hfinal).
    exists h', c', ((f, o, ct) :: signals).
    rewrite Hloop, <- app_assoc. simpl.
    split_and!; try done.
    + by rewrite Hlen.
    + by constructor.
    + intros b row hb cb Hrow Hhb Hcb.
      assert (Hxb : map (fun r : Tensor => nth step r []) data !! b
                    = Some (nth step row [])).
      { by rewrite list_lookup_fmap, Hrow. }
      specialize (Hrows b _ hb cb Hxb Hhb Hcb).
      injection Hrows as Hnhb Hncb Hfb Hob Hctb.
      destruct (Hfinal b row _ _ Hrow Hnhb Hncb) as (Hfh & Hfc & Hsig).
      simpl. rewrite Hfh, Hfc, Hsig, Hfb, Hob, Hctb. done.
Qed.

(** The first step from the state [None] is the step from the zero
    state. *)
Lemma steps_loop_from_None (step : nat) (steps : list nat)
  (internals : list GateSignals) :
  step < total_steps ->
  VisualizeInternalGates.steps_loop self data (step :: steps) None internals
  = VisualizeInternalGates.steps_loop self data (step :: steps)
      (Some (torch.zeros batch hs, torch.zeros batch hs)) internals.
Proof.
  intros Hstep. simpl.
  destruct (select_step_total data batch total_steps ins step
              data_shape Hstep) as [-> Hx]. simpl.
  unfold forward. fold cell. fold hs.
  by rewrite (has_shape_length _ _ _ Hx).
Qed.

End StepsLoop.

(** ** Ranges of the state and of the gate signals *)

Lemma strictly_within_rows (lo hi : R) (t : Tensor) :
  (forall (b : nat) (row : list R),
      t !! b = Some row -> Forall (fun v => (lo < v < hi)%R) row) ->
  strictly_within lo hi t.
Proof. intros Hrows. apply Forall_lookup. exact Hrows. Qed.

Lemma zeros_lookup (m n b : nat) :
  b < m -> torch.zeros m n !! b = Some (replicate n 0%R).
Proof. intros Hb. by apply lookup_replicate_2. Qed.

Lemma zeros_row_range (n : nat) :
  Forall (fun v => (-1 < v < 1)%R) (replicate n 0%R).
Proof. apply Forall_replicate. lra. Qed.

(** X25.  In exact real arithmetic (the entries of the tensors are real
    numbers here; the program computes in 32-bit floating point, where
    [torch.sigmoid] and [torch.tanh] round to exactly 1 on large arguments,
    which this statement does not cover): started from the state [None]
    (the zero state) and run for any number [n] of steps of a sequence, the
    loop over the coupled cell ends with a state of shape
    [(batch, hidden_size)] whose cell state has its entries strictly between
    -1 and 1, and every gate signal it has collected has that shape and its
    entries strictly between 0 and 1 ([f] and [o]) or strictly between -1
    and 1 ([c_tilde]). *)
Theorem coupled_lstm_state_and_gates_bounded
  (self : VisualizeInternalGates.t) (data : list Tensor)
  (batch total_steps n : nat) :
  let cell := VisualizeInternalGates.rnn_model self in
  let hidden := VisualizeCoupledLSTMCell.hidden_size cell in
  coupled_cell_wf cell ->
  has_shape3 data batch total_steps
    (VisualizeCoupledLSTMCell.input_size cell) ->
  n <= total_steps ->
  exists (state : CellState) (signals : list GateSignals),
    VisualizeInternalGates.steps_loop self data (seq 0 n) None []
    = Ok (state, signals) /\
    length signals = n /\
    (n = 0 <-> state = None) /\
    (forall h c, state = Some (h, c) ->
       has_shape h batch hidden /\ has_shape c batch hidden /\
       strictly_within (-1) 1 c) /\
    Forall (fun g : GateSignals =>
              has_shape g.1.1 batch hidden /\
              has_shape g.1.2 batch hidden /\
              has_shape g.2 batch hidden /\
              strictly_within 0 1 g.1.1 /\
              strictly_within 0 1 g.1.2 /\
              strictly_within (-1) 1 g.2) signals.
Proof.
  intros cell hidden Hwf Hdata Hn. subst hidden. destruct n as [|m].
  - exists None, []. simpl. split_and!; done.
  - change (seq 0 (S m)) with (0 :: seq 1 m).
    rewrite (steps_loop_from_None self data batch total_steps Hdata);
      [|lia].
    change (0 :: seq 1 m) with (seq 0 (S m)).
    set (hs := VisualizeCoupledLSTMCell.hidden_size cell).
    destruct (steps_loop_rows self Hwf data batch total_steps Hdata
                (seq 0 (S m))) with (h := torch.zeros batch hs)
                (c := torch.zeros batch hs) (internals := @nil GateSignals)
      as (h' & c' & signals & Hloop & Hh' & Hc' & Hlen & Hshapes & Hrows);
      try apply has_shape_zeros.
    { apply Forall_seq. intros i Hi. lia. }
    exists (Some (h', c')), signals.
    assert (Hsample : forall b, b < batch ->
              exists row, data !! b = Some row /\
                torch.zeros batch hs !! b = Some (replicate hs 0%R)).
    { intros b Hb. destruct Hdata as [Hdlen _].
      destruct (lookup_lt_is_Some_2 data b) as [row Hrow]; [lia|].
      exists row. split; [exact Hrow|by apply zeros_lookup]. }
    split_and!.
    + exact Hloop.
    + by rewrite Hlen, length_seq.
    + split; discriminate.
    + intros h c [= <- <-]. split; [exact Hh'|]. split; [exact Hc'|].
      apply strictly_within_rows. intros b row Hb.
      assert (Hlt : b < batch).
      { rewrite <- (has_shape_length _ _ _ Hc'). by eapply lookup_lt_Some. }
      destruct (Hsample b Hlt) as (drow & Hdrow & Hzero).
      destruct (Hrows b drow _ _ Hdrow Hzero Hzero) as (_ & Hcb & _).
      rewrite Hcb in Hb. apply (inj Some) in Hb. rewrite <- Hb.
      apply coupled_final_range, zeros_row_range.
    + apply Forall_lookup. intros t g Hg.
      rewrite Forall_lookup in Hshapes.
      destruct (Hshapes t g Hg) as (Hsf & Hso & Hsc).
      assert (Hgate : forall b, b < batch -> exists s,
                 (g.1.1 !! b, g.1.2 !! b, g.2 !! b)
                 = (Some s.1.1, Some s.1.2, Some s.2) /\
                 Forall (fun v => (0 < v < 1)%R) s.1.1 /\
                 Forall (fun v => (0 < v < 1)%R) s.1.2 /\
                 Forall (fun v => (-1 < v < 1)%R) s.2).
      { intros b Hlt. destruct (Hsample b Hlt) as (drow & Hdrow & Hzero).
        destruct (Hrows b drow _ _ Hdrow Hzero Hzero) as (_ & _ & Hsig).
        match type of Hsig with
        | _ = map _ ?l => set (published := l) in Hsig
        end.
        assert (Hall : Forall (fun s : list R * list R * list R =>
                   Forall (fun v => (0 < v < 1)%R) s.1.1 /\
                   Forall (fun v => (0 < v < 1)%R) s.1.2 /\
                   Forall (fun v => (-1 < v < 1)%R) s.2) published)
          by apply coupled_signals_range.
        clearbody published.
        apply (f_equal (fun l => l !! t)) in Hsig.
        rewrite !list_lookup_fmap, Hg in Hsig.
        destruct (published !! t) as [s|] eqn:Hs; [|discriminate].
        apply (inj Some) in Hsig.
        exists s. split; [exact Hsig|].
        rewrite Forall_lookup in Hall. exact (Hall t s Hs). }
      split; [exact Hsf|]. split; [exact Hso|]. split; [exact Hsc|].
      split_and!; apply strictly_within_rows; intros b row Hb.
      * assert (Hlt : b < batch).
        { rewrite <- (has_shape_length _ _ _ Hsf). by eapply lookup_lt_Some. }
        destruct (Hgate b Hlt) as (s & Heq & Hr & _).
        rewrite Hb in Heq. by injection Heq as -> _ _.
      * assert (Hlt : b < batch).
        { rewrite <- (has_shape_length _ _ _ Hso). by eapply lookup_lt_Some. }
        destruct (Hgate b Hlt) as (s & Heq & _ & Hr & _).
        rewrite Hb in Heq. by injection Heq as _ -> _.
      * assert (Hlt : b < batch).
        { rewrite <- (has_shape_length _ _ _ Hsc). by eapply lookup_lt_Some. }
        destruct (Hgate b Hlt) as (s & Heq & _ & _ & Hr).
        rewrite Hb in Heq. by injection Heq as _ _ ->.
Qed.

Lemma coupled_lstm_state_and_gates_bounded_witness :
  let self := VisualizeInternalGates.init sample_entropy in
  let data := [[replicate 256 (1 / 256)%R; replicate 256 (1 / 128)%R]] in
  exists (state : CellState) (signals : list GateSignals),
    VisualizeInternalGates.steps_loop self data (seq 0 2) None []
    = Ok (state, signals) /\
    length signals = 2 /\
    (2 = 0 <-> state = None) /\
    (forall h c, state = Some (h, c) ->
       has_shape h 1 128 /\ has_shape c 1 128 /\ strictly_within (-1) 1 c) /\
    Forall (fun g : GateSignals =>
              has_shape g.1.1 1 128 /\
              has_shape g.1.2 1 128 /\
              has_shape g.2 1 128 /\
              strictly_within 0 1 g.1.1 /\
              strictly_within 0 1 g.1.2 /\
              strictly_within (-1) 1 g.2) signals.
Proof.
  intros self data.
  apply (coupled_lstm_state_and_gates_bounded self data 1 2 2).
  - unfold coupled_cell_wf.
    split_and!; apply has_shape_new_parameter.
  - split; [reflexivity|]. constructor; [|constructor].
    split; [reflexivity|]. repeat constructor.
  - lia.
Defined.

(** ** The forward pass of the model *)

Lemma map_nth_seq_id {A : Type} (l : list A) (d : A) :
  map (fun s => nth s l d) (seq 0 (length l)) = l.
Proof.
  apply list_eq. intros i. rewrite list_lookup_fmap.
  destruct (decide (i < length l)) as [Hi|Hi].
  - rewrite lookup_seq_lt by done. simpl. rewrite nth_lookup.
    destruct (lookup_lt_is_Some_2 l i Hi) as [a ->]. done.
  - rewrite lookup_seq_ge by lia. simpl. symmetry.
    apply lookup_ge_None. lia.
Qed.

Lemma embedding_forward_total (self : Embedding.t) (t : IndexTensor)
  (vocabulary_size dim : nat) :
  has_shape (Embedding.weight self) vocabulary_size dim ->
  index_tensor_wf t -> tensor_dtype t = int64 ->
  Forall (Forall (fun i => i < vocabulary_size)) (entries t) ->
  Embedding.forward self t
  = Ok (map (map (fun i => nth i (Embedding.weight self) [])) (entries t)) /\
  has_shape3 (map (map (fun i => nth i (Embedding.weight self) []))
                (entries t)) (shape0 t) (shape1 t) dim.
Proof.
  intros Hw [Hrows Hcols] Hdtype Hrange. split.
  - unfold Embedding.forward. rewrite Hdtype. apply mapM_total.
    eapply Forall_impl; [exact Hrange|]. intros row Hrow. simpl.
    apply mapM_total. eapply Forall_impl; [exact Hrow|]. intros i Hi. simpl.
    apply item_total. by rewrite (has_shape_length _ _ _ Hw).
  - split; [by rewrite length_map|].
    apply Forall_fmap, Forall_lookup. intros b row Hb. simpl.
    rewrite Forall_lookup in Hcols, Hrange.
    split; [rewrite length_map; by eapply Hcols|].
    apply Forall_fmap, Forall_lookup. intros k i Hk. simpl.
    specialize (Hrange b row Hb). rewrite Forall_lookup in Hrange.
    specialize (Hrange k i Hk).
    destruct (lookup_lt_is_Some_2 (Embedding.weight self) i) as [v Hv].
    { by rewrite (has_shape_length _ _ _ Hw). }
    rewrite nth_lookup, Hv. simpl. by eapply has_shape_lookup.
Qed.

Lemma linear_forward_total (self : Linear.t) (x : Tensor)
  (batch in_features out_features : nat) :
  has_shape (Linear.weight self) out_features in_features ->
  length (Linear.bias self) = out_features ->
  has_shape x batch in_features ->
  exists y, Linear.forward self x = Ok y /\ has_shape y batch out_features.
Proof.
  intros Hw Hb Hx. unfold Linear.forward.
  destruct (linear_ok x _ _ _ _ Hx Hw) as [-> [Hlen Hrows]]. simpl.
  replace (forallb _ _) with true.
  - eexists. split; [reflexivity|]. split; [by rewrite length_map|].
    apply Forall_fmap. eapply Forall_impl; [exact Hrows|].
    intros r Hr. simpl in *. rewrite length_zip_with. lia.
  - symmetry. apply forallb_forall. intros r Hr.
    apply bool_decide_eq_true_2. rewrite Forall_forall in Hrows.
    rewrite Hb. apply Hrows. by apply list_elem_of_In.
Qed.

Lemma forward_rows (self : VisualizeInternalGates.t) (t : IndexTensor) :
  let cell := VisualizeInternalGates.rnn_model self in
  let W_f := VisualizeCoupledLSTMCell.W_f cell in
  let W_o := VisualizeCoupledLSTMCell.W_o cell in
  let W_c := VisualizeCoupledLSTMCell.W_c cell in
  checkpoint_architecture self ->
  index_tensor_wf t -> tensor_dtype t = int64 ->
  Forall (Forall (fun i => i < CKPT_VOCABULARY_SIZE)) (entries t) ->
  1 <= shape1 t ->
  exists (logits : Tensor) (signals : list GateSignals),
    VisualizeInternalGates.forward self t = Ok (logits, outputs_of signals) /\
    has_shape logits (shape0 t) CKPT_VOCABULARY_SIZE /\
    length signals = shape1 t /\
    Forall (fun g : GateSignals =>
              has_shape g.1.1 (shape0 t) CKPT_HIDDEN_SIZE /\
              has_shape g.1.2 (shape0 t) CKPT_HIDDEN_SIZE /\
              has_shape g.2 (shape0 t) CKPT_HIDDEN_SIZE) signals /\
    forall (b : nat) (indices : list nat),
      entries t !! b = Some indices ->
      map (fun g : GateSignals => (g.1.1 !! b, g.1.2 !! b, g.2 !! b)) signals
      = map (fun s => (Some s.1.1, Some s.1.2, Some s.2))
          (Published.coupled_signals W_f W_o W_c (embedded self indices)
             (replicate CKPT_HIDDEN_SIZE 0%R)
             (replicate CKPT_HIDDEN_SIZE 0%R)).
Proof.
  intros cell W_f W_o W_c (Hemb & Hins & Hhs & Hcell & Hcw & Hcb)
    Hwf Hdtype Hrange Hsteps.
  subst W_f W_o W_c. unfold cell in *. clear cell.
  unfold VisualizeInternalGates.forward.
  destruct (embedding_forward_total _ t _ _ Hemb Hwf Hdtype Hrange)
    as [-> Hdata]. simpl.
  set (data := map _ (entries t)) in *.
  rewrite <- Hins in Hdata.
  destruct (shape1 t) as [|m] eqn:HT; [lia|].
  change (seq 0 (S m)) with (0 :: seq 1 m).
  rewrite (steps_loop_from_None self data (shape0 t) (S m) Hdata); [|lia].
  change (0 :: seq 1 m) with (seq 0 (S m)).
  destruct (steps_loop_rows self Hcell data (shape0 t) (S m) Hdata
              (seq 0 (S m))) with
      (h := torch.zeros (shape0 t)
              (VisualizeCoupledLSTMCell.hidden_size
                 (VisualizeInternalGates.rnn_model self)))
      (c := torch.zeros (shape0 t)
              (VisualizeCoupledLSTMCell.hidden_size
                 (VisualizeInternalGates.rnn_model self)))
      (internals := @nil GateSignals)
    as (h' & c' & signals & Hloop & Hh' & Hc' & Hlen & Hshapes & Hrows);
    try apply has_shape_zeros.
  { apply Forall_seq. intros i Hi. lia. }
  rewrite Hloop. simpl.
  rewrite Hhs in Hh'.
  destruct (linear_forward_total _ h' _ _ _ Hcw Hcb Hh')
    as (logits & -> & Hlogits). simpl.
  rewrite length_seq in Hlen.
  destruct signals as [|g signals]; [discriminate Hlen|].
  simpl. exists logits, (g :: signals).
  split_and!; try done.
  - by rewrite Hhs in Hshapes.
  - intros b indices Hb.
    assert (Hrow : data !! b = Some (embedded self indices)).
    { unfold data. by rewrite list_lookup_fmap, Hb. }
    assert (Hlt : b < shape0 t).
    { destruct Hwf as [<- _]. by eapply lookup_lt_Some. }
    pose proof (zeros_lookup (shape0 t)
                  (VisualizeCoupledLSTMCell.hidden_size
                     (VisualizeInternalGates.rnn_model self)) b Hlt) as Hz.
    destruct (Hrows b _ _ _ Hrow Hz Hz) as (_ & _ & Hsig).
    rewrite Hhs in Hsig.
    rewrite Hsig. f_equal. f_equal.
    assert (Hlenrow : length (embedded self indices) = S m).
    { unfold embedded. rewrite length_map. destruct Hwf as [_ Hcols].
      rewrite Forall_lookup in Hcols. rewrite <- HT. by eapply Hcols. }
    rewrite <- Hlenrow. apply map_nth_seq_id.
Qed.

(** ** The architecture that the constructor builds *)

Lemma init_architecture (e : Entropy) :
  checkpoint_architecture (VisualizeInternalGates.init e).
Proof.
  unfold checkpoint_architecture, coupled_cell_wf.
  split_and!; try reflexivity.
  - change (has_shape
              (<[PADDING_TOKEN := replicate CKPT_EMBEDDING_DIM 0%R]>
                 (new_parameter CKPT_VOCABULARY_SIZE CKPT_EMBEDDING_DIM
                    (embedding_draw e)))
              CKPT_VOCABULARY_SIZE CKPT_EMBEDDING_DIM).
    destruct (has_shape_new_parameter CKPT_VOCABULARY_SIZE CKPT_EMBEDDING_DIM
                (embedding_draw e)) as [Hlen Hrows].
    split; [by rewrite length_insert|].
    apply Forall_insert; [exact Hrows|]. apply length_replicate.
  - apply has_shape_new_parameter.
  - apply has_shape_new_parameter.
  - apply has_shape_new_parameter.
  - apply has_shape_new_parameter.
Qed.

(** C6.  Every model that the constructor builds has the architecture of the
    checkpoint: an embedding of 82 tokens into 256 dimensions, a recurrent
    cell of input size 256 and hidden size 128, and a classifier that maps
    128 hidden units to 82 logits. *)
Theorem model_has_checkpoint_architecture (e : Entropy) :
  let model := VisualizeInternalGates.init e in
  let embedding := VisualizeInternalGates.embedding model in
  let cell := VisualizeInternalGates.rnn_model model in
  let classifier := VisualizeInternalGates.classifier model in
  Embedding.num_embeddings embedding = 82 /\
  Embedding.embedding_dim embedding = 256 /\
  has_shape (Embedding.weight embedding) 82 256 /\
  VisualizeCoupledLSTMCell.input_size cell = 256 /\
  VisualizeCoupledLSTMCell.hidden_size cell = 128 /\
  has_shape (VisualizeCoupledLSTMCell.W_f cell) 128 (128 + 256) /\
  has_shape (VisualizeCoupledLSTMCell.W_c cell) 128 (128 + 256) /\
  has_shape (VisualizeCoupledLSTMCell.W_o cell) 128 (128 + 256) /\
  has_shape (Linear.weight classifier) 82 128 /\
  length (Linear.bias classifier) = 82 /\
  forall (x : Tensor) (batch : nat),
    has_shape x batch 128 ->
    exists logits,
      Linear.forward classifier x = Ok logits /\ has_shape logits batch 82.
Proof.
  intros model embedding cell classifier.
  destruct (init_architecture e)
    as (Hemb & Hins & Hhs & (HWf & HWc & HWo) & Hcw & Hcb).
  split_and!; try done.
  intros x batch Hx.
  exact (linear_forward_total classifier x batch 128 82 Hcw Hcb Hx).
Qed.

(** C10.  On a batch of token indices with at least one step, [forward]
    returns logits of shape [(batch, 82)] and, under each of its three keys,
    one gate signal per step; on a batch with no step the state is still
    [None] when the classifier is reached, and [forward] ends in a
    [TypeError]. *)
Theorem forward_requires_nonempty_sequence (e : Entropy) (t : IndexTensor) :
  let model := VisualizeInternalGates.init e in
  index_tensor_wf t -> tensor_dtype t = int64 ->
  Forall (Forall (fun i => i < 82)) (entries t) ->
  (1 <= shape1 t ->
   exists (logits : Tensor) (outputs : gmap string (list Tensor))
          (update reset candidates : list Tensor),
     VisualizeInternalGates.forward model t = Ok (logits, outputs) /\
     has_shape logits (shape0 t) 82 /\
     outputs !! "update_signals" = Some update /\
     outputs !! "reset_signals" = Some reset /\
     outputs !! "cell_state_candidates" = Some candidates /\
     length update = shape1 t /\ length reset = shape1 t /\
     length candidates = shape1 t) /\
  (shape1 t = 0 ->
   VisualizeInternalGates.steps_loop model
     (map (map (fun i => nth i (Embedding.weight
                                  (VisualizeInternalGates.embedding model)) []))
        (entries t))
     (seq 0 (shape1 t)) None []
   = Ok (None, []) /\
   VisualizeInternalGates.forward model t = Raise TypeError).
Proof.
  intros model Hwf Hdtype Hrange. split.
  - intros Hsteps.
    destruct (forward_rows model t (init_architecture e) Hwf Hdtype Hrange
                Hsteps)
      as (logits & signals & Hrun & Hlogits & Hlen & _ & _).
    exists logits, (outputs_of signals), (map (fun g => g.1.1) signals),
      (map (fun g => g.1.2) signals), (map (fun g => g.2) signals).
    rewrite !length_map. split_and!; try done.
  - intros Hzero.
    destruct (init_architecture e) as (Hemb & _).
    destruct (embedding_forward_total _ t _ _ Hemb Hwf Hdtype Hrange)
      as [Hdata _].
    unfold VisualizeInternalGates.forward, model. rewrite Hdata, Hzero.
    split; reflexivity.
Qed.

Lemma forward_requires_nonempty_sequence_witness :
  let model := VisualizeInternalGates.init sample_entropy in
  (exists (logits : Tensor) (outputs : gmap string (list Tensor))
          (update reset candidates : list Tensor),
     VisualizeInternalGates.forward model one_token = Ok (logits, outputs) /\
     has_shape logits 1 82 /\
     outputs !! "update_signals" = Some update /\
     outputs !! "reset_signals" = Some reset /\
     outputs !! "cell_state_candidates" = Some candidates /\
     length update = 1 /\ length reset = 1 /\ length candidates = 1) /\
  VisualizeInternalGates.forward model no_token = Raise TypeError.
Proof.
  intros model. split.
  - destruct (forward_requires_nonempty_sequence sample_entropy one_token)
      as [Hsome _].
    + split; [reflexivity|]. repeat constructor.
    + reflexivity.
    + repeat constructor.
    + apply Hsome. simpl. lia.
  - destruct (forward_requires_nonempty_sequence sample_entropy no_token)
      as [_ Hnone].
    + split; [reflexivity|]. repeat constructor.
    + reflexivity.
    + repeat constructor.
    + apply Hnone. reflexivity.
Defined.

(** ** The two dictionaries of the dataset *)

Lemma enumerate_elem_of {A : Type} (l : list A) (i : nat) (x : A) :
  (i, x) ∈ enumerate l <-> l !! i = Some x.
Proof.
  unfold enumerate. rewrite list_elem_of_lookup. split.
  - intros [j Hj]. unfold zip in Hj.
    apply lookup_zip_with_Some in Hj as (a & b & Heq & Ha & Hb).
    apply lookup_seq in Ha as [-> _]. by injection Heq as -> ->.
  - intros Hi. exists i. unfold zip. apply lookup_zip_with_Some.
    exists i, x. split_and!; try done.
    apply lookup_seq. split; [done|]. by eapply lookup_lt_Some.
Qed.

Section DictComprehension.
Context `{Countable K} {V : Type}.

Lemma dict_comprehension_fold_Some (items : list (K * V)) (m : gmap K V)
  (k : K) (v : V) :
  foldl (fun d kv => <[kv.1 := kv.2]> d) m items !! k = Some v ->
  (k, v) ∈ items \/ m !! k = Some v.
Proof.
  revert m. induction items as [|[k' v'] items IH]; intros m Hk; simpl in *.
  - by right.
  - destruct (IH _ Hk) as [Hin|Hm].
    + left. by right.
    + destruct (decide (k' = k)) as [->|Hne].
      * rewrite lookup_insert_eq in Hm. injection Hm as ->. left. by left.
      * rewrite lookup_insert_ne in Hm by done. by right.
Qed.

Lemma dict_comprehension_fold_is_Some (items : list (K * V)) (m : gmap K V)
  (k : K) :
  k ∈ items.*1 \/ is_Some (m !! k) ->
  is_Some (foldl (fun d kv => <[kv.1 := kv.2]> d) m items !! k).
Proof.
  revert m. induction items as [|[k' v'] items IH]; intros m Hk; simpl in *.
  - destruct Hk as [Hk|Hk]; [|done]. by apply elem_of_nil in Hk.
  - apply IH. destruct Hk as [Hk|Hk].
    + apply elem_of_cons in Hk as [->|Hk]; [|by left].
      right. rewrite lookup_insert_eq. by eexists.
    + right. destruct (decide (k' = k)) as [->|Hne].
      * rewrite lookup_insert_eq. by eexists.
      * by rewrite lookup_insert_ne.
Qed.

Lemma dict_comprehension_Some (items : list (K * V)) (k : K) (v : V) :
  dict_comprehension items !! k = Some v -> (k, v) ∈ items.
Proof.
  intros Hk. apply dict_comprehension_fold_Some in Hk as [Hin|Hm]; [done|].
  by rewrite lookup_empty in Hm.
Qed.

Lemma dict_comprehension_is_Some (items : list (K * V)) (k : K) :
  k ∈ items.*1 -> is_Some (dict_comprehension items !! k).
Proof. intros Hk. apply dict_comprehension_fold_is_Some. by left. Qed.

End DictComprehension.

Section Dictionaries.
Variables (vocabulary : list pychar) (file_text : list pychar).
Let dataset := VisualizeWarAndPeaceDataset.init vocabulary file_text.

Lemma char2index_Some (x : pychar) (i : nat) :
  VisualizeWarAndPeaceDataset.char2index dataset !! x = Some i ->
  vocabulary !! i = Some x.
Proof.
  intros Hx. apply dict_comprehension_Some in Hx.
  apply list_elem_of_fmap in Hx as ([j y] & Heq & Hin).
  injection Heq as -> ->. by apply enumerate_elem_of.
Qed.

Lemma char2index_is_Some (x : pychar) :
  x ∈ vocabulary ->
  is_Some (VisualizeWarAndPeaceDataset.char2index dataset !! x).
Proof.
  intros Hx. apply dict_comprehension_is_Some.
  apply list_elem_of_lookup in Hx as [i Hi].
  apply list_elem_of_fmap. exists (x, i). split; [done|].
  apply list_elem_of_fmap. exists (i, x). split; [done|].
  by apply enumerate_elem_of.
Qed.

Lemma index2char_lookup (i : nat) (x : pychar) :
  vocabulary !! i = Some x ->
  VisualizeWarAndPeaceDataset.index2char dataset !! i = Some x.
Proof.
  intros Hi.
  destruct (dict_comprehension_is_Some
              (map (fun ix : nat * pychar => (ix.1, ix.2))
                 (enumerate vocabulary)) i) as [y Hy].
  { apply list_elem_of_fmap. exists (i, x). split; [done|].
    apply list_elem_of_fmap. exists (i, x). split; [done|].
    by apply enumerate_elem_of. }
  unfold dataset. simpl. rewrite Hy. f_equal.
  apply dict_comprehension_Some in Hy.
  apply list_elem_of_fmap in Hy as ([j z] & Heq & Hin).
  injection Heq as -> ->. apply enumerate_elem_of in Hin. congruence.
Qed.

(** Encoding a line and decoding the indices gives the line back. *)
Lemma encode_decode (line : list pychar) :
  Forall (fun x => x ∈ vocabulary) line ->
  exists indices : list nat,
    mapM (dict_get (VisualizeWarAndPeaceDataset.char2index dataset)) line
    = Ok indices /\
    mapM (dict_get (VisualizeWarAndPeaceDataset.index2char dataset)) indices
    = Ok line /\
    length indices = length line /\
    Forall (fun i => i < length vocabulary) indices.
Proof.
  induction 1 as [|x line Hx _ (indices & Henc & Hdec & Hlen & Hlt)].
  - exists []. by split_and!.
  - destruct (char2index_is_Some x Hx) as [i Hi].
    pose proof (char2index_Some x i Hi) as Hvi.
    pose proof (index2char_lookup i x Hvi) as Hix.
    exists (i :: indices).
    set (c2i := VisualizeWarAndPeaceDataset.char2index dataset) in *.
    set (i2c := VisualizeWarAndPeaceDataset.index2char dataset) in *.
    simpl. unfold dict_get at 1. rewrite Hi. simpl.
    rewrite Henc. simpl. unfold dict_get at 1.
    rewrite Hix. simpl. rewrite Hdec. simpl.
    split_and!; try done; [by rewrite Hlen|].
    constructor; [by eapply lookup_lt_Some|done].
Qed.

End Dictionaries.

(** C9.  Whenever every character of a line of the dataset is in the
    vocabulary, [__getitem__] returns the indices of the line, and
    [convert_to_chars] applied to them gives back the characters of the line,
    in order. *)
Theorem convert_to_chars_inverts_getitem
  (vocabulary file_text : list pychar) (index : Z) (line : list pychar) :
  let dataset := VisualizeWarAndPeaceDataset.init vocabulary file_text in
  py_list_get (VisualizeWarAndPeaceDataset.data dataset) index = Ok line ->
  Forall (fun x => x ∈ vocabulary) line ->
  exists (sequence : ndarray) (label : Z),
    VisualizeWarAndPeaceDataset.getitem dataset index = Ok (sequence, label) /\
    VisualizeWarAndPeaceDataset.convert_to_chars dataset (OfArray sequence)
    = Ok line.
Proof.
  intros dataset Hline Hvoc.
  destruct (encode_decode vocabulary file_text line Hvoc)
    as (indices & Henc & Hdec & _ & _).
  exists (np_array indices), (-1)%Z. split.
  - unfold VisualizeWarAndPeaceDataset.getitem. rewrite Hline.
    unfold bind at 1. cbv beta iota. unfold dataset. by rewrite Henc.
  - exact Hdec.
Qed.

Lemma convert_to_chars_inverts_getitem_witness :
  let dataset :=
    VisualizeWarAndPeaceDataset.init [97; 98]%N [98; 97; 10; 97; 98]%N in
  exists (sequence : ndarray) (label : Z),
    VisualizeWarAndPeaceDataset.getitem dataset 1 = Ok (sequence, label) /\
    VisualizeWarAndPeaceDataset.convert_to_chars dataset (OfArray sequence)
    = Ok [97; 98]%N.
Proof.
  intros dataset.
  apply (convert_to_chars_inverts_getitem
           [97; 98]%N [98; 97; 10; 97; 98]%N 1 [97; 98]%N).
  - reflexivity.
  - repeat constructor.
Defined.

(** ** Rendering one sequence *)

Lemma cat_dim0_total (states : list Tensor) (batch width : nat) :
  states <> [] ->
  Forall (fun s => has_shape s batch width) states ->
  torch.cat_dim0 states = Ok (concat states).
Proof.
  intros Hne Hshapes. unfold torch.cat_dim0.
  assert (Hrows : Forall (fun r : list R => length r = width) (concat states)).
  { apply Forall_concat. eapply Forall_impl; [exact Hshapes|].
    by intros s [_ Hs]. }
  destruct (concat states) as [|row rows].
  - by rewrite bool_decide_eq_false_2.
  - apply Forall_cons in Hrows as [Hrow Hrows].
    replace (forallb _ rows) with true; [done|].
    symmetry. apply forallb_forall. intros r Hr.
    apply bool_decide_eq_true_2. rewrite Forall_forall in Hrows.
    rewrite Hrow. apply Hrows. by apply list_elem_of_In.
Qed.

Lemma string_append_assoc (a b c : string) :
  String.append (String.append a b) c = String.append a (String.append b c).
Proof.
  induction a as [|ch a IH]; [reflexivity|].
  change (String ch (String.append (String.append a b) c)
          = String ch (String.append a (String.append b c))).
  by f_equal.
Qed.

Lemma saved_path (step : nat) (gate : string) :
  lower gate = gate ->
  os_path_join "visualize/"
    (String.append (String.append "S" (String.append (format_02d step) "_"))
       (String.append (lower gate) ".png"))
  = file_name step gate.
Proof.
  intros ->. unfold file_name. rewrite !string_append_assoc. reflexivity.
Qed.

Lemma visualize_internals_total (step : nat) (line : list pychar)
  (gate : string) (lowest : Z) (states : list Tensor) (batch width : nat) :
  (gate, lowest) ∈ [("update_signals", 0%Z); ("reset_signals", 0%Z);
                    ("cell_state_candidates", (-1)%Z)] ->
  states <> [] ->
  Forall (fun s => has_shape s batch width) states ->
  visualize_internals step line gate states "visualize/"
  = Ok (heatmap step line gate lowest states).
Proof.
  intros Hgate Hne Hshapes. unfold visualize_internals.
  rewrite (cat_dim0_total states batch width Hne Hshapes).
  unfold bind at 1. cbv beta iota.
  assert (Hcases : (gate = "update_signals" /\ lowest = 0%Z) \/
                   (gate = "reset_signals" /\ lowest = 0%Z) \/
                   (gate = "cell_state_candidates" /\ lowest = (-1)%Z)).
  { rewrite !elem_of_cons in Hgate.
    destruct Hgate as [[= -> ->]|[[= -> ->]|[[= -> ->]|Hnil]]]; auto.
    by apply elem_of_nil in Hnil. }
  destruct Hcases as [[-> ->]|[[-> ->]|[-> ->]]];
    (rewrite saved_path by reflexivity); reflexivity.
Qed.

Lemma gates_loop_total (dataset : VisualizeWarAndPeaceDataset.t)
  (step : nat) (t : IndexTensor) (line : list pychar)
  (signals : list GateSignals) (batch width : nat) (saved : list Figure) :
  VisualizeWarAndPeaceDataset.convert_to_chars dataset (OfTensor t)
  = Ok line ->
  signals <> [] ->
  Forall (fun g : GateSignals =>
            has_shape g.1.1 batch width /\ has_shape g.1.2 batch width /\
            has_shape g.2 batch width) signals ->
  gates_loop dataset step t (outputs_of signals) gate_names saved
  = (saved ++ three_figures step line signals, Ok tt).
Proof.
  intros Hchars Hne Hshapes.
  assert (Hne' : forall proj : GateSignals -> Tensor, map proj signals <> []).
  { intros proj Hnil. apply Hne. by eapply fmap_nil_inv. }
  assert (H1 : Forall (fun s => has_shape s batch width)
                 (map (fun g : GateSignals => g.1.1) signals)).
  { apply Forall_fmap. eapply Forall_impl; [exact Hshapes|].
    by intros g (? & ? & ?). }
  assert (H2 : Forall (fun s => has_shape s batch width)
                 (map (fun g : GateSignals => g.1.2) signals)).
  { apply Forall_fmap. eapply Forall_impl; [exact Hshapes|].
    by intros g (? & ? & ?). }
  assert (H3 : Forall (fun s => has_shape s batch width)
                 (map (fun g : GateSignals => g.2) signals)).
  { apply Forall_fmap. eapply Forall_impl; [exact Hshapes|].
    by intros g (? & ? & ?). }
  unfold gate_names, gates_loop. rewrite Hchars.
  unfold bind at 1. cbv beta iota.
  change (dict_get (outputs_of signals) "update_signals")
    with (Ok (A := list Tensor) (map (fun g : GateSignals => g.1.1) signals)).
  unfold bind at 1. cbv beta iota.
  rewrite (visualize_internals_total step line "update_signals" 0 _ batch width)
    by (try done; set_solver).
  unfold bind at 1. cbv beta iota.
  change (dict_get (outputs_of signals) "reset_signals")
    with (Ok (A := list Tensor) (map (fun g : GateSignals => g.1.2) signals)).
  unfold bind at 1. cbv beta iota.
  rewrite (visualize_internals_total step line "reset_signals" 0 _ batch width)
    by (try done; set_solver).
  unfold bind at 1. cbv beta iota.
  change (dict_get (outputs_of signals) "cell_state_candidates")
    with (Ok (A := list Tensor) (map (fun g : GateSignals => g.2) signals)).
  unfold bind at 1. cbv beta iota.
  rewrite (visualize_internals_total step line "cell_state_candidates" (-1)
             _ batch width) by (try done; set_solver).
  unfold three_figures. by rewrite <- !app_assoc.
Qed.

(** ** The loop over the dataset *)

Lemma py_list_get_nat {A : Type} (l : list A) (i : nat) (a : A) :
  l !! i = Some a -> py_list_get l (Z.of_nat i) = Ok a.
Proof.
  intros Hi. unfold py_list_get.
  replace (0 <=? Z.of_nat i)%Z with true by (symmetry; apply Z.leb_le; lia).
  unfold item. by rewrite Nat2Z.id, Hi.
Qed.

Lemma fetch_total (vocabulary file_text : list pychar) (i : nat)
  (line : list pychar) :
  let dataset := VisualizeWarAndPeaceDataset.init vocabulary file_text in
  VisualizeWarAndPeaceDataset.data dataset !! i = Some line ->
  line <> [] -> Forall (fun x => x ∈ vocabulary) line ->
  length vocabulary <= CKPT_VOCABULARY_SIZE ->
  exists indices : list nat,
    mapM (dict_get (VisualizeWarAndPeaceDataset.char2index dataset)) line
    = Ok indices /\
    DataLoader_fetch dataset i = Ok (batch_of indices, [(-1)%Z]) /\
    VisualizeWarAndPeaceDataset.convert_to_chars dataset
      (OfTensor (batch_of indices)) = Ok line /\
    index_tensor_wf (batch_of indices) /\
    tensor_dtype (batch_of indices) = int64 /\
    Forall (Forall (fun k => k < CKPT_VOCABULARY_SIZE))
      (entries (batch_of indices)) /\
    shape0 (batch_of indices) = 1 /\
    shape1 (batch_of indices) = length line.
Proof.
  intros dataset Hline Hne Hvoc Hsize.
  destruct (encode_decode vocabulary file_text line Hvoc)
    as (indices & Henc & Hdec & Hlen & Hlt).
  exists indices. split; [exact Henc|].
  assert (Hind : indices <> []).
  { intros ->. destruct line; [done|discriminate Hlen]. }
  split_and!.
  - unfold DataLoader_fetch, VisualizeWarAndPeaceDataset.getitem.
    rewrite (py_list_get_nat _ _ _ Hline).
    unfold bind at 2. cbv beta iota. unfold dataset. rewrite Henc.
    reflexivity.
  - exact Hdec.
  - split; [reflexivity|]. by repeat constructor.
  - destruct indices; [done|reflexivity].
  - constructor; [|constructor].
    eapply Forall_impl; [exact Hlt|]. intros k Hk. simpl in Hk. lia.
  - reflexivity.
  - exact Hlen.
Qed.

Lemma batches_loop_total (model : VisualizeInternalGates.t)
  (vocabulary file_text : list pychar) :
  let dataset := VisualizeWarAndPeaceDataset.init vocabulary file_text in
  checkpoint_architecture model ->
  length vocabulary <= CKPT_VOCABULARY_SIZE ->
  forall (steps : list nat) (saved : list Figure),
    Forall (fun step =>
              exists line,
                VisualizeWarAndPeaceDataset.data dataset !! step = Some line /\
                line <> [] /\ Forall (fun x => x ∈ vocabulary) line) steps ->
    exists groups : list (list Figure),
      batches_loop model dataset steps saved
      = (saved ++ concat groups, Ok tt) /\
      Forall2 (sequence_figures model dataset) steps groups.
Proof.
  intros dataset Harch Hsize steps saved Hsteps. revert saved.
  induction Hsteps as [|step steps (line & Hline & Hne & Hvoc) _ IH];
    intros saved.
  - exists []. simpl. rewrite app_nil_r. split; [done|constructor].
  - destruct (fetch_total vocabulary file_text step line Hline Hne Hvoc Hsize)
      as (indices & Henc & Hfetch & Hchars & Hwf & Hdtype & Hrange & Hb & HT).
    destruct (forward_rows model (batch_of indices) Harch Hwf Hdtype Hrange)
      as (logits & signals & Hrun & _ & Hlen & Hshapes & _).
    { rewrite HT. destruct line; [done|simpl; lia]. }
    assert (Hsig : signals <> []).
    { intros ->. rewrite HT in Hlen. destruct line; [done|discriminate]. }
    destruct (IH (saved ++ three_figures step line signals))
      as (groups & Hloop & Hgroups).
    exists (three_figures step line signals :: groups). split.
    + cbn [batches_loop]. unfold dataset in *. rewrite Hfetch, Hrun.
      rewrite (gates_loop_total _ step _ line signals _ _ saved
                 Hchars Hsig Hshapes).
      rewrite Hloop. simpl. by rewrite <- app_assoc.
    + constructor; [|exact Hgroups].
      exists line, indices, logits, signals.
      split_and!; try done. by rewrite Hlen, HT.
Qed.

Lemma replayable_steps (vocabulary : list pychar)
  (lines : list (list pychar)) :
  replayable vocabulary lines ->
  Forall (fun step =>
            exists line, lines !! step = Some line /\
                         line <> [] /\ Forall (fun x => x ∈ vocabulary) line)
    (seq 0 (length lines)).
Proof.
  intros Hlines. apply Forall_seq. intros i Hi.
  destruct (lookup_lt_is_Some_2 lines i) as [line Hline]; [lia|].
  exists line. split; [done|].
  unfold replayable in Hlines. rewrite Forall_lookup in Hlines.
  exact (Hlines i line Hline).
Qed.

Lemma visualizer_total (checkpoint : Checkpoint) (file_text : list pychar)
  (entropy : Entropy) :
  let vocabulary := ckpt_vocabulary checkpoint in
  let dataset := VisualizeWarAndPeaceDataset.init vocabulary file_text in
  replayable vocabulary (VisualizeWarAndPeaceDataset.data dataset) ->
  length vocabulary <= CKPT_VOCABULARY_SIZE ->
  exists groups : list (list Figure),
    war_and_peace_visualizer checkpoint file_text entropy
    = (concat groups, Ok tt) /\
    Forall2 (sequence_figures (VisualizeInternalGates.init entropy) dataset)
      (seq 0 (length (VisualizeWarAndPeaceDataset.data dataset))) groups.
Proof.
  intros vocabulary dataset Hlines Hsize.
  destruct (batches_loop_total (VisualizeInternalGates.init entropy)
              vocabulary file_text (init_architecture entropy) Hsize
              (seq 0 (length (VisualizeWarAndPeaceDataset.data dataset))) []
              (replayable_steps _ _ Hlines))
    as (groups & Hloop & Hgroups).
  exists groups. split; [exact Hloop|exact Hgroups].
Qed.

(** ** The names of the files *)

Lemma sequence_figures_paths (model : VisualizeInternalGates.t)
  (dataset : VisualizeWarAndPeaceDataset.t) (steps : list nat)
  (groups : list (list Figure)) :
  Forall2 (sequence_figures model dataset) steps groups ->
  map path (concat groups)
  = flat_map (fun step => map (file_name step) gate_names) steps.
Proof.
  induction 1 as [|step figures steps groups Hfig _ IH]; [done|].
  destruct Hfig as (line & indices & logits & signals & _ & _ & _ & _ & ->).
  cbn [concat flat_map]. rewrite map_app, IH. reflexivity.
Qed.

Lemma string_of_uint_digits (d : Decimal.uint) :
  all_digits (NilEmpty.string_of_uint d).
Proof.
  induction d; simpl; try done; (split; [unfold is_digit; cbv; lia|done]).
Qed.

Lemma format_02d_digits (n : nat) : all_digits (format_02d n).
Proof.
  unfold format_02d.
  assert (Hd : all_digits (NilZero.string_of_uint (Nat.to_uint n))).
  { destruct (Nat.to_uint n) eqn:Hn; simpl;
      try (rewrite <- Hn); try apply string_of_uint_digits;
      try (split; [unfold is_digit; cbv; lia|]);
      try apply string_of_uint_digits. done. }
  destruct (_ <? 2); [|exact Hd].
  split; [unfold is_digit; cbv; lia|exact Hd].
Qed.

Lemma read_decimal_string_of_uint (d : Decimal.uint) :
  read_decimal (NilZero.string_of_uint d) = Some (Nat.of_uint d).
Proof.
  unfold read_decimal. destruct d; try reflexivity;
    change (NilZero.string_of_uint ?u) with (NilEmpty.string_of_uint u);
    by rewrite NilEmpty.usu.
Qed.

Lemma read_decimal_format_02d (n : nat) : read_decimal (format_02d n) = Some n.
Proof.
  unfold format_02d.
  pose proof (read_decimal_string_of_uint (Nat.to_uint n)) as Hread.
  rewrite DecimalNat.Unsigned.of_to in Hread.
  destruct (_ <? 2); [|exact Hread].
  unfold read_decimal in *.
  change (NilEmpty.uint_of_string (String.append "0" ?s))
    with (option_map Decimal.D0 (NilEmpty.uint_of_string s)).
  destruct (NilEmpty.uint_of_string _) as [u|]; [|discriminate].
  simpl in *. injection Hread as <-. reflexivity.
Qed.

Lemma format_02d_inj (m n : nat) : format_02d m = format_02d n -> m = n.
Proof.
  intros Heq. pose proof (read_decimal_format_02d m) as Hm.
  rewrite Heq, read_decimal_format_02d in Hm. by injection Hm.
Qed.

Lemma digits_then_underscore (s s' r r' : string) :
  all_digits s -> all_digits s' ->
  String.append s (String "_" r) = String.append s' (String "_" r') ->
  s = s' /\ r = r'.
Proof.
  revert s'. induction s as [|a s IH]; intros [|a' s'] Hs Hs' Heq.
  - by injection Heq.
  - injection Heq as <- _. destruct Hs' as [Hd _].
    unfold is_digit in Hd. cbv in Hd. lia.
  - injection Heq as -> _. destruct Hs as [Hd _].
    unfold is_digit in Hd. cbv in Hd. lia.
  - injection Heq as -> Heq. destruct Hs as [_ Hs]. destruct Hs' as [_ Hs'].
    destruct (IH s' Hs Hs' Heq) as [-> ->]. done.
Qed.

Lemma file_name_inj (i j : nat) (gate gate' : string) :
  gate ∈ gate_names -> gate' ∈ gate_names ->
  file_name i gate = file_name j gate' -> i = j /\ gate = gate'.
Proof.
  intros Hg Hg' Heq. unfold file_name in Heq.
  apply (inj (String.append "visualize/S")) in Heq.
  apply digits_then_underscore in Heq as [Hfmt Hrest];
    try apply format_02d_digits.
  split; [by apply format_02d_inj|].
  unfold gate_names in *. rewrite !elem_of_cons in Hg, Hg'.
  destruct Hg as [->|[->|[->|Hg]]]; [| | |by apply elem_of_nil in Hg];
    (destruct Hg' as [->|[->|[->|Hg']]]; [| | |by apply elem_of_nil in Hg']);
    first [reflexivity | discriminate Hrest].
Qed.

Lemma length_three_per_step {A : Type} (g : nat -> list A) (steps : list nat) :
  (forall step, length (g step) = 3) ->
  length (flat_map g steps) = 3 * length steps.
Proof.
  intros Hg. induction steps as [|step steps IH]; [done|].
  cbn [flat_map]. rewrite length_app, Hg, IH. simpl. lia.
Qed.

(** C4, amended.  On a text whose lines (the stripped text cut at its
    newlines) are not empty and are written in the vocabulary (of at most 82
    characters), the script runs to the end and saves, for every sequence in
    turn, three images: the files
    [visualize/S<index, two digits at least>_<gate>.png] of the gates
    [update_signals], [reset_signals] and [cell_state_candidates]; no two of
    these file names are equal, so every sequence has exactly one image for
    each gate. *)
Theorem one_heatmap_per_gate_and_sequence
  (checkpoint : Checkpoint) (file_text : list pychar) (entropy : Entropy) :
  let vocabulary := ckpt_vocabulary checkpoint in
  let dataset := VisualizeWarAndPeaceDataset.init vocabulary file_text in
  let n := VisualizeWarAndPeaceDataset.len dataset in
  replayable vocabulary (VisualizeWarAndPeaceDataset.data dataset) ->
  length vocabulary <= 82 ->
  exists figures : list Figure,
    war_and_peace_visualizer checkpoint file_text entropy
    = (figures, Ok tt) /\
    map path figures
    = flat_map
        (fun i =>
           [String.append "visualize/S"
              (String.append (format_02d i) "_update_signals.png");
            String.append "visualize/S"
              (String.append (format_02d i) "_reset_signals.png");
            String.append "visualize/S"
              (String.append (format_02d i) "_cell_state_candidates.png")])
        (seq 0 n) /\
    length figures = 3 * n /\
    forall (i j : nat) (gate gate' : string),
      gate ∈ gate_names -> gate' ∈ gate_names ->
      file_name i gate = file_name j gate' -> i = j /\ gate = gate'.
Proof.
  intros vocabulary dataset n Hlines Hsize.
  destruct (visualizer_total checkpoint file_text entropy Hlines Hsize)
    as (groups & Hrun & Hgroups).
  exists (concat groups).
  pose proof (sequence_figures_paths _ _ _ _ Hgroups) as Hpaths.
  split_and!.
  - exact Hrun.
  - exact Hpaths.
  - rewrite <- (length_map path), Hpaths.
    rewrite length_three_per_step by done.
    unfold n, VisualizeWarAndPeaceDataset.len. by rewrite length_seq.
  - apply file_name_inj.
Qed.

Lemma one_heatmap_per_gate_and_sequence_witness :
  exists figures : list Figure,
    war_and_peace_visualizer sample_checkpoint sample_text sample_entropy
    = (figures, Ok tt) /\
    map path figures
    = flat_map
        (fun i =>
           [String.append "visualize/S"
              (String.append (format_02d i) "_update_signals.png");
            String.append "visualize/S"
              (String.append (format_02d i) "_reset_signals.png");
            String.append "visualize/S"
              (String.append (format_02d i) "_cell_state_candidates.png")])
        (seq 0 2) /\
    length figures = 3 * 2 /\
    forall (i j : nat) (gate gate' : string),
      gate ∈ gate_names -> gate' ∈ gate_names ->
      file_name i gate = file_name j gate' -> i = j /\ gate = gate'.
Proof.
  apply (one_heatmap_per_gate_and_sequence sample_checkpoint sample_text
           sample_entropy).
  - unfold replayable. vm_compute. repeat constructor; discriminate.
  - simpl. lia.
Defined.

(** C7, amended.  On a text whose lines (the lines of the dataset: the
    stripped text cut at its newlines) are not empty and are written in the
    vocabulary (of at most 82 characters), the script makes one pass over
    the dataset: the figures it has written are, in the order of writing,
    the three figures of line 0, then those of line 1, and so on to the
    last line; the figures of line [i] carry the index [i] in their names
    and the characters of line [i] as labels. *)
Theorem single_pass_in_index_order
  (checkpoint : Checkpoint) (file_text : list pychar) (entropy : Entropy) :
  let vocabulary := ckpt_vocabulary checkpoint in
  let dataset := VisualizeWarAndPeaceDataset.init vocabulary file_text in
  let lines := VisualizeWarAndPeaceDataset.data dataset in
  replayable vocabulary lines ->
  length vocabulary <= 82 ->
  exists groups : list (list Figure),
    war_and_peace_visualizer checkpoint file_text entropy
    = (concat groups, Ok tt) /\
    length groups = length lines /\
    forall (i : nat) (line : list pychar),
      lines !! i = Some line ->
      exists update reset candidates : Figure,
        groups !! i = Some [update; reset; candidates] /\
        path update = file_name i "update_signals" /\
        path reset = file_name i "reset_signals" /\
        path candidates = file_name i "cell_state_candidates" /\
        xticklabels update = line /\ xticklabels reset = line /\
        xticklabels candidates = line.
Proof.
  intros vocabulary dataset lines Hlines Hsize.
  destruct (visualizer_total checkpoint file_text entropy Hlines Hsize)
    as (groups & Hrun & Hgroups).
  exists groups. split; [exact Hrun|].
  split.
  - apply Forall2_length in Hgroups. by rewrite length_seq in Hgroups.
  - intros i line Hline.
    assert (Hstep : seq 0 (length lines) !! i = Some i).
    { apply lookup_seq. split; [done|]. by eapply lookup_lt_Some. }
    destruct (Forall2_lookup_l _ _ _ _ _ Hgroups Hstep)
      as (figures & Hfigures & Hseq).
    destruct Hseq as (line' & indices & logits & signals & Hline' & _ & _ & _
                      & ->).
    unfold lines, dataset, vocabulary in *.
    rewrite Hline in Hline'. injection Hline' as <-.
    eexists _, _, _. split; [exact Hfigures|]. by split_and!.
Qed.

Lemma single_pass_in_index_order_witness :
  let lines := [[98; 97]; [97]]%N in
  exists groups : list (list Figure),
    war_and_peace_visualizer sample_checkpoint sample_text sample_entropy
    = (concat groups, Ok tt) /\
    length groups = length lines /\
    forall (i : nat) (line : list pychar),
      lines !! i = Some line ->
      exists update reset candidates : Figure,
        groups !! i = Some [update; reset; candidates] /\
        path update = file_name i "update_signals" /\
        path reset = file_name i "reset_signals" /\
        path candidates = file_name i "cell_state_candidates" /\
        xticklabels update = line /\ xticklabels reset = line /\
        xticklabels candidates = line.
Proof.
  apply (single_pass_in_index_order sample_checkpoint sample_text
           sample_entropy).
  - unfold replayable. vm_compute. repeat constructor; discriminate.
  - simpl. lia.
Defined.

(** ** The cell with weights that are all equal *)

Lemma map_constant_seq {A : Type} (a : A) (j n : nat) :
  map (fun _ : nat => a) (seq j n) = replicate n a.
Proof. revert j. induction n as [|n IH]; intros j; simpl; [done|]. by rewrite IH. Qed.

Lemma new_parameter_constant (m n : nat) (w : R) :
  new_parameter m n (fun _ _ => w) = replicate m (replicate n w).
Proof.
  unfold new_parameter. rewrite (map_constant_seq w 0 n).
  apply map_constant_seq.
Qed.

Lemma sum_of_products_constant (n : nat) (w xv : R) :
  foldr Rplus 0%R (zip_with Rmult (replicate n w) (replicate n xv))
  = (INR n * (w * xv))%R.
Proof.
  induction n as [|n IH]; [simpl; lra|].
  rewrite S_INR. cbn [replicate zip_with foldr]. rewrite IH. lra.
Qed.

Lemma sum_of_products_blocks (m n : nat) (w hv xv : R) :
  foldr Rplus 0%R
    (zip_with Rmult (replicate (m + n) w) (replicate m hv ++ replicate n xv))
  = preactivation m n w hv xv.
Proof.
  unfold preactivation. induction m as [|m IH].
  - simpl. rewrite sum_of_products_constant. lra.
  - rewrite S_INR. cbn [Nat.add replicate app zip_with foldr]. rewrite IH. lra.
Qed.

Section ConstantWeights.
Variables (m n : nat) (w hv cv xv : R).
Let W := replicate m (replicate (m + n) w).
Let x := replicate n xv.
Let h := replicate m hv.
Let c := replicate m cv.
Let a := preactivation m n w hv xv.

Lemma matvec_constant : Published.matvec W (h ++ x) = replicate m a.
Proof.
  unfold Published.matvec, W. rewrite fmap_replicate.
  unfold h, x. by rewrite sum_of_products_blocks.
Qed.

Lemma coupled_f_constant :
  Published.coupled_f W x h = replicate m (torch.sigmoid1 a).
Proof.
  unfold Published.coupled_f, Published.sigma.
  by rewrite matvec_constant, fmap_replicate.
Qed.

Lemma coupled_o_constant :
  Published.coupled_o W x h = replicate m (torch.sigmoid1 a).
Proof.
  unfold Published.coupled_o, Published.sigma.
  by rewrite matvec_constant, fmap_replicate.
Qed.

Lemma coupled_c_tilde_constant :
  Published.coupled_c_tilde W x h = replicate m (Rtrigo_def.tanh a).
Proof.
  unfold Published.coupled_c_tilde, Published.vtanh.
  by rewrite matvec_constant, fmap_replicate.
Qed.

Lemma coupled_next_c_constant :
  Published.coupled_next_c W W x h c
  = replicate m (torch.sigmoid1 a * cv
                 + (1 - torch.sigmoid1 a) * Rtrigo_def.tanh a)%R.
Proof.
  unfold Published.coupled_next_c.
  rewrite coupled_f_constant, coupled_c_tilde_constant.
  unfold Published.vadd, Published.hadamard, Published.one_minus, c.
  by rewrite fmap_replicate, !zip_with_replicate.
Qed.

Lemma coupled_next_h_constant :
  Published.coupled_next_h W W W x h c
  = replicate m
      (torch.sigmoid1 a
       * Rtrigo_def.tanh (torch.sigmoid1 a * cv
                          + (1 - torch.sigmoid1 a) * Rtrigo_def.tanh a))%R.
Proof.
  unfold Published.coupled_next_h.
  rewrite coupled_o_constant, coupled_next_c_constant.
  unfold Published.hadamard, Published.vtanh.
  by rewrite fmap_replicate, zip_with_replicate.
Qed.

End ConstantWeights.

(** ** The model whose draws are all equal, on one sequence *)

Lemma single_row (t : Tensor) (n : nat) (row : list R) :
  has_shape t 1 n -> t !! 0 = Some row -> t = [row].
Proof.
  intros [Hlen _] Hrow. destruct t as [|r [|r' t]]; try discriminate Hlen.
  by injection Hrow as ->.
Qed.

Lemma single_row_signals (signals : list GateSignals)
  (published : list (list R * list R * list R)) (n : nat) :
  Forall (fun g : GateSignals =>
            has_shape g.1.1 1 n /\ has_shape g.1.2 1 n /\ has_shape g.2 1 n)
    signals ->
  map (fun g : GateSignals => (g.1.1 !! 0, g.1.2 !! 0, g.2 !! 0)) signals
  = map (fun s => (Some s.1.1, Some s.1.2, Some s.2)) published ->
  signals = map (fun s => ([s.1.1], [s.1.2], [s.2])) published.
Proof.
  intros Hshapes. revert published.
  induction Hshapes as [|[[gf go] gc] signals (Hf & Ho & Hc) _ IH];
    intros [|[[sf so] sc] published] Heq; try discriminate Heq; [done|].
  simpl in *. injection Heq as Hgf Hgo Hgc Heq.
  rewrite (single_row gf n sf Hf Hgf), (single_row go n so Ho Hgo),
    (single_row gc n sc Hc Hgc), (IH published Heq). done.
Qed.

Lemma forward_single_row (self : VisualizeInternalGates.t)
  (indices : list nat) :
  let cell := VisualizeInternalGates.rnn_model self in
  checkpoint_architecture self ->
  indices <> [] ->
  Forall (fun i => i < CKPT_VOCABULARY_SIZE) indices ->
  exists logits : Tensor,
    VisualizeInternalGates.forward self (batch_of indices)
    = Ok (logits,
          outputs_of
            (map (fun s => ([s.1.1], [s.1.2], [s.2]))
               (Published.coupled_signals
                  (VisualizeCoupledLSTMCell.W_f cell)
                  (VisualizeCoupledLSTMCell.W_o cell)
                  (VisualizeCoupledLSTMCell.W_c cell)
                  (embedded self indices)
                  (replicate CKPT_HIDDEN_SIZE 0%R)
                  (replicate CKPT_HIDDEN_SIZE 0%R)))).
Proof.
  intros cell Harch Hne Hrange.
  destruct (forward_rows self (batch_of indices) Harch)
    as (logits & signals & Hrun & _ & _ & Hshapes & Hrows).
  - split; [reflexivity|]. by repeat constructor.
  - destruct indices; [done|reflexivity].
  - by repeat constructor.
  - destruct indices; [done|]. simpl. lia.
  - exists logits. rewrite Hrun. do 3 f_equal.
    apply (single_row_signals _ _ CKPT_HIDDEN_SIZE Hshapes).
    apply (Hrows 0 indices). reflexivity.
Qed.

Section ConstantModel.
Variable w : R.
Let model := VisualizeInternalGates.init (constant_entropy w).
Let cell := VisualizeInternalGates.rnn_model model.
Let W := replicate CKPT_HIDDEN_SIZE
           (replicate (CKPT_HIDDEN_SIZE + CKPT_EMBEDDING_DIM) w).

Lemma constant_W_f : VisualizeCoupledLSTMCell.W_f cell = W.
Proof.
  exact (new_parameter_constant CKPT_HIDDEN_SIZE
           (CKPT_HIDDEN_SIZE + CKPT_EMBEDDING_DIM) w).
Qed.

Lemma constant_W_o : VisualizeCoupledLSTMCell.W_o cell = W.
Proof.
  exact (new_parameter_constant CKPT_HIDDEN_SIZE
           (CKPT_HIDDEN_SIZE + CKPT_EMBEDDING_DIM) w).
Qed.

Lemma constant_W_c : VisualizeCoupledLSTMCell.W_c cell = W.
Proof.
  exact (new_parameter_constant CKPT_HIDDEN_SIZE
           (CKPT_HIDDEN_SIZE + CKPT_EMBEDDING_DIM) w).
Qed.

Lemma constant_embedding (indices : list nat) :
  Forall (fun i => 1 <= i < CKPT_VOCABULARY_SIZE) indices ->
  embedded model indices
  = map (fun _ => replicate CKPT_EMBEDDING_DIM w) indices.
Proof.
  intros Hrange. unfold embedded. apply map_ext_Forall.
  eapply Forall_impl; [exact Hrange|]. intros i Hi. simpl in Hi.
  change (Embedding.weight (VisualizeInternalGates.embedding model))
    with (<[PADDING_TOKEN := replicate CKPT_EMBEDDING_DIM 0%R]>
            (new_parameter CKPT_VOCABULARY_SIZE CKPT_EMBEDDING_DIM
               (fun _ _ => w))).
  rewrite new_parameter_constant, nth_lookup.
  rewrite list_lookup_insert_ne by (unfold PADDING_TOKEN; lia).
  rewrite lookup_replicate_2 by lia. done.
Qed.

End ConstantModel.

(** ** Monotonicity of the activation functions *)

Lemma sigmoid1_inj (a b : R) : torch.sigmoid1 a = torch.sigmoid1 b -> a = b.
Proof.
  unfold torch.sigmoid1, Rdiv. rewrite !Rmult_1_l. intros Heq.
  apply Rinv_eq_reg in Heq.
  assert (Hexp : exp (- a) = exp (- b)) by lra.
  apply exp_inv in Hexp. lra.
Qed.

Lemma sigmoid1_above_half (a : R) : (0 < a)%R -> (1 / 2 < torch.sigmoid1 a)%R.
Proof.
  intros Ha. unfold torch.sigmoid1, Rdiv. rewrite !Rmult_1_l.
  pose proof (exp_pos (- a)) as Hpos.
  assert (Hlt : (exp (- a) < 1)%R).
  { rewrite <- exp_0. apply exp_increasing. lra. }
  apply Rinv_lt_contravar; lra.
Qed.

Lemma fraction_lt (p q r s : R) :
  (0 < q)%R -> (0 < s)%R -> (p * s < r * q)%R -> (p / q < r / s)%R.
Proof.
  intros Hq Hs Hlt.
  replace (p / q)%R with (p * s * / (q * s))%R by (field; lra).
  replace (r / s)%R with (r * q * / (q * s))%R by (field; lra).
  apply Rmult_lt_compat_r; [|exact Hlt].
  apply Rinv_0_lt_compat. by apply Rmult_lt_0_compat.
Qed.

Lemma tanh_increasing (x y : R) :
  (x < y)%R -> (Rtrigo_def.tanh x < Rtrigo_def.tanh y)%R.
Proof.
  intros Hxy. unfold Rtrigo_def.tanh, sinh, cosh.
  pose proof (exp_pos x) as Ha. pose proof (exp_pos (- x)) as Hb.
  pose proof (exp_pos y) as Hc. pose proof (exp_pos (- y)) as Hd.
  assert (Hcross : (exp x * exp (- y) < exp y * exp (- x))%R).
  { rewrite <- !exp_plus. apply exp_increasing. lra. }
  apply fraction_lt; lra.
Qed.

Lemma tanh_inj (x y : R) : Rtrigo_def.tanh x = Rtrigo_def.tanh y -> x = y.
Proof.
  intros Heq. destruct (Rtotal_order x y) as [Hlt|[Heq'|Hgt]]; [|done|].
  - apply tanh_increasing in Hlt. lra.
  - apply tanh_increasing in Hgt. lra.
Qed.

Lemma tanh_zero : Rtrigo_def.tanh 0 = 0%R.
Proof. unfold Rtrigo_def.tanh. rewrite sinh_0, cosh_0. lra. Qed.

Lemma tanh_positive (x : R) : (0 < x)%R -> (0 < Rtrigo_def.tanh x)%R.
Proof. intros Hx. rewrite <- tanh_zero. by apply tanh_increasing. Qed.

Lemma replicate_head_eq {A : Type} (n : nat) (a b : A) :
  0 < n -> replicate n a = replicate n b -> a = b.
Proof. intros Hn Heq. destruct n; [lia|]. by injection Heq. Qed.

(** ** The sample model on one and on two tokens *)

Lemma first_preactivation_positive : (0 < first_preactivation (1 / 16))%R.
Proof.
  unfold first_preactivation, preactivation.
  assert (Hn : (0 < INR CKPT_EMBEDDING_DIM)%R)
    by (apply lt_0_INR; unfold CKPT_EMBEDDING_DIM; lia).
  nra.
Qed.

Lemma first_hidden_state_positive : (0 < first_hidden_state (1 / 16))%R.
Proof.
  unfold first_hidden_state, first_cell_state.
  pose proof first_preactivation_positive as Ha.
  pose proof (sigmoid1_range (first_preactivation (1 / 16))) as Hf.
  pose proof (tanh_positive _ Ha) as Hct.
  apply Rmult_lt_0_compat; [lra|]. apply tanh_positive. nra.
Qed.

Lemma coupled_forward_from_None (cell : VisualizeCoupledLSTMCell.t)
  (x : Tensor) :
  VisualizeCoupledLSTMCell.forward cell x None
  = VisualizeCoupledLSTMCell.forward cell x
      (Some (torch.zeros (length x) (VisualizeCoupledLSTMCell.hidden_size cell),
             torch.zeros (length x) (VisualizeCoupledLSTMCell.hidden_size cell))).
Proof. reflexivity. Qed.

Lemma coupled_forward_single (cell : VisualizeCoupledLSTMCell.t)
  (x h c : list R) :
  let W_f := VisualizeCoupledLSTMCell.W_f cell in
  let W_o := VisualizeCoupledLSTMCell.W_o cell in
  let W_c := VisualizeCoupledLSTMCell.W_c cell in
  coupled_cell_wf cell ->
  length x = VisualizeCoupledLSTMCell.input_size cell ->
  length h = VisualizeCoupledLSTMCell.hidden_size cell ->
  length c = VisualizeCoupledLSTMCell.hidden_size cell ->
  VisualizeCoupledLSTMCell.forward cell [x] (Some ([h], [c]))
  = Ok ([Published.coupled_next_h W_f W_o W_c x h c],
        [Published.coupled_next_c W_f W_c x h c],
        ([Published.coupled_f W_f x h], [Published.coupled_o W_o x h],
         [Published.coupled_c_tilde W_c x h])).
Proof.
  intros W_f W_o W_c (HWf & HWc & HWo) Hx Hh Hc.
  destruct (coupled_forward_rows cell HWf HWc HWo [x] [h] [c] 1)
    as (nh & nc & f & o & ct & Hrun & Hnh & Hnc & Hf & Ho & Hct & Hrows);
    try (split; [reflexivity|by repeat constructor]).
  specialize (Hrows 0 x h c eq_refl eq_refl eq_refl).
  injection Hrows as Hnh0 Hnc0 Hf0 Ho0 Hct0.
  rewrite Hrun.
  rewrite (single_row nh _ _ Hnh Hnh0), (single_row nc _ _ Hnc Hnc0),
    (single_row f _ _ Hf Hf0), (single_row o _ _ Ho Ho0),
    (single_row ct _ _ Hct Hct0).
  reflexivity.
Qed.

Section SampleModel.
Variable w : R.
Let model := VisualizeInternalGates.init (constant_entropy w).
Let cell := VisualizeInternalGates.rnn_model model.
Let W := replicate CKPT_HIDDEN_SIZE
           (replicate (CKPT_HIDDEN_SIZE + CKPT_EMBEDDING_DIM) w).
Let x := replicate CKPT_EMBEDDING_DIM w.
Let zero := replicate CKPT_HIDDEN_SIZE 0%R.
Let f1 := torch.sigmoid1 (first_preactivation w).
Let k1 := Rtrigo_def.tanh (first_preactivation w).
Let f2 := torch.sigmoid1 (second_preactivation w).
Let k2 := Rtrigo_def.tanh (second_preactivation w).

Lemma published_two_steps :
  Published.coupled_signals W W W [x; x] zero zero
  = [(replicate CKPT_HIDDEN_SIZE f1, replicate CKPT_HIDDEN_SIZE f1,
      replicate CKPT_HIDDEN_SIZE k1);
     (replicate CKPT_HIDDEN_SIZE f2, replicate CKPT_HIDDEN_SIZE f2,
      replicate CKPT_HIDDEN_SIZE k2)].
Proof.
  cbn [Published.coupled_signals]. unfold W, x, zero.
  rewrite !coupled_next_h_constant.
  rewrite ?coupled_f_constant, ?coupled_o_constant,
    ?coupled_c_tilde_constant.
  reflexivity.
Qed.

Lemma published_one_step :
  Published.coupled_signals W W W [x] zero zero
  = [(replicate CKPT_HIDDEN_SIZE f1, replicate CKPT_HIDDEN_SIZE f1,
      replicate CKPT_HIDDEN_SIZE k1)].
Proof.
  cbn [Published.coupled_signals]. unfold W, x, zero.
  rewrite ?coupled_f_constant, ?coupled_o_constant,
    ?coupled_c_tilde_constant.
  reflexivity.
Qed.

Lemma forward_two_tokens :
  exists logits : Tensor,
    VisualizeInternalGates.forward model two_tokens
    = Ok (logits,
          outputs_of
            [([replicate CKPT_HIDDEN_SIZE f1],
              [replicate CKPT_HIDDEN_SIZE f1],
              [replicate CKPT_HIDDEN_SIZE k1]);
             ([replicate CKPT_HIDDEN_SIZE f2],
              [replicate CKPT_HIDDEN_SIZE f2],
              [replicate CKPT_HIDDEN_SIZE k2])]).
Proof.
  destruct (forward_single_row model [1; 1])
    as (logits & Hrun).
  - apply init_architecture.
  - done.
  - repeat constructor.
  - exists logits. change two_tokens with (batch_of [1; 1]).
    rewrite Hrun.
    unfold model.
    rewrite (constant_W_f w), (constant_W_o w), (constant_W_c w).
    rewrite (constant_embedding w [1; 1])
      by (repeat constructor; unfold CKPT_VOCABULARY_SIZE; lia).
    cbn [map]. fold W x zero. rewrite published_two_steps. reflexivity.
Qed.

Lemma forward_one_token :
  exists logits : Tensor,
    VisualizeInternalGates.forward model one_token
    = Ok (logits,
          outputs_of
            [([replicate CKPT_HIDDEN_SIZE f1],
              [replicate CKPT_HIDDEN_SIZE f1],
              [replicate CKPT_HIDDEN_SIZE k1])]).
Proof.
  destruct (forward_single_row model [1])
    as (logits & Hrun).
  - apply init_architecture.
  - done.
  - repeat constructor.
  - exists logits. change one_token with (batch_of [1]).
    rewrite Hrun.
    unfold model.
    rewrite (constant_W_f w), (constant_W_o w), (constant_W_c w).
    rewrite (constant_embedding w [1])
      by (repeat constructor; unfold CKPT_VOCABULARY_SIZE; lia).
    cbn [map]. fold W x zero. rewrite published_one_step. reflexivity.
Qed.

Lemma cell_first_step :
  VisualizeCoupledLSTMCell.forward cell [x] None
  = Ok ([replicate CKPT_HIDDEN_SIZE (first_hidden_state w)],
        [replicate CKPT_HIDDEN_SIZE (first_cell_state w)],
        ([replicate CKPT_HIDDEN_SIZE f1], [replicate CKPT_HIDDEN_SIZE f1],
         [replicate CKPT_HIDDEN_SIZE k1])).
Proof.
  rewrite coupled_forward_from_None.
  change (torch.zeros (length [x]) (VisualizeCoupledLSTMCell.hidden_size cell))
    with [zero].
  rewrite coupled_forward_single.
  - unfold cell, model.
    rewrite (constant_W_f w), (constant_W_o w), (constant_W_c w).
    fold W. unfold W, x, zero.
    rewrite ?coupled_next_h_constant, ?coupled_next_c_constant,
      ?coupled_f_constant, ?coupled_o_constant, ?coupled_c_tilde_constant.
    reflexivity.
  - destruct (init_architecture (constant_entropy w))
      as (_ & _ & _ & Hcell & _). exact Hcell.
  - apply length_replicate.
  - apply length_replicate.
  - apply length_replicate.
Qed.

Lemma cell_second_step :
  exists h2 c2 : list R,
    VisualizeCoupledLSTMCell.forward cell [x]
      (Some ([replicate CKPT_HIDDEN_SIZE (first_hidden_state w)],
             [replicate CKPT_HIDDEN_SIZE (first_cell_state w)]))
    = Ok ([h2], [c2],
          ([replicate CKPT_HIDDEN_SIZE f2], [replicate CKPT_HIDDEN_SIZE f2],
           [replicate CKPT_HIDDEN_SIZE k2])).
Proof.
  eexists _, _. rewrite coupled_forward_single.
  - unfold cell, model.
    rewrite (constant_W_f w), (constant_W_o w), (constant_W_c w).
    fold W. unfold W, x.
    rewrite ?coupled_f_constant, ?coupled_o_constant,
      ?coupled_c_tilde_constant.
    reflexivity.
  - destruct (init_architecture (constant_entropy w))
      as (_ & _ & _ & Hcell & _). exact Hcell.
  - apply length_replicate.
  - apply length_replicate.
  - apply length_replicate.
Qed.

End SampleModel.

(** ** What the three keys hold *)

(** C2, amended.  On every batch with at least one step, the dictionary that
    [forward] returns holds, for every sample, under ['update_signals'] the
    forget gate [f] of every step of the coupled cell, under
    ['reset_signals'] its output gate [o], and under
    ['cell_state_candidates'] its candidate [c_tilde], the recurrence being
    started from the zero state. *)
Theorem gate_keys_hold_forget_output_candidate
  (e : Entropy) (t : IndexTensor) :
  let model := VisualizeInternalGates.init e in
  let cell := VisualizeInternalGates.rnn_model model in
  let W_f := VisualizeCoupledLSTMCell.W_f cell in
  let W_o := VisualizeCoupledLSTMCell.W_o cell in
  let W_c := VisualizeCoupledLSTMCell.W_c cell in
  index_tensor_wf t -> tensor_dtype t = int64 ->
  Forall (Forall (fun i => i < 82)) (entries t) ->
  1 <= shape1 t ->
  exists (logits : Tensor) (outputs : gmap string (list Tensor))
         (update reset candidates : list Tensor),
    VisualizeInternalGates.forward model t = Ok (logits, outputs) /\
    outputs !! "update_signals" = Some update /\
    outputs !! "reset_signals" = Some reset /\
    outputs !! "cell_state_candidates" = Some candidates /\
    forall (b : nat) (indices : list nat),
      entries t !! b = Some indices ->
      let published :=
        Published.coupled_signals W_f W_o W_c (embedded model indices)
          (replicate 128 0%R) (replicate 128 0%R) in
      map (fun f : Tensor => f !! b) update
      = map (fun s => Some s.1.1) published /\
      map (fun o : Tensor => o !! b) reset
      = map (fun s => Some s.1.2) published /\
      map (fun k : Tensor => k !! b) candidates
      = map (fun s => Some s.2) published.
Proof.
  intros model cell W_f W_o W_c Hwf Hdtype Hrange Hsteps.
  destruct (forward_rows model t (init_architecture e) Hwf Hdtype Hrange
              Hsteps)
    as (logits & signals & Hrun & _ & _ & _ & Hrows).
  exists logits, (outputs_of signals), (map (fun g => g.1.1) signals),
    (map (fun g => g.1.2) signals), (map (fun g => g.2) signals).
  split_and!; try done.
  intros b indices Hb published. specialize (Hrows b indices Hb).
  fold model cell W_f W_o W_c in Hrows.
  change (replicate CKPT_HIDDEN_SIZE 0%R) with (replicate 128 0%R) in Hrows.
  fold published in Hrows. clearbody published.
  rewrite !map_map. split_and!.
  - apply (f_equal (map (fun p : option (list R) * option (list R)
                                 * option (list R) => p.1.1))) in Hrows.
    by rewrite !map_map in Hrows.
  - apply (f_equal (map (fun p : option (list R) * option (list R)
                                 * option (list R) => p.1.2))) in Hrows.
    by rewrite !map_map in Hrows.
  - apply (f_equal (map (fun p : option (list R) * option (list R)
                                 * option (list R) => p.2))) in Hrows.
    by rewrite !map_map in Hrows.
Qed.

Lemma gate_keys_hold_forget_output_candidate_witness :
  let model := VisualizeInternalGates.init sample_entropy in
  let cell := VisualizeInternalGates.rnn_model model in
  let W_f := VisualizeCoupledLSTMCell.W_f cell in
  let W_o := VisualizeCoupledLSTMCell.W_o cell in
  let W_c := VisualizeCoupledLSTMCell.W_c cell in
  exists (logits : Tensor) (outputs : gmap string (list Tensor))
         (update reset candidates : list Tensor),
    VisualizeInternalGates.forward model two_tokens = Ok (logits, outputs) /\
    outputs !! "update_signals" = Some update /\
    outputs !! "reset_signals" = Some reset /\
    outputs !! "cell_state_candidates" = Some candidates /\
    forall (b : nat) (indices : list nat),
      entries two_tokens !! b = Some indices ->
      let published :=
        Published.coupled_signals W_f W_o W_c (embedded model indices)
          (replicate 128 0%R) (replicate 128 0%R) in
      map (fun f : Tensor => f !! b) update
      = map (fun s => Some s.1.1) published /\
      map (fun o : Tensor => o !! b) reset
      = map (fun s => Some s.1.2) published /\
      map (fun k : Tensor => k !! b) candidates
      = map (fun s => Some s.2) published.
Proof.
  apply (gate_keys_hold_forget_output_candidate sample_entropy two_tokens).
  - split; [reflexivity|]. repeat constructor.
  - reflexivity.
  - repeat constructor.
  - simpl. lia.
Defined.

(** C2, as stated, fails.  On the sample model and a sequence of two tokens,
    the signal kept under ['update_signals'] at the first step does not gate
    the update of the cell state the way an update gate does (it is the
    forget gate: it multiplies the previous state, not the candidate), and
    the signal kept under ['reset_signals'] at the second step does not gate
    the previous hidden state in the candidate the way a reset gate does (it
    is the output gate). *)
Lemma gate_keys_are_not_update_and_reset_gates :
  let model := VisualizeInternalGates.init sample_entropy in
  let cell := VisualizeInternalGates.rnn_model model in
  let x := replicate 256 (1 / 16)%R in
  exists (logits : Tensor) (outputs : gmap string (list Tensor))
         (u1 r1 k1 u2 r2 k2 h1 c1 h2 c2 : list R),
    VisualizeInternalGates.forward model two_tokens = Ok (logits, outputs) /\
    outputs !! "update_signals" = Some [[u1]; [u2]] /\
    outputs !! "reset_signals" = Some [[r1]; [r2]] /\
    outputs !! "cell_state_candidates" = Some [[k1]; [k2]] /\
    embedded model [1; 1] = [x; x] /\
    VisualizeCoupledLSTMCell.forward cell [x] None
    = Ok ([h1], [c1], ([u1], [r1], [k1])) /\
    VisualizeCoupledLSTMCell.forward cell [x] (Some ([h1], [c1]))
    = Ok ([h2], [c2], ([u2], [r2], [k2])) /\
    ~ acts_as_update_gate u1 (replicate 128 0%R) k1 c1 /\
    ~ acts_as_reset_gate (VisualizeCoupledLSTMCell.W_c cell) r2 h1 x k2.
Proof.
  intros model cell x.
  destruct (forward_two_tokens (1 / 16)) as (logits & Hrun).
  destruct (cell_second_step (1 / 16)) as (h2 & c2 & Hsecond).
  pose proof (cell_first_step (1 / 16)) as Hfirst.
  pose proof first_preactivation_positive as Ha1.
  pose proof first_hidden_state_positive as Hh1.
  set (a1 := first_preactivation (1 / 16)) in *.
  set (a2 := second_preactivation (1 / 16)) in *.
  set (h1v := first_hidden_state (1 / 16)) in *.
  exists logits, (outputs_of
              [([replicate CKPT_HIDDEN_SIZE (torch.sigmoid1 a1)],
                [replicate CKPT_HIDDEN_SIZE (torch.sigmoid1 a1)],
                [replicate CKPT_HIDDEN_SIZE (Rtrigo_def.tanh a1)]);
               ([replicate CKPT_HIDDEN_SIZE (torch.sigmoid1 a2)],
                [replicate CKPT_HIDDEN_SIZE (torch.sigmoid1 a2)],
                [replicate CKPT_HIDDEN_SIZE (Rtrigo_def.tanh a2)])]),
    (replicate CKPT_HIDDEN_SIZE (torch.sigmoid1 a1)),
    (replicate CKPT_HIDDEN_SIZE (torch.sigmoid1 a1)),
    (replicate CKPT_HIDDEN_SIZE (Rtrigo_def.tanh a1)),
    (replicate CKPT_HIDDEN_SIZE (torch.sigmoid1 a2)),
    (replicate CKPT_HIDDEN_SIZE (torch.sigmoid1 a2)),
    (replicate CKPT_HIDDEN_SIZE (Rtrigo_def.tanh a2)),
    (replicate CKPT_HIDDEN_SIZE h1v),
    (replicate CKPT_HIDDEN_SIZE (first_cell_state (1 / 16))), h2, c2.
  split; [exact Hrun|].
  split; [reflexivity|]. split; [reflexivity|]. split; [reflexivity|].
  split.
  { apply (constant_embedding (1 / 16) [1; 1]).
    repeat constructor; unfold CKPT_VOCABULARY_SIZE; lia. }
  split; [exact Hfirst|]. split; [exact Hsecond|]. split.
  - unfold acts_as_update_gate, Published.vadd, Published.hadamard,
      Published.one_minus.
    change (replicate 128 0%R) with (replicate CKPT_HIDDEN_SIZE 0%R).
    rewrite fmap_replicate, !zip_with_replicate. intros Heq.
    apply replicate_head_eq in Heq; [|unfold CKPT_HIDDEN_SIZE; lia].
    unfold first_cell_state in Heq. fold a1 in Heq.
    pose proof (sigmoid1_above_half a1 Ha1) as Hf.
    pose proof (tanh_positive a1 Ha1) as Hk. nra.
  - unfold acts_as_reset_gate. unfold cell, model, sample_entropy.
    rewrite (constant_W_c (1 / 16)).
    unfold Published.hadamard. rewrite zip_with_replicate.
    change x with (replicate CKPT_EMBEDDING_DIM (1 / 16)%R).
    rewrite matvec_constant. unfold Published.vtanh.
    rewrite fmap_replicate. intros Heq.
    apply replicate_head_eq in Heq; [|unfold CKPT_HIDDEN_SIZE; lia].
    apply tanh_inj in Heq. unfold a2, second_preactivation in Heq.
    fold h1v in Heq. unfold preactivation in Heq.
    pose proof (sigmoid1_range
                  (INR CKPT_HIDDEN_SIZE * (1 / 16 * h1v)
                   + INR CKPT_EMBEDDING_DIM * (1 / 16 * (1 / 16)))%R) as Hf2.
    assert (Hn : (0 < INR CKPT_HIDDEN_SIZE)%R)
      by (apply lt_0_INR; unfold CKPT_HIDDEN_SIZE; lia).
    assert (Hnh : (0 < INR CKPT_HIDDEN_SIZE * h1v)%R)
      by (apply Rmult_lt_0_compat; lra).
    nra.
Qed.

(** ** The weights that the replay uses *)

Lemma sample_line_count :
  VisualizeWarAndPeaceDataset.len
    (VisualizeWarAndPeaceDataset.init sample_vocabulary [98%N]) = 1.
Proof. vm_compute. reflexivity. Qed.

Lemma sample_line_fetch :
  DataLoader_fetch
    (VisualizeWarAndPeaceDataset.init sample_vocabulary [98%N]) 0
  = Ok (one_token, [(-1)%Z]).
Proof. vm_compute. reflexivity. Qed.

Lemma sample_line_chars :
  VisualizeWarAndPeaceDataset.convert_to_chars
    (VisualizeWarAndPeaceDataset.init sample_vocabulary [98%N])
    (OfTensor one_token)
  = Ok [98%N].
Proof. vm_compute. reflexivity. Qed.

Lemma replay_one_line (w : R) :
  let model := VisualizeInternalGates.init (constant_entropy w) in
  replay model sample_vocabulary [98%N]
  = (three_figures 0 [98%N]
       [([replicate CKPT_HIDDEN_SIZE
            (torch.sigmoid1 (first_preactivation w))],
         [replicate CKPT_HIDDEN_SIZE
            (torch.sigmoid1 (first_preactivation w))],
         [replicate CKPT_HIDDEN_SIZE
            (Rtrigo_def.tanh (first_preactivation w))])],
     Ok tt).
Proof.
  intros model. destruct (forward_one_token w) as (logits & Hrun).
  unfold replay. rewrite sample_line_count.
  cbn [seq batches_loop]. rewrite sample_line_fetch.
  unfold model. rewrite Hrun.
  rewrite (gates_loop_total _ 0 one_token [98%N] _ 1 CKPT_HIDDEN_SIZE []).
  - reflexivity.
  - exact sample_line_chars.
  - done.
  - constructor; [|constructor]. cbn [fst snd].
    split_and!; (split; [reflexivity|]); constructor; try constructor;
      apply length_replicate.
Qed.

Lemma first_cell_three_figures (step : nat) (line : list pychar)
  (f o k : R) :
  first_cell
    (three_figures step line
       [([replicate CKPT_HIDDEN_SIZE f], [replicate CKPT_HIDDEN_SIZE o],
         [replicate CKPT_HIDDEN_SIZE k])],
     Ok tt)
  = f.
Proof. reflexivity. Qed.

Lemma visualizer_is_replay (checkpoint : Checkpoint)
  (file_text : list pychar) (e : Entropy) :
  war_and_peace_visualizer checkpoint file_text e
  = replay (VisualizeInternalGates.init e) (ckpt_vocabulary checkpoint)
      file_text.
Proof. reflexivity. Qed.

(** C1 fails on the code.  The script never hands the weights of the
    checkpoint to the model: what it writes is the replay of the freshly
    constructed model, whatever the checkpoint's weights are.  On the sample
    checkpoint (all weights 1/32), the one-line text [b] and a constructor
    whose draws are all 1/16, the first cell of the first heatmap is the gate
    computed from the draws, and differs from the one computed from the
    checkpoint's weights. *)
Theorem replay_runs_on_fresh_weights :
  (forall (checkpoint : Checkpoint) (file_text : list pychar) (e : Entropy),
      war_and_peace_visualizer checkpoint file_text e
      = replay (VisualizeInternalGates.init e) (ckpt_vocabulary checkpoint)
          file_text) /\
  (forall (vocabulary : list pychar)
          (weights weights' : VisualizeInternalGates.t)
          (file_text : list pychar) (e : Entropy),
      war_and_peace_visualizer
        {| ckpt_vocabulary := vocabulary; ckpt_weights := weights |}
        file_text e
      = war_and_peace_visualizer
          {| ckpt_vocabulary := vocabulary; ckpt_weights := weights' |}
          file_text e) /\
  let run :=
    war_and_peace_visualizer sample_checkpoint [98%N] sample_entropy in
  let intended :=
    replay (ckpt_weights sample_checkpoint)
      (ckpt_vocabulary sample_checkpoint) [98%N] in
  first_cell run = torch.sigmoid1 (first_preactivation (1 / 16)) /\
  first_cell intended = torch.sigmoid1 (first_preactivation (1 / 32)) /\
  first_cell run <> first_cell intended /\
  run <> intended.
Proof.
  split; [exact visualizer_is_replay|].
  split; [intros; by rewrite !visualizer_is_replay|].
  intros run intended.
  assert (Hrun : first_cell run = torch.sigmoid1 (first_preactivation (1 / 16))).
  { unfold run. rewrite visualizer_is_replay.
    unfold sample_entropy, sample_checkpoint. cbn [ckpt_vocabulary].
    rewrite replay_one_line. apply first_cell_three_figures. }
  assert (Hint : first_cell intended
                 = torch.sigmoid1 (first_preactivation (1 / 32))).
  { unfold intended, sample_checkpoint. cbn [ckpt_vocabulary ckpt_weights].
    rewrite replay_one_line. apply first_cell_three_figures. }
  assert (Hne : first_cell run <> first_cell intended).
  { rewrite Hrun, Hint. intros Heq. apply sigmoid1_inj in Heq.
    unfold first_preactivation, preactivation in Heq.
    assert (Hn : (0 < INR CKPT_EMBEDDING_DIM)%R)
      by (apply lt_0_INR; unfold CKPT_EMBEDDING_DIM; lia).
    nra. }
  clearbody run intended.
  split; [exact Hrun|]. split; [exact Hint|]. split; [exact Hne|].
  intros Heq. apply Hne. rewrite Heq. reflexivity.
Qed.

(** ** The order of the files on every run *)

Lemma visualize_internals_path (step : nat) (line : list pychar)
  (gate : string) (states : list Tensor) (figure : Figure) :
  visualize_internals step line gate states "visualize/" = Ok figure ->
  path figure = file_name step gate.
Proof.
  unfold visualize_internals. destruct (torch.cat_dim0 states) as [t|e];
    [|discriminate].
  unfold bind at 1. cbv beta iota.
  destruct (decide (gate ∈ ["update_signals"; "reset_signals"])) as [Hin|Hout].
  - rewrite bool_decide_eq_true_2 by done.
    unfold bind. intros [= <-]. cbn [path].
    rewrite !elem_of_cons in Hin.
    destruct Hin as [->|[->|Hnil]]; [| |by apply elem_of_nil in Hnil].
    + exact (saved_path step "update_signals" eq_refl).
    + exact (saved_path step "reset_signals" eq_refl).
  - rewrite bool_decide_eq_false_2 by done.
    destruct (decide (gate = "cell_state_candidates")) as [->|Hne].
    + unfold bind. intros [= <-]. cbn [path].
      exact (saved_path step "cell_state_candidates" eq_refl).
    + rewrite bool_decide_eq_false_2 by done. discriminate.
Qed.

Lemma gates_loop_paths (dataset : VisualizeWarAndPeaceDataset.t) (step : nat)
  (t : IndexTensor) (outputs : gmap string (list Tensor))
  (gates : list string) (saved : list Figure) :
  exists k : nat,
    map path (gates_loop dataset step t outputs gates saved).1
    = map path saved ++ map (file_name step) (take k gates) /\
    ((gates_loop dataset step t outputs gates saved).2 = Ok tt ->
     take k gates = gates).
Proof.
  revert saved. induction gates as [|gate gates IH]; intros saved.
  - exists 0. simpl. by rewrite app_nil_r.
  - cbn [gates_loop].
    destruct (let* chars := _ in _) as [figure|e] eqn:Hdrawn.
    + destruct (IH (saved ++ [figure])) as (k & Hpaths & Hdone).
      exists (S k). split.
      * rewrite Hpaths, map_app, <- app_assoc. cbn [take map app].
        do 2 f_equal.
        destruct (VisualizeWarAndPeaceDataset.convert_to_chars _ _)
          as [chars|]; [|discriminate].
        unfold bind at 1 in Hdrawn.
        destruct (dict_get outputs gate) as [states|]; [|discriminate].
        unfold bind at 1 in Hdrawn.
        by apply visualize_internals_path in Hdrawn.
      * intros Hok. cbn [take]. by rewrite (Hdone Hok).
    + exists 0. simpl. rewrite app_nil_r. split; [done|discriminate].
Qed.

Lemma batches_loop_paths (model : VisualizeInternalGates.t)
  (dataset : VisualizeWarAndPeaceDataset.t) (n start : nat)
  (saved : list Figure) :
  exists done k : nat,
    map path (batches_loop model dataset (seq start n) saved).1
    = map path saved
      ++ flat_map (fun i => map (file_name i) gate_names) (seq start done)
      ++ map (file_name (start + done)) (take k gate_names).
Proof.
  revert start saved. induction n as [|n IH]; intros start saved.
  - exists 0, 0. simpl. by rewrite app_nil_r.
  - cbn [seq batches_loop].
    destruct (DataLoader_fetch dataset start) as [[sequences labels]|e].
    2: { exists 0, 0. simpl. by rewrite app_nil_r. }
    destruct (VisualizeInternalGates.forward model sequences)
      as [[logits outputs]|e].
    2: { exists 0, 0. simpl. by rewrite app_nil_r. }
    destruct (gates_loop_paths dataset start sequences outputs gate_names
                saved) as (k & Hpaths & Hdone).
    destruct (gates_loop dataset start sequences outputs gate_names saved)
      as [saved' [[]|e]].
    + destruct (IH (S start) saved') as (done & k' & Hrest).
      exists (S done), k'. rewrite Hrest. cbn [fst] in Hpaths.
      rewrite Hpaths, (Hdone eq_refl), <- !app_assoc.
      cbn [seq flat_map]. rewrite <- app_assoc.
      by replace (start + S done) with (S start + done) by lia.
    + exists 0, k. cbn [fst] in *. rewrite Hpaths. simpl.
      by rewrite Nat.add_0_r.
Qed.

(** On every run, finished or not, the files have been written sequence
    after sequence, in the order of the indices, and gate after gate. *)
Lemma files_are_written_in_order (checkpoint : Checkpoint)
  (file_text : list pychar) (entropy : Entropy) :
  written_in_order
    (map path (war_and_peace_visualizer checkpoint file_text entropy).1).
Proof.
  unfold war_and_peace_visualizer.
  destruct (batches_loop_paths (VisualizeInternalGates.init entropy)
              (VisualizeWarAndPeaceDataset.init (ckpt_vocabulary checkpoint)
                 file_text)
              (VisualizeWarAndPeaceDataset.len
                 (VisualizeWarAndPeaceDataset.init
                    (ckpt_vocabulary checkpoint) file_text)) 0 [])
    as (done & k & Hpaths).
  exists done, k. exact Hpaths.
Qed.

(** * Further properties *)

(** ** The plain LSTM cell *)

Lemma row_pointwise (g : R -> R) (t : Tensor) (b : nat) (row : list R) :
  t !! b = Some row -> map (map g) t !! b = Some (map g row).
Proof. intros Hb. by rewrite list_lookup_fmap, Hb. Qed.

Lemma row_linear (v : Tensor) (W : Tensor) (b : nat) (vb : list R) :
  v !! b = Some vb ->
  map (fun r => map (fun w => F.dot r w) W) v !! b
  = Some (Published.matvec W vb).
Proof.
  intros Hb. rewrite list_lookup_fmap, Hb. simpl. f_equal.
  unfold Published.matvec. apply map_ext. intros w. apply dot_comm.
Qed.

Lemma row_zip_with (g : R -> R -> R) (s t : Tensor) (b : nat)
  (sb tb : list R) :
  s !! b = Some sb -> t !! b = Some tb ->
  zip_with (zip_with g) s t !! b = Some (zip_with g sb tb).
Proof. intros Hs Ht. by rewrite lookup_zip_with, Hs; simpl; rewrite Ht. Qed.

Section LSTMStep.
Import VisualizeLSTMCell.

Variable self : VisualizeLSTMCell.t.
Let hs := hidden_size self.
Let ins := input_size self.

Hypothesis shape_W_f : has_shape (W_f self) hs (hs + ins).
Hypothesis shape_W_i : has_shape (W_i self) hs (hs + ins).
Hypothesis shape_W_c : has_shape (W_c self) hs (hs + ins).
Hypothesis shape_W_o : has_shape (W_o self) hs (hs + ins).

Lemma lstm_forward_rows (x h c : Tensor) (batch : nat) :
  has_shape x batch ins -> has_shape h batch hs -> has_shape c batch hs ->
  exists next_h next_c f i o c_tilde,
    forward self x (Some (h, c)) = Ok (next_h, next_c, (f, i, o, c_tilde)) /\
    (has_shape next_h batch hs /\ has_shape next_c batch hs /\
     has_shape f batch hs /\ has_shape i batch hs /\
     has_shape o batch hs /\ has_shape c_tilde batch hs) /\
    forall (b : nat) (xb hb cb : list R),
      x !! b = Some xb -> h !! b = Some hb -> c !! b = Some cb ->
      f !! b = Some (GatedStep.gate (W_f self) (hb ++ xb)) /\
      i !! b = Some (GatedStep.gate (W_i self) (hb ++ xb)) /\
      o !! b = Some (GatedStep.gate (W_o self) (hb ++ xb)) /\
      c_tilde !! b = Some (GatedStep.candidate (W_c self) (hb ++ xb)) /\
      next_c !! b
      = Some (GatedStep.next_c (W_f self) (W_i self) (W_c self)
                (hb ++ xb) cb) /\
      next_h !! b
      = Some (GatedStep.next_h (W_f self) (W_i self) (W_c self) (W_o self)
                (hb ++ xb) cb).
Proof.
  intros Hx Hh Hc. unfold forward.
  destruct (cat_dim1_ok h x batch hs ins Hh Hx) as [-> Hhx].
  unfold bind at 1. cbv beta iota.
  destruct (linear_ok _ (W_f self) _ _ _ Hhx shape_W_f) as [-> Hlf].
  unfold bind at 1. cbv beta iota.
  destruct (linear_ok _ (W_i self) _ _ _ Hhx shape_W_i) as [-> Hli].
  unfold bind at 1. cbv beta iota.
  destruct (linear_ok _ (W_o self) _ _ _ Hhx shape_W_o) as [-> Hlo].
  unfold bind at 1. cbv beta iota.
  destruct (linear_ok _ (W_c self) _ _ _ Hhx shape_W_c) as [-> Hlc].
  unfold bind at 1. cbv beta iota.
  set (v := zip_with app h x) in *.
  set (f := torch.sigmoid (map (fun r => map _ (W_f self)) v)).
  set (i := torch.sigmoid (map (fun r => map _ (W_i self)) v)).
  set (o := torch.sigmoid (map (fun r => map _ (W_o self)) v)).
  set (c_tilde := torch.tanh (map (fun r => map _ (W_c self)) v)).
  assert (Hf : has_shape f batch hs) by by apply has_shape_pointwise.
  assert (Hi : has_shape i batch hs) by by apply has_shape_pointwise.
  assert (Ho : has_shape o batch hs) by by apply has_shape_pointwise.
  assert (Hct : has_shape c_tilde batch hs) by by apply has_shape_pointwise.
  unfold torch.mul, torch.add.
  rewrite (elementwise_ok _ f c batch hs Hf Hc).
  unfold bind at 1. cbv beta iota.
  rewrite (elementwise_ok _ i c_tilde batch hs Hi Hct).
  unfold bind at 1. cbv beta iota.
  assert (Hkept := has_shape_zip_with Rmult _ _ _ _ Hf Hc).
  assert (Hfresh := has_shape_zip_with Rmult _ _ _ _ Hi Hct).
  rewrite (elementwise_ok _ _ _ batch hs Hkept Hfresh).
  unfold bind at 1. cbv beta iota.
  assert (Hnc := has_shape_zip_with Rplus _ _ _ _ Hkept Hfresh).
  set (next_c := zip_with (zip_with Rplus) _ _) in *.
  assert (Htc : has_shape (torch.tanh next_c) batch hs)
    by by apply has_shape_pointwise.
  rewrite (elementwise_ok _ o _ batch hs Ho Htc).
  unfold bind at 1. cbv beta iota.
  eexists _, next_c, f, i, o, c_tilde. split; [reflexivity|].
  split; [split_and!; auto using has_shape_zip_with|].
  intros b xb hb cb Hxb Hhb Hcb.
  assert (Hvb : v !! b = Some (hb ++ xb)).
  { unfold v. by rewrite lookup_zip_with, Hhb; simpl; rewrite Hxb. }
  assert (Hfb : f !! b = Some (GatedStep.gate (W_f self) (hb ++ xb))).
  { apply row_pointwise, row_linear, Hvb. }
  assert (Hib : i !! b = Some (GatedStep.gate (W_i self) (hb ++ xb))).
  { apply row_pointwise, row_linear, Hvb. }
  assert (Hob : o !! b = Some (GatedStep.gate (W_o self) (hb ++ xb))).
  { apply row_pointwise, row_linear, Hvb. }
  assert (Hctb : c_tilde !! b
                 = Some (GatedStep.candidate (W_c self) (hb ++ xb))).
  { apply row_pointwise, row_linear, Hvb. }
  assert (Hncb : next_c !! b
                 = Some (GatedStep.next_c (W_f self) (W_i self) (W_c self)
                           (hb ++ xb) cb)).
  { unfold next_c. apply row_zip_with; by apply row_zip_with. }
  split_and!; try done.
  apply row_zip_with; [done|]. by apply row_pointwise.
Qed.

End LSTMStep.

(** ** The LSTM cell with peepholes *)

Lemma cat_dim1_three_ok (a b c : Tensor) (m na nb nc : nat) :
  has_shape a m na -> has_shape b m nb -> has_shape c m nc ->
  cat_dim1_three a b c = Ok (zip_with app a (zip_with app b c)) /\
  has_shape (zip_with app a (zip_with app b c)) m (na + nb + nc).
Proof.
  intros Ha Hb Hc.
  destruct (cat_dim1_ok b c m nb nc Hb Hc) as [_ Hbc].
  destruct (cat_dim1_ok a _ m na (nb + nc) Ha Hbc) as [_ Habc].
  split.
  - unfold cat_dim1_three. rewrite bool_decide_eq_true_2; [done|].
    destruct Ha as [-> _], Hb as [-> _], Hc as [-> _]. done.
  - by rewrite <- Nat.add_assoc.
Qed.

Section PeepholeStep.
Import VisualizePeepholedLSTMCell.

Variable self : VisualizePeepholedLSTMCell.t.
Let hs := hidden_size self.
Let ins := input_size self.

Hypothesis shape_W_f : has_shape (W_f self) hs (2 * hs + ins).
Hypothesis shape_W_i : has_shape (W_i self) hs (2 * hs + ins).
Hypothesis shape_W_c : has_shape (W_c self) hs (2 * hs + ins).
Hypothesis shape_W_o : has_shape (W_o self) hs (2 * hs + ins).

Lemma peephole_forward_rows (x h c : Tensor) (batch : nat) :
  has_shape x batch ins -> has_shape h batch hs -> has_shape c batch hs ->
  exists next_h next_c f i o c_tilde,
    forward self x (Some (h, c)) = Ok (next_h, next_c, (f, i, o, c_tilde)) /\
    (has_shape next_h batch hs /\ has_shape next_c batch hs /\
     has_shape f batch hs /\ has_shape i batch hs /\
     has_shape o batch hs /\ has_shape c_tilde batch hs) /\
    forall (b : nat) (xb hb cb : list R),
      x !! b = Some xb -> h !! b = Some hb -> c !! b = Some cb ->
      f !! b = Some (GatedStep.gate (W_f self) (cb ++ hb ++ xb)) /\
      i !! b = Some (GatedStep.gate (W_i self) (cb ++ hb ++ xb)) /\
      o !! b = Some (GatedStep.gate (W_o self) (cb ++ hb ++ xb)) /\
      c_tilde !! b
      = Some (GatedStep.candidate (W_c self) (cb ++ hb ++ xb)) /\
      next_c !! b
      = Some (GatedStep.next_c (W_f self) (W_i self) (W_c self)
                (cb ++ hb ++ xb) cb) /\
      next_h !! b
      = Some (GatedStep.next_h (W_f self) (W_i self) (W_c self) (W_o self)
                (cb ++ hb ++ xb) cb).
Proof.
  intros Hx Hh Hc. unfold forward.
  destruct (cat_dim1_three_ok c h x batch hs hs ins Hc Hh Hx) as [-> Hchx].
  replace (hs + hs + ins) with (2 * hs + ins) in Hchx by lia.
  unfold bind at 1. cbv beta iota.
  destruct (linear_ok _ (W_f self) _ _ _ Hchx shape_W_f) as [-> Hlf].
  unfold bind at 1. cbv beta iota.
  destruct (linear_ok _ (W_i self) _ _ _ Hchx shape_W_i) as [-> Hli].
  unfold bind at 1. cbv beta iota.
  destruct (linear_ok _ (W_o self) _ _ _ Hchx shape_W_o) as [-> Hlo].
  unfold bind at 1. cbv beta iota.
  destruct (linear_ok _ (W_c self) _ _ _ Hchx shape_W_c) as [-> Hlc].
  unfold bind at 1. cbv beta iota.
  set (v := zip_with app c (zip_with app h x)) in *.
  set (f := torch.sigmoid (map (fun r => map _ (W_f self)) v)).
  set (i := torch.sigmoid (map (fun r => map _ (W_i self)) v)).
  set (o := torch.sigmoid (map (fun r => map _ (W_o self)) v)).
  set (c_tilde := torch.tanh (map (fun r => map _ (W_c self)) v)).
  assert (Hf : has_shape f batch hs) by by apply has_shape_pointwise.
  assert (Hi : has_shape i batch hs) by by apply has_shape_pointwise.
  assert (Ho : has_shape o batch hs) by by apply has_shape_pointwise.
  assert (Hct : has_shape c_tilde batch hs) by by apply has_shape_pointwise.
  unfold torch.mul, torch.add.
  rewrite (elementwise_ok _ f c batch hs Hf Hc).
  unfold bind at 1. cbv beta iota.
  rewrite (elementwise_ok _ i c_tilde batch hs Hi Hct).
  unfold bind at 1. cbv beta iota.
  assert (Hkept := has_shape_zip_with Rmult _ _ _ _ Hf Hc).
  assert (Hfresh := has_shape_zip_with Rmult _ _ _ _ Hi Hct).
  rewrite (elementwise_ok _ _ _ batch hs Hkept Hfresh).
  unfold bind at 1. cbv beta iota.
  assert (Hnc := has_shape_zip_with Rplus _ _ _ _ Hkept Hfresh).
  set (next_c := zip_with (zip_with Rplus) _ _) in *.
  assert (Htc : has_shape (torch.tanh next_c) batch hs)
    by by apply has_shape_pointwise.
  rewrite (elementwise_ok _ o _ batch hs Ho Htc).
  unfold bind at 1. cbv beta iota.
  eexists _, next_c, f, i, o, c_tilde. split; [reflexivity|].
  split; [split_and!; auto using has_shape_zip_with|].
  intros b xb hb cb Hxb Hhb Hcb.
  assert (Hvb : v !! b = Some (cb ++ hb ++ xb)).
  { unfold v. rewrite !lookup_zip_with, Hcb. simpl. rewrite Hhb. simpl.
    by rewrite Hxb. }
  assert (Hfb : f !! b = Some (GatedStep.gate (W_f self) (cb ++ hb ++ xb))).
  { apply row_pointwise, row_linear, Hvb. }
  assert (Hib : i !! b = Some (GatedStep.gate (W_i self) (cb ++ hb ++ xb))).
  { apply row_pointwise, row_linear, Hvb. }
  assert (Hob : o !! b = Some (GatedStep.gate (W_o self) (cb ++ hb ++ xb))).
  { apply row_pointwise, row_linear, Hvb. }
  assert (Hctb : c_tilde !! b
                 = Some (GatedStep.candidate (W_c self) (cb ++ hb ++ xb))).
  { apply row_pointwise, row_linear, Hvb. }
  assert (Hncb : next_c !! b
                 = Some (GatedStep.next_c (W_f self) (W_i self) (W_c self)
                           (cb ++ hb ++ xb) cb)).
  { unfold next_c. apply row_zip_with; by apply row_zip_with. }
  split_and!; try done.
  apply row_zip_with; [done|]. by apply row_pointwise.
Qed.

End PeepholeStep.

(** ** Ranges of one gated step *)

Lemma Forall_zip_with_range (P Q S : R -> Prop) (g : R -> R -> R)
  (u v : list R) :
  (forall a b, P a -> Q b -> S (g a b)) ->
  Forall P u -> Forall Q v -> Forall S (zip_with g u v).
Proof.
  intros Hg Hu. revert v. induction Hu as [|a u Ha _ IH]; intros v Hv;
    [constructor|].
  destruct Hv as [|b v Hb Hv]; [constructor|].
  simpl. constructor; [by apply Hg|by apply IH].
Qed.

Lemma gate_range (W : Tensor) (v : list R) :
  Forall (fun a => (0 < a < 1)%R) (GatedStep.gate W v).
Proof.
  unfold GatedStep.gate, Published.sigma.
  apply Forall_fmap, Forall_forall. intros a _. apply sigmoid1_range.
Qed.

Lemma candidate_range (W : Tensor) (v : list R) :
  Forall (fun a => (-1 < a < 1)%R) (GatedStep.candidate W v).
Proof.
  unfold GatedStep.candidate, Published.vtanh.
  apply Forall_fmap, Forall_forall. intros a _. apply tanh_range.
Qed.

Lemma vtanh_range (u : list R) :
  Forall (fun a => (-1 < a < 1)%R) (Published.vtanh u).
Proof.
  unfold Published.vtanh.
  apply Forall_fmap, Forall_forall. intros a _. apply tanh_range.
Qed.

Lemma gated_next_h_range (W_f W_i W_c W_o : Tensor) (v c : list R) :
  Forall (fun a => (-1 < a < 1)%R) (GatedStep.next_h W_f W_i W_c W_o v c).
Proof.
  unfold GatedStep.next_h, Published.hadamard.
  eapply Forall_zip_with_range;
    [|apply gate_range|apply vtanh_range].
  intros a b Ha Hb. simpl in *. by apply gated_range.
Qed.

Lemma gated_next_c_range (W_f W_i W_c : Tensor) (v c : list R) (bound : R) :
  Forall (fun a => (- bound < a < bound)%R) c ->
  Forall (fun a => (- (bound + 1) < a < bound + 1)%R)
    (GatedStep.next_c W_f W_i W_c v c).
Proof.
  intros Hc. unfold GatedStep.next_c, Published.vadd, Published.hadamard.
  eapply (Forall_zip_with_range
            (fun a => (- bound < a < bound)%R) (fun a => (-1 < a < 1)%R)).
  - intros a b Ha Hb. simpl in *. lra.
  - eapply Forall_zip_with_range; [|apply gate_range|exact Hc].
    intros a b Ha Hb. simpl in *. split; nra.
  - eapply Forall_zip_with_range; [|apply gate_range|apply candidate_range].
    intros a b Ha Hb. simpl in *. by apply gated_range.
Qed.

Lemma tensor_within_rows (P : R -> Prop) (t : Tensor) (batch : nat) :
  length t = batch ->
  (forall b, b < batch -> exists row, t !! b = Some row /\ Forall P row) ->
  Forall (Forall P) t.
Proof.
  intros Hlen Hrows. apply Forall_lookup. intros b row Hb.
  destruct (Hrows b) as (row' & Hb' & Hrow').
  - rewrite <- Hlen. by eapply lookup_lt_Some.
  - rewrite Hb in Hb'. by injection Hb' as ->.
Qed.

Lemma row_exists (t : Tensor) (batch n b : nat) :
  has_shape t batch n -> b < batch -> exists row, t !! b = Some row.
Proof. intros [Hlen _] Hb. apply lookup_lt_is_Some_2. lia. Qed.

(** X1.  On an input and a state of matching shapes (the zero state when
    [prev_state] is [None]) the plain LSTM cell returns, and row [b] of every
    tensor it returns is computed from row [b] of its arguments alone:
    [f], [i], [o] are [sigmoid(W·[h;x])], [c_tilde] is [tanh(W_c·[h;x])],
    [next_c = f⊙c + i⊙c_tilde] and [next_h = o⊙tanh(next_c)]. *)
Theorem lstm_cell_computes_each_sample
  (self : VisualizeLSTMCell.t) (x : Tensor)
  (prev_state : option (Tensor * Tensor)) (batch : nat) :
  let hs := VisualizeLSTMCell.hidden_size self in
  let ins := VisualizeLSTMCell.input_size self in
  let W_f := VisualizeLSTMCell.W_f self in
  let W_i := VisualizeLSTMCell.W_i self in
  let W_c := VisualizeLSTMCell.W_c self in
  let W_o := VisualizeLSTMCell.W_o self in
  has_shape W_f hs (hs + ins) -> has_shape W_i hs (hs + ins) ->
  has_shape W_c hs (hs + ins) -> has_shape W_o hs (hs + ins) ->
  has_shape x batch ins ->
  (forall h c, prev_state = Some (h, c) ->
               has_shape h batch hs /\ has_shape c batch hs) ->
  exists next_h next_c f i o c_tilde,
    VisualizeLSTMCell.forward self x prev_state
    = Ok (next_h, next_c, (f, i, o, c_tilde)) /\
    forall (b : nat) (xb hb cb : list R),
      x !! b = Some xb ->
      match prev_state with
      | None => hb = replicate hs 0%R /\ cb = replicate hs 0%R
      | Some (h, c) => h !! b = Some hb /\ c !! b = Some cb
      end ->
      let f_b := Published.sigma (Published.matvec W_f (hb ++ xb)) in
      let i_b := Published.sigma (Published.matvec W_i (hb ++ xb)) in
      let o_b := Published.sigma (Published.matvec W_o (hb ++ xb)) in
      let c_tilde_b := Published.vtanh (Published.matvec W_c (hb ++ xb)) in
      let next_c_b :=
        Published.vadd (Published.hadamard f_b cb)
          (Published.hadamard i_b c_tilde_b) in
      let next_h_b := Published.hadamard o_b (Published.vtanh next_c_b) in
      f !! b = Some f_b /\ i !! b = Some i_b /\ o !! b = Some o_b /\
      c_tilde !! b = Some c_tilde_b /\
      next_c !! b = Some next_c_b /\ next_h !! b = Some next_h_b.
Proof.
  intros hs ins W_f W_i W_c W_o HWf HWi HWc HWo Hx Hprev.
  destruct prev_state as [[h c]|].
  - destruct (Hprev h c eq_refl) as [Hh Hc].
    destruct (lstm_forward_rows self HWf HWi HWc HWo x h c batch Hx Hh Hc)
      as (nh & nc & f & i & o & ct & Hrun & _ & Hrows).
    exists nh, nc, f, i, o, ct. split; [exact Hrun|].
    intros b xb hb cb Hxb [Hhb Hcb]. exact (Hrows b xb hb cb Hxb Hhb Hcb).
  - assert (Hzero : has_shape (torch.zeros (length x) hs) batch hs).
    { rewrite (has_shape_length x batch ins Hx). apply has_shape_zeros. }
    destruct (lstm_forward_rows self HWf HWi HWc HWo x _ _ batch Hx
                Hzero Hzero)
      as (nh & nc & f & i & o & ct & Hrun & _ & Hrows).
    exists nh, nc, f, i, o, ct. split; [exact Hrun|].
    intros b xb hb cb Hxb [-> ->].
    assert (Hz : torch.zeros (length x) hs !! b = Some (replicate hs 0%R)).
    { apply zeros_lookup. by eapply lookup_lt_Some. }
    exact (Hrows b xb _ _ Hxb Hz Hz).
Qed.

Lemma lstm_cell_computes_each_sample_witness :
  let self := VisualizeLSTMCell.init 1 1 (fun _ _ _ => 1%R) in
  exists next_h next_c f i o c_tilde,
    VisualizeLSTMCell.forward self [[2%R]] None
    = Ok (next_h, next_c, (f, i, o, c_tilde)) /\
    forall (b : nat) (xb hb cb : list R),
      [[2%R]] !! b = Some xb ->
      hb = replicate 1 0%R /\ cb = replicate 1 0%R ->
      let W := [[1%R; 1%R]] in
      let f_b := Published.sigma (Published.matvec W (hb ++ xb)) in
      let i_b := Published.sigma (Published.matvec W (hb ++ xb)) in
      let o_b := Published.sigma (Published.matvec W (hb ++ xb)) in
      let c_tilde_b := Published.vtanh (Published.matvec W (hb ++ xb)) in
      let next_c_b :=
        Published.vadd (Published.hadamard f_b cb)
          (Published.hadamard i_b c_tilde_b) in
      let next_h_b := Published.hadamard o_b (Published.vtanh next_c_b) in
      f !! b = Some f_b /\ i !! b = Some i_b /\ o !! b = Some o_b /\
      c_tilde !! b = Some c_tilde_b /\
      next_c !! b = Some next_c_b /\ next_h !! b = Some next_h_b.
Proof.
  intros self.
  apply (lstm_cell_computes_each_sample self [[2%R]] None 1);
    try (split; [reflexivity | repeat constructor]).
  intros h c Hprev. discriminate Hprev.
Defined.

(** X2.  The cell with peepholes does the same with [[c;h;x]] in the place
    of [[h;x]]: all of its gates, the output gate and the candidate
    included, see the previous cell state. *)
Theorem peephole_cell_computes_each_sample
  (self : VisualizePeepholedLSTMCell.t) (x : Tensor)
  (prev_state : option (Tensor * Tensor)) (batch : nat) :
  let hs := VisualizePeepholedLSTMCell.hidden_size self in
  let ins := VisualizePeepholedLSTMCell.input_size self in
  let W_f := VisualizePeepholedLSTMCell.W_f self in
  let W_i := VisualizePeepholedLSTMCell.W_i self in
  let W_c := VisualizePeepholedLSTMCell.W_c self in
  let W_o := VisualizePeepholedLSTMCell.W_o self in
  has_shape W_f hs (2 * hs + ins) -> has_shape W_i hs (2 * hs + ins) ->
  has_shape W_c hs (2 * hs + ins) -> has_shape W_o hs (2 * hs + ins) ->
  has_shape x batch ins ->
  (forall h c, prev_state = Some (h, c) ->
               has_shape h batch hs /\ has_shape c batch hs) ->
  exists next_h next_c f i o c_tilde,
    VisualizePeepholedLSTMCell.forward self x prev_state
    = Ok (next_h, next_c, (f, i, o, c_tilde)) /\
    forall (b : nat) (xb hb cb : list R),
      x !! b = Some xb ->
      match prev_state with
      | None => hb = replicate hs 0%R /\ cb = replicate hs 0%R
      | Some (h, c) => h !! b = Some hb /\ c !! b = Some cb
      end ->
      let v := cb ++ hb ++ xb in
      let f_b := Published.sigma (Published.matvec W_f v) in
      let i_b := Published.sigma (Published.matvec W_i v) in
      let o_b := Published.sigma (Published.matvec W_o v) in
      let c_tilde_b := Published.vtanh (Published.matvec W_c v) in
      let next_c_b :=
        Published.vadd (Published.hadamard f_b cb)
          (Published.hadamard i_b c_tilde_b) in
      let next_h_b := Published.hadamard o_b (Published.vtanh next_c_b) in
      f !! b = Some f_b /\ i !! b = Some i_b /\ o !! b = Some o_b /\
      c_tilde !! b = Some c_tilde_b /\
      next_c !! b = Some next_c_b /\ next_h !! b = Some next_h_b.
Proof.
  intros hs ins W_f W_i W_c W_o HWf HWi HWc HWo Hx Hprev.
  destruct prev_state as [[h c]|].
  - destruct (Hprev h c eq_refl) as [Hh Hc].
    destruct (peephole_forward_rows self HWf HWi HWc HWo x h c batch Hx Hh Hc)
      as (nh & nc & f & i & o & ct & Hrun & _ & Hrows).
    exists nh, nc, f, i, o, ct. split; [exact Hrun|].
    intros b xb hb cb Hxb [Hhb Hcb]. exact (Hrows b xb hb cb Hxb Hhb Hcb).
  - assert (Hzero : has_shape (torch.zeros (length x) hs) batch hs).
    { rewrite (has_shape_length x batch ins Hx). apply has_shape_zeros. }
    destruct (peephole_forward_rows self HWf HWi HWc HWo x _ _ batch Hx
                Hzero Hzero)
      as (nh & nc & f & i & o & ct & Hrun & _ & Hrows).
    exists nh, nc, f, i, o, ct. split; [exact Hrun|].
    intros b xb hb cb Hxb [-> ->].
    assert (Hz : torch.zeros (length x) hs !! b = Some (replicate hs 0%R)).
    { apply zeros_lookup. by eapply lookup_lt_Some. }
    exact (Hrows b xb _ _ Hxb Hz Hz).
Qed.

Lemma peephole_cell_computes_each_sample_witness :
  let self := VisualizePeepholedLSTMCell.init 1 1 (fun _ _ _ => 1%R) in
  exists next_h next_c f i o c_tilde,
    VisualizePeepholedLSTMCell.forward self [[2%R]] None
    = Ok (next_h, next_c, (f, i, o, c_tilde)) /\
    forall (b : nat) (xb hb cb : list R),
      [[2%R]] !! b = Some xb ->
      hb = replicate 1 0%R /\ cb = replicate 1 0%R ->
      let W := [[1%R; 1%R; 1%R]] in
      let v := cb ++ hb ++ xb in
      let f_b := Published.sigma (Published.matvec W v) in
      let i_b := Published.sigma (Published.matvec W v) in
      let o_b := Published.sigma (Published.matvec W v) in
      let c_tilde_b := Published.vtanh (Published.matvec W v) in
      let next_c_b :=
        Published.vadd (Published.hadamard f_b cb)
          (Published.hadamard i_b c_tilde_b) in
      let next_h_b := Published.hadamard o_b (Published.vtanh next_c_b) in
      f !! b = Some f_b /\ i !! b = Some i_b /\ o !! b = Some o_b /\
      c_tilde !! b = Some c_tilde_b /\
      next_c !! b = Some next_c_b /\ next_h !! b = Some next_h_b.
Proof.
  intros self.
  apply (peephole_cell_computes_each_sample self [[2%R]] None 1);
    try (split; [reflexivity | repeat constructor]).
  intros h c Hprev. discriminate Hprev.
Defined.

Lemma gated_step_ranges (W_f W_i W_c W_o : Tensor)
  (next_h next_c f i o c_tilde c : Tensor) (batch hs : nat) (bound : R) :
  has_shape next_h batch hs -> has_shape next_c batch hs ->
  has_shape f batch hs -> has_shape i batch hs -> has_shape o batch hs ->
  has_shape c_tilde batch hs -> has_shape c batch hs ->
  magnitude_below bound c ->
  (forall (b : nat) (cb : list R),
      c !! b = Some cb ->
      exists v : list R,
        f !! b = Some (GatedStep.gate W_f v) /\
        i !! b = Some (GatedStep.gate W_i v) /\
        o !! b = Some (GatedStep.gate W_o v) /\
        c_tilde !! b = Some (GatedStep.candidate W_c v) /\
        next_c !! b = Some (GatedStep.next_c W_f W_i W_c v cb) /\
        next_h !! b = Some (GatedStep.next_h W_f W_i W_c W_o v cb)) ->
  strictly_within (-1) 1 next_h /\ magnitude_below (bound + 1) next_c /\
  strictly_within 0 1 f /\ strictly_within 0 1 i /\ strictly_within 0 1 o /\
  strictly_within (-1) 1 c_tilde.
Proof.
  intros Hnh Hnc Hf Hi Ho Hct Hc Hbound Hrows.
  assert (Hsample : forall b, b < batch ->
            exists (cb v : list R),
              Forall (fun a => (- bound < a < bound)%R) cb /\
              f !! b = Some (GatedStep.gate W_f v) /\
              i !! b = Some (GatedStep.gate W_i v) /\
              o !! b = Some (GatedStep.gate W_o v) /\
              c_tilde !! b = Some (GatedStep.candidate W_c v) /\
              next_c !! b = Some (GatedStep.next_c W_f W_i W_c v cb) /\
              next_h !! b = Some (GatedStep.next_h W_f W_i W_c W_o v cb)).
  { intros b Hb. destruct (row_exists c batch hs b Hc Hb) as [cb Hcb].
    destruct (Hrows b cb Hcb) as (v & Hv). exists cb, v. split; [|exact Hv].
    unfold magnitude_below, strictly_within in Hbound.
    rewrite Forall_lookup in Hbound. exact (Hbound b cb Hcb). }
  unfold magnitude_below, strictly_within.
  split_and!.
  - apply (tensor_within_rows _ _ batch (has_shape_length _ _ _ Hnh)).
    intros b Hb. destruct (Hsample b Hb) as (cb & v & _ & _ & _ & _ & _ & _ & H).
    eexists. split; [exact H|]. apply gated_next_h_range.
  - apply (tensor_within_rows _ _ batch (has_shape_length _ _ _ Hnc)).
    intros b Hb.
    destruct (Hsample b Hb) as (cb & v & Hcb & _ & _ & _ & _ & H & _).
    eexists. split; [exact H|]. by apply gated_next_c_range.
  - apply (tensor_within_rows _ _ batch (has_shape_length _ _ _ Hf)).
    intros b Hb. destruct (Hsample b Hb) as (cb & v & _ & H & _).
    eexists. split; [exact H|]. apply gate_range.
  - apply (tensor_within_rows _ _ batch (has_shape_length _ _ _ Hi)).
    intros b Hb. destruct (Hsample b Hb) as (cb & v & _ & _ & H & _).
    eexists. split; [exact H|]. apply gate_range.
  - apply (tensor_within_rows _ _ batch (has_shape_length _ _ _ Ho)).
    intros b Hb. destruct (Hsample b Hb) as (cb & v & _ & _ & _ & H & _).
    eexists. split; [exact H|]. apply gate_range.
  - apply (tensor_within_rows _ _ batch (has_shape_length _ _ _ Hct)).
    intros b Hb. destruct (Hsample b Hb) as (cb & v & _ & _ & _ & _ & H & _).
    eexists. split; [exact H|]. apply candidate_range.
Qed.

(** X3.  In exact real arithmetic (the entries of the tensors are real
    numbers; rounding to 32-bit floating point is not covered), one step of
    the plain LSTM cell keeps the hidden state strictly between -1 and 1
    and lets the cell state grow by less than one: a cell state whose
    entries are below [bound] in magnitude gives one whose entries are
    below [bound + 1]; the three gates lie strictly between 0 and 1 and the
    candidate strictly between -1 and 1. *)
Theorem lstm_cell_state_grows_by_less_than_one
  (self : VisualizeLSTMCell.t) (x h c : Tensor) (batch : nat) (bound : R) :
  let hs := VisualizeLSTMCell.hidden_size self in
  let ins := VisualizeLSTMCell.input_size self in
  has_shape (VisualizeLSTMCell.W_f self) hs (hs + ins) ->
  has_shape (VisualizeLSTMCell.W_i self) hs (hs + ins) ->
  has_shape (VisualizeLSTMCell.W_c self) hs (hs + ins) ->
  has_shape (VisualizeLSTMCell.W_o self) hs (hs + ins) ->
  has_shape x batch ins -> has_shape h batch hs -> has_shape c batch hs ->
  magnitude_below bound c ->
  exists next_h next_c f i o c_tilde,
    VisualizeLSTMCell.forward self x (Some (h, c))
    = Ok (next_h, next_c, (f, i, o, c_tilde)) /\
    strictly_within (-1) 1 next_h /\ magnitude_below (bound + 1) next_c /\
    strictly_within 0 1 f /\ strictly_within 0 1 i /\ strictly_within 0 1 o /\
    strictly_within (-1) 1 c_tilde.
Proof.
  intros hs ins HWf HWi HWc HWo Hx Hh Hc Hbound.
  destruct (lstm_forward_rows self HWf HWi HWc HWo x h c batch Hx Hh Hc)
    as (nh & nc & f & i & o & ct & Hrun
        & (Hnh & Hnc & Hf & Hi & Ho & Hct) & Hrows).
  exists nh, nc, f, i, o, ct. split; [exact Hrun|].
  apply (gated_step_ranges (VisualizeLSTMCell.W_f self)
           (VisualizeLSTMCell.W_i self) (VisualizeLSTMCell.W_c self)
           (VisualizeLSTMCell.W_o self) nh nc f i o ct c batch hs bound);
    try done.
  intros b cb Hcb.
  assert (Hb : b < batch).
  { rewrite <- (has_shape_length _ _ _ Hc). by eapply lookup_lt_Some. }
  destruct (row_exists x batch ins b Hx Hb) as [xb Hxb].
  destruct (row_exists h batch hs b Hh Hb) as [hb Hhb].
  exists (hb ++ xb). exact (Hrows b xb hb cb Hxb Hhb Hcb).
Qed.

Lemma lstm_cell_state_grows_by_less_than_one_witness :
  let self := VisualizeLSTMCell.init 1 1 (fun _ _ _ => 1%R) in
  exists next_h next_c f i o c_tilde,
    VisualizeLSTMCell.forward self [[2%R]] (Some ([[0%R]], [[3%R]]))
    = Ok (next_h, next_c, (f, i, o, c_tilde)) /\
    strictly_within (-1) 1 next_h /\ magnitude_below (4 + 1) next_c /\
    strictly_within 0 1 f /\ strictly_within 0 1 i /\ strictly_within 0 1 o /\
    strictly_within (-1) 1 c_tilde.
Proof.
  intros self.
  apply (lstm_cell_state_grows_by_less_than_one self [[2%R]] [[0%R]] [[3%R]]
           1 4);
    try (split; [reflexivity | repeat constructor]).
  repeat constructor; simpl; lra.
Defined.

(** X4.  In exact real arithmetic (the entries of the tensors are real
    numbers; in 32-bit floating point [torch.sigmoid] and [torch.tanh] can
    round to exactly 0 or 1, which this statement does not cover), the same
    bounds hold for one step of the cell with peepholes: a cell state below
    [bound] in magnitude gives one below [bound + 1], the hidden state
    lies strictly between -1 and 1, the three gates strictly between 0 and
    1 and the candidate strictly between -1 and 1. *)
Theorem peephole_cell_state_grows_by_less_than_one
  (self : VisualizePeepholedLSTMCell.t) (x h c : Tensor) (batch : nat)
  (bound : R) :
  let hs := VisualizePeepholedLSTMCell.hidden_size self in
  let ins := VisualizePeepholedLSTMCell.input_size self in
  has_shape (VisualizePeepholedLSTMCell.W_f self) hs (2 * hs + ins) ->
  has_shape (VisualizePeepholedLSTMCell.W_i self) hs (2 * hs + ins) ->
  has_shape (VisualizePeepholedLSTMCell.W_c self) hs (2 * hs + ins) ->
  has_shape (VisualizePeepholedLSTMCell.W_o self) hs (2 * hs + ins) ->
  has_shape x batch ins -> has_shape h batch hs -> has_shape c batch hs ->
  magnitude_below bound c ->
  exists next_h next_c f i o c_tilde,
    VisualizePeepholedLSTMCell.forward self x (Some (h, c))
    = Ok (next_h, next_c, (f, i, o, c_tilde)) /\
    strictly_within (-1) 1 next_h /\ magnitude_below (bound + 1) next_c /\
    strictly_within 0 1 f /\ strictly_within 0 1 i /\ strictly_within 0 1 o /\
    strictly_within (-1) 1 c_tilde.
Proof.
  intros hs ins HWf HWi HWc HWo Hx Hh Hc Hbound.
  destruct (peephole_forward_rows self HWf HWi HWc HWo x h c batch Hx Hh Hc)
    as (nh & nc & f & i & o & ct & Hrun
        & (Hnh & Hnc & Hf & Hi & Ho & Hct) & Hrows).
  exists nh, nc, f, i, o, ct. split; [exact Hrun|].
  apply (gated_step_ranges (VisualizePeepholedLSTMCell.W_f self)
           (VisualizePeepholedLSTMCell.W_i self)
           (VisualizePeepholedLSTMCell.W_c self)
           (VisualizePeepholedLSTMCell.W_o self) nh nc f i o ct c batch hs
           bound);
    try done.
  intros b cb Hcb.
  assert (Hb : b < batch).
  { rewrite <- (has_shape_length _ _ _ Hc). by eapply lookup_lt_Some. }
  destruct (row_exists x batch ins b Hx Hb) as [xb Hxb].
  destruct (row_exists h batch hs b Hh Hb) as [hb Hhb].
  exists (cb ++ hb ++ xb). exact (Hrows b xb hb cb Hxb Hhb Hcb).
Qed.

Lemma peephole_cell_state_grows_by_less_than_one_witness :
  let self := VisualizePeepholedLSTMCell.init 1 1 (fun _ _ _ => 1%R) in
  exists next_h next_c f i o c_tilde,
    VisualizePeepholedLSTMCell.forward self [[2%R]] (Some ([[0%R]], [[3%R]]))
    = Ok (next_h, next_c, (f, i, o, c_tilde)) /\
    strictly_within (-1) 1 next_h /\ magnitude_below (4 + 1) next_c /\
    strictly_within 0 1 f /\ strictly_within 0 1 i /\ strictly_within 0 1 o /\
    strictly_within (-1) 1 c_tilde.
Proof.
  intros self.
  apply (peephole_cell_state_grows_by_less_than_one self [[2%R]] [[0%R]]
           [[3%R]] 1 4);
    try (split; [reflexivity | repeat constructor]).
  repeat constructor; simpl; lra.
Defined.

(** ** Ranges of the GRU cell and of the coupled cell *)

Lemma gru_forward_shaped (self : VisualizeGRUCell.t) (x h : Tensor)
  (batch : nat) :
  let hs := VisualizeGRUCell.hidden_size self in
  let ins := VisualizeGRUCell.input_size self in
  has_shape (VisualizeGRUCell.W_z self) hs (hs + ins) ->
  has_shape (VisualizeGRUCell.W_r self) hs (hs + ins) ->
  has_shape (VisualizeGRUCell.W self) hs (hs + ins) ->
  has_shape x batch ins -> has_shape h batch hs ->
  exists next_h z r h_tilde,
    VisualizeGRUCell.forward self x (Some h) = Ok (next_h, (z, r, h_tilde)) /\
    (has_shape next_h batch hs /\ has_shape z batch hs /\
     has_shape r batch hs /\ has_shape h_tilde batch hs) /\
    forall (b : nat) (xb hb : list R),
      x !! b = Some xb -> h !! b = Some hb ->
      z !! b = Some (Published.gru_z (VisualizeGRUCell.W_z self) xb hb) /\
      r !! b = Some (Published.gru_r (VisualizeGRUCell.W_r self) xb hb) /\
      h_tilde !! b
      = Some (Published.gru_h_tilde (VisualizeGRUCell.W_r self)
                (VisualizeGRUCell.W self) xb hb) /\
      next_h !! b
      = Some (Published.gru_next_h (VisualizeGRUCell.W_z self)
                (VisualizeGRUCell.W_r self) (VisualizeGRUCell.W self) xb hb).
Proof.
  intros hs ins HWz HWr HW Hx Hh. unfold VisualizeGRUCell.forward.
  destruct (cat_dim1_ok h x batch hs ins Hh Hx) as [-> Hhx].
  unfold bind at 1. cbv beta iota.
  destruct (linear_ok _ _ _ _ _ Hhx HWz) as [-> Hlz].
  unfold bind at 1. cbv beta iota.
  destruct (linear_ok _ _ _ _ _ Hhx HWr) as [-> Hlr].
  unfold bind at 1. cbv beta iota.
  set (v := zip_with app h x) in *.
  set (z := torch.sigmoid (map (fun u => map _ (VisualizeGRUCell.W_z self)) v)).
  set (r := torch.sigmoid (map (fun u => map _ (VisualizeGRUCell.W_r self)) v)).
  assert (Hz : has_shape z batch hs) by by apply has_shape_pointwise.
  assert (Hr : has_shape r batch hs) by by apply has_shape_pointwise.
  unfold torch.mul, torch.add.
  rewrite (elementwise_ok _ r h batch hs Hr Hh).
  unfold bind at 1. cbv beta iota.
  assert (Hrh := has_shape_zip_with Rmult _ _ _ _ Hr Hh).
  destruct (cat_dim1_ok _ x batch hs ins Hrh Hx) as [-> Hrhx].
  unfold bind at 1. cbv beta iota.
  destruct (linear_ok _ _ _ _ _ Hrhx HW) as [-> Hlh].
  unfold bind at 1. cbv beta iota.
  set (h_tilde := torch.tanh _).
  assert (Hht : has_shape h_tilde batch hs) by by apply has_shape_pointwise.
  assert (H1z : has_shape (torch.rsub 1 z) batch hs)
    by by apply has_shape_pointwise.
  rewrite (elementwise_ok _ _ h batch hs H1z Hh).
  unfold bind at 1. cbv beta iota.
  rewrite (elementwise_ok _ z h_tilde batch hs Hz Hht).
  unfold bind at 1. cbv beta iota.
  assert (Hkeep := has_shape_zip_with Rmult _ _ _ _ H1z Hh).
  assert (Hrenew := has_shape_zip_with Rmult _ _ _ _ Hz Hht).
  rewrite (elementwise_ok _ _ _ batch hs Hkeep Hrenew).
  unfold bind at 1. cbv beta iota.
  eexists _, z, r, h_tilde. split; [reflexivity|].
  split; [split_and!; auto using has_shape_zip_with|].
  intros b xb hb Hxb Hhb.
  assert (Hvb : v !! b = Some (hb ++ xb)).
  { unfold v. by rewrite lookup_zip_with, Hhb; simpl; rewrite Hxb. }
  assert (Hzb : z !! b
                = Some (Published.gru_z (VisualizeGRUCell.W_z self) xb hb)).
  { apply row_pointwise, row_linear, Hvb. }
  assert (Hrb : r !! b
                = Some (Published.gru_r (VisualizeGRUCell.W_r self) xb hb)).
  { apply row_pointwise, row_linear, Hvb. }
  assert (Hhtb : h_tilde !! b
                 = Some (Published.gru_h_tilde (VisualizeGRUCell.W_r self)
                           (VisualizeGRUCell.W self) xb hb)).
  { apply row_pointwise, row_linear.
    rewrite lookup_zip_with, (row_zip_with Rmult r h b _ _ Hrb Hhb). simpl.
    by rewrite Hxb. }
  split_and!; try done.
  apply row_zip_with; [|by apply row_zip_with].
  apply row_zip_with; [|done]. by apply row_pointwise.
Qed.

Lemma mix_range (z h ht : list R) :
  Forall (fun a => (0 < a < 1)%R) z ->
  Forall (fun a => (-1 < a < 1)%R) h ->
  Forall (fun a => (-1 < a < 1)%R) ht ->
  Forall (fun a => (-1 < a < 1)%R)
    (Published.vadd (Published.hadamard (Published.one_minus z) h)
       (Published.hadamard z ht)).
Proof.
  intros Hz. revert h ht.
  induction Hz as [|a z Ha _ IH]; intros h ht Hh Hht; [constructor|].
  destruct Hh as [|b h Hb Hh]; [constructor|].
  destruct Hht as [|d ht Hd Hht]; [constructor|].
  simpl. constructor; [split; nra|by apply IH].
Qed.

Lemma gru_z_range (W : Tensor) (x h : list R) :
  Forall (fun a => (0 < a < 1)%R) (Published.gru_z W x h).
Proof.
  unfold Published.gru_z, Published.sigma.
  apply Forall_fmap, Forall_forall. intros a _. apply sigmoid1_range.
Qed.

Lemma gru_r_range (W : Tensor) (x h : list R) :
  Forall (fun a => (0 < a < 1)%R) (Published.gru_r W x h).
Proof.
  unfold Published.gru_r, Published.sigma.
  apply Forall_fmap, Forall_forall. intros a _. apply sigmoid1_range.
Qed.

Lemma gru_h_tilde_range (W_r W : Tensor) (x h : list R) :
  Forall (fun a => (-1 < a < 1)%R) (Published.gru_h_tilde W_r W x h).
Proof. unfold Published.gru_h_tilde. apply vtanh_range. Qed.

Lemma gru_next_h_range (W_z W_r W : Tensor) (x h : list R) :
  Forall (fun a => (-1 < a < 1)%R) h ->
  Forall (fun a => (-1 < a < 1)%R) (Published.gru_next_h W_z W_r W x h).
Proof.
  intros Hh. unfold Published.gru_next_h.
  apply mix_range; [apply gru_z_range|exact Hh|apply gru_h_tilde_range].
Qed.

(** X5.  In exact real arithmetic (the entries of the tensors are real
    numbers; in 32-bit floating point [torch.sigmoid] and [torch.tanh] can
    round to exactly 0 or 1, which this statement does not cover), one step
    of the GRU cell keeps the hidden state strictly between -1 and 1: from
    such a state, or from [None], the next hidden state lies strictly
    between -1 and 1, the gates [z] and [r] strictly between 0 and 1 and
    the candidate strictly between -1 and 1. *)
Theorem gru_hidden_state_stays_bounded
  (self : VisualizeGRUCell.t) (x : Tensor) (prev_state : option Tensor)
  (batch : nat) :
  let hs := VisualizeGRUCell.hidden_size self in
  let ins := VisualizeGRUCell.input_size self in
  has_shape (VisualizeGRUCell.W_z self) hs (hs + ins) ->
  has_shape (VisualizeGRUCell.W_r self) hs (hs + ins) ->
  has_shape (VisualizeGRUCell.W self) hs (hs + ins) ->
  has_shape x batch ins ->
  (forall h, prev_state = Some h ->
             has_shape h batch hs /\ strictly_within (-1) 1 h) ->
  exists next_h z r h_tilde,
    VisualizeGRUCell.forward self x prev_state
    = Ok (next_h, (z, r, h_tilde)) /\
    strictly_within (-1) 1 next_h /\
    strictly_within 0 1 z /\ strictly_within 0 1 r /\
    strictly_within (-1) 1 h_tilde.
Proof.
  intros hs ins HWz HWr HW Hx Hprev.
  assert (Hstate : exists h,
             VisualizeGRUCell.forward self x prev_state
             = VisualizeGRUCell.forward self x (Some h) /\
             has_shape h batch hs /\ strictly_within (-1) 1 h).
  { destruct prev_state as [h|].
    - exists h. split; [done|]. by apply Hprev.
    - exists (torch.zeros (length x) hs). split; [reflexivity|].
      rewrite (has_shape_length x batch ins Hx).
      split; [apply has_shape_zeros|].
      apply Forall_replicate, zeros_row_range. }
  destruct Hstate as (h & -> & Hh & Hrange).
  destruct (gru_forward_shaped self x h batch HWz HWr HW Hx Hh)
    as (nh & z & r & ht & Hrun & (Hnh & Hz & Hr & Hht) & Hrows).
  exists nh, z, r, ht. split; [exact Hrun|].
  assert (Hsample : forall b, b < batch ->
            exists xb hb, x !! b = Some xb /\ h !! b = Some hb /\
                          Forall (fun a => (-1 < a < 1)%R) hb).
  { intros b Hb. destruct (row_exists x batch ins b Hx Hb) as [xb Hxb].
    destruct (row_exists h batch hs b Hh Hb) as [hb Hhb].
    exists xb, hb. split_and!; try done.
    unfold strictly_within in Hrange. rewrite Forall_lookup in Hrange.
    exact (Hrange b hb Hhb). }
  unfold strictly_within. split_and!.
  - apply (tensor_within_rows _ _ batch (has_shape_length _ _ _ Hnh)).
    intros b Hb. destruct (Hsample b Hb) as (xb & hb & Hxb & Hhb & Hr1).
    destruct (Hrows b xb hb Hxb Hhb) as (_ & _ & _ & H).
    eexists. split; [exact H|]. by apply gru_next_h_range.
  - apply (tensor_within_rows _ _ batch (has_shape_length _ _ _ Hz)).
    intros b Hb. destruct (Hsample b Hb) as (xb & hb & Hxb & Hhb & Hr1).
    destruct (Hrows b xb hb Hxb Hhb) as (H & _).
    eexists. split; [exact H|]. apply gru_z_range.
  - apply (tensor_within_rows _ _ batch (has_shape_length _ _ _ Hr)).
    intros b Hb. destruct (Hsample b Hb) as (xb & hb & Hxb & Hhb & Hr1).
    destruct (Hrows b xb hb Hxb Hhb) as (_ & H & _).
    eexists. split; [exact H|]. apply gru_r_range.
  - apply (tensor_within_rows _ _ batch (has_shape_length _ _ _ Hht)).
    intros b Hb. destruct (Hsample b Hb) as (xb & hb & Hxb & Hhb & Hr1).
    destruct (Hrows b xb hb Hxb Hhb) as (_ & _ & H & _).
    eexists. split; [exact H|]. apply gru_h_tilde_range.
Qed.

Lemma gru_hidden_state_stays_bounded_witness :
  let self := VisualizeGRUCell.init 1 1 (fun _ _ _ => 1%R) in
  exists next_h z r h_tilde,
    VisualizeGRUCell.forward self [[2%R]] (Some [[(1 / 2)%R]])
    = Ok (next_h, (z, r, h_tilde)) /\
    strictly_within (-1) 1 next_h /\
    strictly_within 0 1 z /\ strictly_within 0 1 r /\
    strictly_within (-1) 1 h_tilde.
Proof.
  intros self.
  apply (gru_hidden_state_stays_bounded self [[2%R]] (Some [[(1 / 2)%R]]) 1);
    try (split; [reflexivity | repeat constructor]).
  intros h [= <-]. split; [split; [reflexivity | repeat constructor]|].
  repeat constructor; simpl; lra.
Defined.

Lemma convex_rows_bound (bound : R) (f c ct : list R) :
  (1 <= bound)%R ->
  Forall (fun a => (0 < a < 1)%R) f ->
  Forall (fun a => (- bound < a < bound)%R) c ->
  Forall (fun a => (-1 < a < 1)%R) ct ->
  Forall (fun a => (- bound < a < bound)%R)
    (Published.vadd (Published.hadamard f c)
       (Published.hadamard (Published.one_minus f) ct)).
Proof.
  intros Hbound Hf. revert c ct.
  induction Hf as [|a f Ha _ IH]; intros c ct Hc Hct; [constructor|].
  destruct Hc as [|b c Hb Hc]; [constructor|].
  destruct Hct as [|d ct Hd Hct]; [constructor|].
  simpl. constructor; [split; nra|by apply IH].
Qed.

Lemma coupled_next_h_range (W_f W_o W_c : Tensor) (x h c : list R) :
  Forall (fun a => (-1 < a < 1)%R) (Published.coupled_next_h W_f W_o W_c x h c).
Proof.
  unfold Published.coupled_next_h, Published.hadamard.
  eapply Forall_zip_with_range; [|apply coupled_o_range|apply vtanh_range].
  intros a b Ha Hb. simpl in *. by apply gated_range.
Qed.

(** X6.  In exact real arithmetic (the entries of the tensors are real
    numbers; in 32-bit floating point [torch.sigmoid] and [torch.tanh] can
    round to exactly 0 or 1, which this statement does not cover), one step
    of the coupled cell never lets the cell state grow: a cell state whose
    entries are below [bound] in magnitude, for a bound of at least one,
    gives a cell state below the same bound; the hidden state it returns
    lies strictly between -1 and 1 whatever the state it was given. *)
Theorem coupled_cell_state_never_grows
  (self : VisualizeCoupledLSTMCell.t) (x h c : Tensor) (batch : nat)
  (bound : R) :
  let hs := VisualizeCoupledLSTMCell.hidden_size self in
  let ins := VisualizeCoupledLSTMCell.input_size self in
  has_shape (VisualizeCoupledLSTMCell.W_f self) hs (hs + ins) ->
  has_shape (VisualizeCoupledLSTMCell.W_c self) hs (hs + ins) ->
  has_shape (VisualizeCoupledLSTMCell.W_o self) hs (hs + ins) ->
  has_shape x batch ins -> has_shape h batch hs -> has_shape c batch hs ->
  (1 <= bound)%R -> magnitude_below bound c ->
  exists next_h next_c gates,
    VisualizeCoupledLSTMCell.forward self x (Some (h, c))
    = Ok (next_h, next_c, gates) /\
    strictly_within (-1) 1 next_h /\ magnitude_below bound next_c.
Proof.
  intros hs ins HWf HWc HWo Hx Hh Hc Hbound Hrange.
  destruct (coupled_forward_rows self HWf HWc HWo x h c batch Hx Hh Hc)
    as (nh & nc & f & o & ct & Hrun & Hnh & Hnc & _ & _ & _ & Hrows).
  exists nh, nc, (f, o, ct). split; [exact Hrun|].
  assert (Hsample : forall b, b < batch ->
            exists xb hb cb,
              Forall (fun a => (- bound < a < bound)%R) cb /\
              nh !! b = Some (Published.coupled_next_h
                                (VisualizeCoupledLSTMCell.W_f self)
                                (VisualizeCoupledLSTMCell.W_o self)
                                (VisualizeCoupledLSTMCell.W_c self) xb hb cb) /\
              nc !! b = Some (Published.coupled_next_c
                                (VisualizeCoupledLSTMCell.W_f self)
                                (VisualizeCoupledLSTMCell.W_c self) xb hb cb)).
  { intros b Hb. destruct (row_exists x batch ins b Hx Hb) as [xb Hxb].
    destruct (row_exists h batch hs b Hh Hb) as [hb Hhb].
    destruct (row_exists c batch hs b Hc Hb) as [cb Hcb].
    exists xb, hb, cb. specialize (Hrows b xb hb cb Hxb Hhb Hcb).
    injection Hrows as Hnhb Hncb _ _ _. split_and!; try done.
    unfold magnitude_below, strictly_within in Hrange.
    rewrite Forall_lookup in Hrange. exact (Hrange b cb Hcb). }
  unfold magnitude_below, strictly_within. split.
  - apply (tensor_within_rows _ _ batch (has_shape_length _ _ _ Hnh)).
    intros b Hb. destruct (Hsample b Hb) as (xb & hb & cb & _ & H & _).
    eexists. split; [exact H|]. apply coupled_next_h_range.
  - apply (tensor_within_rows _ _ batch (has_shape_length _ _ _ Hnc)).
    intros b Hb. destruct (Hsample b Hb) as (xb & hb & cb & Hcb & _ & H).
    eexists. split; [exact H|]. unfold Published.coupled_next_c.
    apply convex_rows_bound;
      auto using coupled_f_range, coupled_c_tilde_range.
Qed.

Lemma coupled_cell_state_never_grows_witness :
  let self := VisualizeCoupledLSTMCell.init 1 1 (fun _ _ _ => 1%R) in
  exists next_h next_c gates,
    VisualizeCoupledLSTMCell.forward self [[2%R]] (Some ([[0%R]], [[3%R]]))
    = Ok (next_h, next_c, gates) /\
    strictly_within (-1) 1 next_h /\ magnitude_below 4 next_c.
Proof.
  intros self.
  apply (coupled_cell_state_never_grows self [[2%R]] [[0%R]] [[3%R]] 1 4);
    try (split; [reflexivity | repeat constructor]).
  - lra.
  - repeat constructor; simpl; lra.
Defined.

(** ** The logits and the samples of a batch *)

Lemma linear_forward_rows (self : Linear.t) (x : Tensor)
  (batch in_features out_features : nat) :
  has_shape (Linear.weight self) out_features in_features ->
  length (Linear.bias self) = out_features ->
  has_shape x batch in_features ->
  exists y,
    Linear.forward self x = Ok y /\ has_shape y batch out_features /\
    forall (b : nat) (xb : list R),
      x !! b = Some xb ->
      y !! b = Some (affine (Linear.weight self) (Linear.bias self) xb).
Proof.
  intros Hw Hb Hx. unfold Linear.forward.
  destruct (linear_ok x _ _ _ _ Hx Hw) as [-> [Hlen Hrows]].
  unfold bind at 1. cbv beta iota.
  replace (forallb _ _) with true.
  - eexists. split; [reflexivity|]. split.
    + split; [by rewrite length_map|].
      apply Forall_fmap. eapply Forall_impl; [exact Hrows|].
      intros r Hr. simpl in *. rewrite length_zip_with. lia.
    + intros b xb Hxb. rewrite list_lookup_fmap.
      rewrite (row_linear x _ b xb Hxb). reflexivity.
  - symmetry. apply forallb_forall. intros r Hr.
    apply bool_decide_eq_true_2. rewrite Forall_forall in Hrows.
    rewrite Hb. apply Hrows. by apply list_elem_of_In.
Qed.

Lemma forward_full_rows (self : VisualizeInternalGates.t) (t : IndexTensor) :
  let cell := VisualizeInternalGates.rnn_model self in
  let classifier := VisualizeInternalGates.classifier self in
  let W_f := VisualizeCoupledLSTMCell.W_f cell in
  let W_o := VisualizeCoupledLSTMCell.W_o cell in
  let W_c := VisualizeCoupledLSTMCell.W_c cell in
  checkpoint_architecture self ->
  index_tensor_wf t -> tensor_dtype t = int64 ->
  Forall (Forall (fun i => i < CKPT_VOCABULARY_SIZE)) (entries t) ->
  1 <= shape1 t ->
  exists (logits : Tensor) (signals : list GateSignals),
    VisualizeInternalGates.forward self t = Ok (logits, outputs_of signals) /\
    has_shape logits (shape0 t) CKPT_VOCABULARY_SIZE /\
    length signals = shape1 t /\
    Forall (fun g : GateSignals =>
              has_shape g.1.1 (shape0 t) CKPT_HIDDEN_SIZE /\
              has_shape g.1.2 (shape0 t) CKPT_HIDDEN_SIZE /\
              has_shape g.2 (shape0 t) CKPT_HIDDEN_SIZE) signals /\
    forall (b : nat) (indices : list nat),
      entries t !! b = Some indices ->
      logits !! b
      = Some (affine (Linear.weight classifier) (Linear.bias classifier)
                (Published.coupled_final W_f W_o W_c (embedded self indices)
                   (replicate CKPT_HIDDEN_SIZE 0%R)
                   (replicate CKPT_HIDDEN_SIZE 0%R)).1) /\
      map (fun g : GateSignals => (g.1.1 !! b, g.1.2 !! b, g.2 !! b)) signals
      = map (fun s => (Some s.1.1, Some s.1.2, Some s.2))
          (Published.coupled_signals W_f W_o W_c (embedded self indices)
             (replicate CKPT_HIDDEN_SIZE 0%R)
             (replicate CKPT_HIDDEN_SIZE 0%R)).
Proof.
  intros cell classifier W_f W_o W_c (Hemb & Hins & Hhs & Hcell & Hcw & Hcb)
    Hwf Hdtype Hrange Hsteps.
  subst W_f W_o W_c. unfold cell, classifier in *. clear cell classifier.
  unfold VisualizeInternalGates.forward.
  destruct (embedding_forward_total _ t _ _ Hemb Hwf Hdtype Hrange)
    as [-> Hdata].
  unfold bind at 1. cbv beta iota zeta.
  set (data := map _ (entries t)) in *.
  rewrite <- Hins in Hdata.
  destruct (shape1 t) as [|m] eqn:HT; [lia|].
  change (seq 0 (S m)) with (0 :: seq 1 m).
  rewrite (steps_loop_from_None self data (shape0 t) (S m) Hdata); [|lia].
  change (0 :: seq 1 m) with (seq 0 (S m)).
  destruct (steps_loop_rows self Hcell data (shape0 t) (S m) Hdata
              (seq 0 (S m))) with
      (h := torch.zeros (shape0 t)
              (VisualizeCoupledLSTMCell.hidden_size
                 (VisualizeInternalGates.rnn_model self)))
      (c := torch.zeros (shape0 t)
              (VisualizeCoupledLSTMCell.hidden_size
                 (VisualizeInternalGates.rnn_model self)))
      (internals := @nil GateSignals)
    as (h' & c' & signals & Hloop & Hh' & Hc' & Hlen & Hshapes & Hrows);
    try apply has_shape_zeros.
  { apply Forall_seq. intros i Hi. lia. }
  rewrite Hloop. unfold bind at 1. cbv beta iota.
  rewrite Hhs in Hh'.
  destruct (linear_forward_rows _ h' _ _ _ Hcw Hcb Hh')
    as (logits & Hlin & Hlogits & Hlrows).
  cbn [fst app]. rewrite Hlin. unfold bind at 1. cbv beta iota.
  rewrite length_seq in Hlen.
  destruct signals as [|g signals]; [discriminate Hlen|].
  exists logits, (g :: signals).
  split_and!; try done.
  - by rewrite Hhs in Hshapes.
  - intros b indices Hb.
    assert (Hrow : data !! b = Some (embedded self indices)).
    { unfold data. by rewrite list_lookup_fmap, Hb. }
    assert (Hlt : b < shape0 t).
    { destruct Hwf as [<- _]. by eapply lookup_lt_Some. }
    pose proof (zeros_lookup (shape0 t)
                  (VisualizeCoupledLSTMCell.hidden_size
                     (VisualizeInternalGates.rnn_model self)) b Hlt) as Hz.
    destruct (Hrows b _ _ _ Hrow Hz Hz) as (Hfinal & _ & Hsig).
    rewrite Hhs in Hsig, Hfinal.
    assert (Hlenrow : length (embedded self indices) = S m).
    { unfold embedded. rewrite length_map. destruct Hwf as [_ Hcols].
      rewrite Forall_lookup in Hcols. rewrite <- HT. by eapply Hcols. }
    rewrite <- Hlenrow, map_nth_seq_id in Hsig, Hfinal.
    split; [|exact Hsig]. exact (Hlrows b _ Hfinal).
Qed.

(** X7.  The logits that [forward] returns for a sample are the classifier's
    [W·h + bias] of the hidden state [h] that the coupled recurrence,
    started from the zero state, reaches after the last token of that
    sample. *)
Theorem logits_read_the_last_hidden_state (e : Entropy) (t : IndexTensor) :
  let model := VisualizeInternalGates.init e in
  let cell := VisualizeInternalGates.rnn_model model in
  let classifier := VisualizeInternalGates.classifier model in
  index_tensor_wf t -> tensor_dtype t = int64 ->
  Forall (Forall (fun i => i < 82)) (entries t) ->
  1 <= shape1 t ->
  exists (logits : Tensor) (outputs : gmap string (list Tensor)),
    VisualizeInternalGates.forward model t = Ok (logits, outputs) /\
    forall (b : nat) (indices : list nat),
      entries t !! b = Some indices ->
      let last :=
        Published.coupled_final (VisualizeCoupledLSTMCell.W_f cell)
          (VisualizeCoupledLSTMCell.W_o cell)
          (VisualizeCoupledLSTMCell.W_c cell) (embedded model indices)
          (replicate 128 0%R) (replicate 128 0%R) in
      logits !! b
      = Some (Published.vadd
                (Published.matvec (Linear.weight classifier) last.1)
                (Linear.bias classifier)).
Proof.
  intros model cell classifier Hwf Hdtype Hrange Hsteps.
  destruct (forward_full_rows model t (init_architecture e) Hwf Hdtype
              Hrange Hsteps)
    as (logits & signals & Hrun & _ & _ & _ & Hrows).
  exists logits, (outputs_of signals). split; [exact Hrun|].
  intros b indices Hb. destruct (Hrows b indices Hb) as [Hlogits _].
  exact Hlogits.
Qed.

Lemma logits_read_the_last_hidden_state_witness :
  let model := VisualizeInternalGates.init sample_entropy in
  let cell := VisualizeInternalGates.rnn_model model in
  let classifier := VisualizeInternalGates.classifier model in
  exists (logits : Tensor) (outputs : gmap string (list Tensor)),
    VisualizeInternalGates.forward model two_tokens = Ok (logits, outputs) /\
    forall (b : nat) (indices : list nat),
      entries two_tokens !! b = Some indices ->
      let last :=
        Published.coupled_final (VisualizeCoupledLSTMCell.W_f cell)
          (VisualizeCoupledLSTMCell.W_o cell)
          (VisualizeCoupledLSTMCell.W_c cell) (embedded model indices)
          (replicate 128 0%R) (replicate 128 0%R) in
      logits !! b
      = Some (Published.vadd
                (Published.matvec (Linear.weight classifier) last.1)
                (Linear.bias classifier)).
Proof.
  apply (logits_read_the_last_hidden_state sample_entropy two_tokens).
  - split; [reflexivity|]. repeat constructor.
  - reflexivity.
  - repeat constructor.
  - simpl. lia.
Defined.

Lemma signals_of_single_row (signals : list GateSignals)
  (published : list (list R * list R * list R)) :
  map (fun g : GateSignals => (g.1.1 !! 0, g.1.2 !! 0, g.2 !! 0))
    (map (fun s : list R * list R * list R => ([s.1.1], [s.1.2], [s.2]))
       published)
  = map (fun s => (Some s.1.1, Some s.1.2, Some s.2)) published.
Proof. rewrite map_map. by apply map_ext. Qed.

(** X8.  [forward] treats the samples of a batch independently: the logits
    and the gate signals of sample [b] are those that [forward] returns for
    the batch made of that sample alone. *)
Theorem forward_treats_samples_independently
  (e : Entropy) (t : IndexTensor) (b : nat) (indices : list nat) :
  let model := VisualizeInternalGates.init e in
  index_tensor_wf t -> tensor_dtype t = int64 ->
  Forall (Forall (fun i => i < 82)) (entries t) ->
  1 <= shape1 t ->
  entries t !! b = Some indices ->
  exists (logits alone_logits : Tensor)
         (outputs alone_outputs : gmap string (list Tensor)),
    VisualizeInternalGates.forward model t = Ok (logits, outputs) /\
    VisualizeInternalGates.forward model (batch_of indices)
    = Ok (alone_logits, alone_outputs) /\
    logits !! b = alone_logits !! 0 /\
    forall gate : string,
      gate ∈ gate_names ->
      exists signals alone_signals : list Tensor,
        outputs !! gate = Some signals /\
        alone_outputs !! gate = Some alone_signals /\
        map (fun s : Tensor => s !! b) signals
        = map (fun s : Tensor => s !! 0) alone_signals.
Proof.
  intros model Hwf Hdtype Hrange Hsteps Hb.
  destruct (forward_full_rows model t (init_architecture e) Hwf Hdtype
              Hrange Hsteps)
    as (logits & signals & Hrun & _ & _ & _ & Hrows).
  destruct (Hrows b indices Hb) as [Hlogits Hsig].
  assert (Hlen : length indices = shape1 t).
  { destruct Hwf as [_ Hcols]. rewrite Forall_lookup in Hcols.
    by eapply Hcols. }
  assert (Hrange' : Forall (fun i => i < 82) indices).
  { rewrite Forall_lookup in Hrange. by eapply Hrange. }
  destruct (forward_full_rows model (batch_of indices) (init_architecture e))
    as (logits' & signals' & Hrun' & _ & _ & _ & Hrows').
  { split; [reflexivity|]. by repeat constructor. }
  { destruct indices; [simpl in Hlen; lia|reflexivity]. }
  { by repeat constructor. }
  { simpl. lia. }
  destruct (Hrows' 0 indices eq_refl) as [Hlogits' Hsig'].
  exists logits, logits', (outputs_of signals), (outputs_of signals').
  split; [exact Hrun|]. split; [exact Hrun'|].
  split; [by rewrite Hlogits, Hlogits'|].
  rewrite <- Hsig' in Hsig. clear Hsig' Hrows Hrows' Hlogits Hlogits'.
  intros gate Hgate. unfold gate_names in Hgate.
  rewrite !elem_of_cons in Hgate.
  destruct Hgate as [->|[->|[->|Hnil]]]; [| | |by apply elem_of_nil in Hnil].
  - eexists _, _. split; [reflexivity|]. split; [reflexivity|].
    apply (f_equal (map (fun p : option (list R) * option (list R)
                                 * option (list R) => p.1.1))) in Hsig.
    by rewrite !map_map in *.
  - eexists _, _. split; [reflexivity|]. split; [reflexivity|].
    apply (f_equal (map (fun p : option (list R) * option (list R)
                                 * option (list R) => p.1.2))) in Hsig.
    by rewrite !map_map in *.
  - eexists _, _. split; [reflexivity|]. split; [reflexivity|].
    apply (f_equal (map (fun p : option (list R) * option (list R)
                                 * option (list R) => p.2))) in Hsig.
    by rewrite !map_map in *.
Qed.

Lemma forward_treats_samples_independently_witness :
  let model := VisualizeInternalGates.init sample_entropy in
  exists (logits alone_logits : Tensor)
         (outputs alone_outputs : gmap string (list Tensor)),
    VisualizeInternalGates.forward model two_tokens = Ok (logits, outputs) /\
    VisualizeInternalGates.forward model (batch_of [1; 1])
    = Ok (alone_logits, alone_outputs) /\
    logits !! 0 = alone_logits !! 0 /\
    forall gate : string,
      gate ∈ gate_names ->
      exists signals alone_signals : list Tensor,
        outputs !! gate = Some signals /\
        alone_outputs !! gate = Some alone_signals /\
        map (fun s : Tensor => s !! 0) signals
        = map (fun s : Tensor => s !! 0) alone_signals.
Proof.
  apply (forward_treats_samples_independently sample_entropy two_tokens 0
           [1; 1]).
  - split; [reflexivity|]. repeat constructor.
  - reflexivity.
  - repeat constructor.
  - simpl. lia.
  - reflexivity.
Defined.

(** ** Inputs that the script cannot replay *)

Lemma mapM_cases {A B : Type} (g : A -> result B) (e : exn) (l : list A) :
  Forall (fun a => (exists b, g a = Ok b) \/ g a = Raise e) l ->
  (exists bs, mapM g l = Ok bs) \/ mapM g l = Raise e.
Proof.
  induction 1 as [|a l [ [b Hb] | Hraise ] _ IH].
  - left. by exists [].
  - cbn [mapM]. rewrite Hb. unfold bind at 1. cbv beta iota.
    destruct IH as [ [bs ->] | -> ]; [left; by exists (b :: bs)|by right].
  - right. cbn [mapM]. by rewrite Hraise.
Qed.

Lemma mapM_raise {A B : Type} (g : A -> result B) (e : exn) (l : list A) :
  Forall (fun a => (exists b, g a = Ok b) \/ g a = Raise e) l ->
  Exists (fun a => g a = Raise e) l ->
  mapM g l = Raise e.
Proof.
  induction 1 as [|a l [ [b Hb] | Hraise ] _ IH]; intros Hsome.
  - inversion Hsome.
  - cbn [mapM]. rewrite Hb. unfold bind at 1. cbv beta iota.
    inversion Hsome as [? ? Hhere|? ? Hlater]; subst; [congruence|].
    by rewrite (IH Hlater).
  - cbn [mapM]. by rewrite Hraise.
Qed.

Lemma item_cases {A : Type} (l : list A) (i : nat) :
  (exists a, item l i = Ok a) \/ item l i = Raise IndexError.
Proof. unfold item. destruct (l !! i) as [a|]; [left; by exists a|by right]. Qed.

Lemma item_raise {A : Type} (l : list A) (i : nat) :
  length l <= i -> item l i = Raise IndexError.
Proof. intros Hi. unfold item. by rewrite lookup_ge_None_2. Qed.

Lemma embedding_forward_raise (self : Embedding.t) (t : IndexTensor) :
  tensor_dtype t = int64 ->
  Exists (Exists (fun i => length (Embedding.weight self) <= i)) (entries t) ->
  Embedding.forward self t = Raise IndexError.
Proof.
  intros Hdtype Hsome. unfold Embedding.forward. rewrite Hdtype.
  apply mapM_raise.
  - apply Forall_forall. intros row _. apply mapM_cases.
    apply Forall_forall. intros i _. apply item_cases.
  - eapply Exists_impl; [exact Hsome|]. intros row Hrow. cbv beta in *.
    apply mapM_raise.
    + apply Forall_forall. intros i _. apply item_cases.
    + eapply Exists_impl; [exact Hrow|]. intros i Hi. by apply item_raise.
Qed.

(** X9.  The model has 82 embedding rows: on a batch that holds an index of
    82 or more, [forward] raises [IndexError], whatever the other indices
    and the shape of the batch are. *)
Theorem forward_rejects_index_beyond_embedding
  (e : Entropy) (t : IndexTensor) :
  tensor_dtype t = int64 ->
  Exists (Exists (fun i => 82 <= i)) (entries t) ->
  VisualizeInternalGates.forward (VisualizeInternalGates.init e) t
  = Raise IndexError.
Proof.
  intros Hdtype Hsome. unfold VisualizeInternalGates.forward.
  rewrite embedding_forward_raise; [reflexivity|exact Hdtype|].
  destruct (init_architecture e) as [[Hrows _] _]. rewrite Hrows.
  exact Hsome.
Qed.

Lemma forward_rejects_index_beyond_embedding_witness :
  VisualizeInternalGates.forward (VisualizeInternalGates.init sample_entropy)
    {| tensor_dtype := int64; shape0 := 1; shape1 := 2; entries := [[1; 82]] |}
  = Raise IndexError.
Proof.
  apply forward_rejects_index_beyond_embedding.
  - reflexivity.
  - apply Exists_cons_hd, Exists_cons_tl, Exists_cons_hd. simpl. lia.
Defined.

Lemma batches_loop_app (model : VisualizeInternalGates.t)
  (dataset : VisualizeWarAndPeaceDataset.t) (steps steps' : list nat)
  (saved : list Figure) :
  batches_loop model dataset (steps ++ steps') saved
  = match batches_loop model dataset steps saved with
    | (saved', Ok _) => batches_loop model dataset steps' saved'
    | (saved', Raise e) => (saved', Raise e)
    end.
Proof.
  revert saved. induction steps as [|step steps IH]; intros saved.
  - reflexivity.
  - cbn [app batches_loop].
    destruct (DataLoader_fetch dataset step) as [[sequences labels]|e];
      [|reflexivity].
    destruct (VisualizeInternalGates.forward model sequences)
      as [[logits outputs]|e]; [|reflexivity].
    destruct (gates_loop dataset step sequences outputs gate_names saved)
      as [saved' [[]|e]]; [apply IH|reflexivity].
Qed.

Lemma fetch_empty_line (dataset : VisualizeWarAndPeaceDataset.t) (i : nat) :
  VisualizeWarAndPeaceDataset.data dataset !! i = Some [] ->
  DataLoader_fetch dataset i = Ok (batch_of [], [(-1)%Z]).
Proof.
  intros Hline. unfold DataLoader_fetch, VisualizeWarAndPeaceDataset.getitem.
  by rewrite (py_list_get_nat _ _ _ Hline).
Qed.

Lemma forward_float64 (model : VisualizeInternalGates.t) (t : IndexTensor) :
  tensor_dtype t = float64 ->
  VisualizeInternalGates.forward model t = Raise RuntimeError.
Proof.
  intros Hdtype. unfold VisualizeInternalGates.forward, Embedding.forward.
  by rewrite Hdtype.
Qed.

Lemma char2index_None (vocabulary file_text : list pychar) (x : pychar) :
  x ∉ vocabulary ->
  VisualizeWarAndPeaceDataset.char2index
    (VisualizeWarAndPeaceDataset.init vocabulary file_text) !! x = None.
Proof.
  intros Hout.
  destruct (VisualizeWarAndPeaceDataset.char2index _ !! x) as [i|] eqn:Hi;
    [|reflexivity].
  apply char2index_Some in Hi. destruct Hout.
  by eapply list_elem_of_lookup_2.
Qed.

Lemma dict_get_cases `{Countable K} {V : Type} (d : gmap K V) (k : K) :
  (exists v, dict_get d k = Ok v) \/ dict_get d k = Raise KeyError.
Proof.
  unfold dict_get. destruct (d !! k) as [v|]; [left; by exists v|by right].
Qed.

Lemma fetch_unknown_character (vocabulary file_text : list pychar) (i : nat)
  (line : list pychar) :
  let dataset := VisualizeWarAndPeaceDataset.init vocabulary file_text in
  VisualizeWarAndPeaceDataset.data dataset !! i = Some line ->
  Exists (fun x => x ∉ vocabulary) line ->
  DataLoader_fetch dataset i = Raise KeyError.
Proof.
  intros dataset Hline Hsome.
  unfold DataLoader_fetch, VisualizeWarAndPeaceDataset.getitem.
  rewrite (py_list_get_nat _ _ _ Hline). unfold bind at 2. cbv beta iota.
  rewrite (mapM_raise _ KeyError); [reflexivity| |].
  - apply Forall_forall. intros x _. apply dict_get_cases.
  - eapply Exists_impl; [exact Hsome|]. intros x Hx. cbv beta in *.
    unfold dict_get, dataset. by rewrite char2index_None.
Qed.

Lemma replayable_prefix_steps (vocabulary : list pychar)
  (lines : list (list pychar)) (i : nat) :
  replayable vocabulary (take i lines) -> i <= length lines ->
  Forall (fun step =>
            exists line, lines !! step = Some line /\
                         line <> [] /\ Forall (fun x => x ∈ vocabulary) line)
    (seq 0 i).
Proof.
  intros Hlines Hi. apply Forall_seq. intros j Hj.
  destruct (lookup_lt_is_Some_2 lines j) as [line Hline]; [lia|].
  exists line. split; [done|].
  unfold replayable in Hlines. rewrite Forall_lookup in Hlines.
  apply (Hlines j line). rewrite lookup_take_lt by lia. exact Hline.
Qed.

Lemma run_to_line (model : VisualizeInternalGates.t)
  (vocabulary file_text : list pychar) (i : nat) (line : list pychar) :
  let dataset := VisualizeWarAndPeaceDataset.init vocabulary file_text in
  let lines := VisualizeWarAndPeaceDataset.data dataset in
  checkpoint_architecture model ->
  length vocabulary <= CKPT_VOCABULARY_SIZE ->
  replayable vocabulary (take i lines) ->
  lines !! i = Some line ->
  exists figures : list Figure,
    batches_loop model dataset (seq 0 (length lines)) []
    = batches_loop model dataset (seq i (length lines - i)) figures /\
    map path figures
    = flat_map (fun j => map (file_name j) gate_names) (seq 0 i) /\
    length figures = 3 * i.
Proof.
  intros dataset lines Harch Hsize Hlines Hline.
  assert (Hi : i < length lines) by by eapply lookup_lt_Some.
  destruct (batches_loop_total model vocabulary file_text Harch Hsize
              (seq 0 i) [])
    as (groups & Hloop & Hgroups).
  { apply replayable_prefix_steps; [exact Hlines|exact (Nat.lt_le_incl _ _ Hi)]. }
  exists (concat groups).
  pose proof (sequence_figures_paths _ _ _ _ Hgroups) as Hpaths.
  split_and!.
  - replace (length lines) with (i + (length lines - i)) at 1 by lia.
    rewrite seq_app, batches_loop_app. fold dataset in Hloop.
    by rewrite Hloop.
  - exact Hpaths.
  - rewrite <- (length_map path), Hpaths.
    rewrite length_three_per_step by done. by rewrite length_seq.
Qed.

(** X10.  The run stops at the first line that it cannot replay.  When the
    lines before line [i] are non-empty and written in the vocabulary, and
    line [i] is empty or holds a character that is not in the vocabulary,
    the script raises [RuntimeError] (empty line) or [KeyError] (unknown
    character); it has then written the three figures of each of the [i]
    lines before, in order, and no other figure. *)
Theorem run_stops_at_first_bad_line
  (checkpoint : Checkpoint) (file_text : list pychar) (entropy : Entropy)
  (i : nat) (line : list pychar) :
  let vocabulary := ckpt_vocabulary checkpoint in
  let dataset := VisualizeWarAndPeaceDataset.init vocabulary file_text in
  let lines := VisualizeWarAndPeaceDataset.data dataset in
  length vocabulary <= 82 ->
  replayable vocabulary (take i lines) ->
  lines !! i = Some line ->
  line = [] \/ Exists (fun x => x ∉ vocabulary) line ->
  exists figures : list Figure,
    war_and_peace_visualizer checkpoint file_text entropy
    = (figures,
       Raise (match line with [] => RuntimeError | _ :: _ => KeyError end)) /\
    map path figures
    = flat_map (fun j => map (file_name j) gate_names) (seq 0 i) /\
    length figures = 3 * i.
Proof.
  intros vocabulary dataset lines. subst lines dataset vocabulary.
  intros Hsize Hlines Hline Hbad.
  destruct (run_to_line (VisualizeInternalGates.init entropy)
              (ckpt_vocabulary checkpoint) file_text i line
              (init_architecture entropy) Hsize Hlines Hline)
    as (figures & Hrun & Hpaths & Hlen).
  exists figures. split; [|by split].
  unfold war_and_peace_visualizer, VisualizeWarAndPeaceDataset.len.
  cbv zeta. rewrite Hrun.
  assert (Hi : i < length (VisualizeWarAndPeaceDataset.data
                             (VisualizeWarAndPeaceDataset.init
                                (ckpt_vocabulary checkpoint) file_text)))
    by by eapply lookup_lt_Some.
  set (dataset := VisualizeWarAndPeaceDataset.init
                    (ckpt_vocabulary checkpoint) file_text) in *.
  replace (length (VisualizeWarAndPeaceDataset.data dataset) - i)
    with (S (length (VisualizeWarAndPeaceDataset.data dataset) - S i))
    by lia.
  cbn [seq batches_loop].
  destruct Hbad as [->|Hsome].
  - rewrite (fetch_empty_line dataset i Hline).
    by rewrite forward_float64.
  - unfold dataset.
    rewrite (fetch_unknown_character _ file_text i line Hline Hsome).
    destruct line; [inversion Hsome|reflexivity].
Qed.

Lemma run_stops_at_first_bad_line_witness :
  exists figures : list Figure,
    war_and_peace_visualizer sample_checkpoint [98; 97; 10; 10; 97]%N
      sample_entropy
    = (figures, Raise RuntimeError) /\
    map path figures
    = flat_map (fun j => map (file_name j) gate_names) (seq 0 1) /\
    length figures = 3 * 1.
Proof.
  apply (run_stops_at_first_bad_line sample_checkpoint
           [98; 97; 10; 10; 97]%N sample_entropy 1 []).
  - simpl. lia.
  - unfold replayable. vm_compute. repeat constructor; discriminate.
  - reflexivity.
  - by left.
Defined.

(** ** The lines of the dataset *)

Lemma split_nonempty (sep : pychar) (s : list pychar) : split sep s <> [].
Proof.
  destruct s as [|c s]; [done|]. cbn [split].
  case_bool_decide; [done|]. by destruct (split sep s).
Qed.

Lemma join_split (sep : pychar) (s : list pychar) :
  join sep (split sep s) = s.
Proof.
  induction s as [|c s IH]; [done|]. cbn [split].
  pose proof (split_nonempty sep s) as Hne.
  destruct (split sep s) as [|line lines]; [done|].
  case_bool_decide as Hc.
  - subst c. change (sep :: join sep (line :: lines) = sep :: s).
    by rewrite IH.
  - destruct lines as [|line' lines].
    + cbn [join] in *. by rewrite IH.
    + change ((c :: line) ++ sep :: join sep (line' :: lines) = c :: s).
      by rewrite <- IH.
Qed.

Lemma split_no_separator (sep : pychar) (s : list pychar) :
  Forall (fun line => sep ∉ line) (split sep s).
Proof.
  induction s as [|c s IH].
  - repeat constructor. apply not_elem_of_nil.
  - cbn [split]. case_bool_decide as Hc.
    + constructor; [apply not_elem_of_nil|exact IH].
    + destruct (split sep s) as [|line lines].
      * repeat constructor. rewrite list_elem_of_singleton. congruence.
      * inversion IH as [|? ? Hline Hlines]; subst.
        constructor; [|exact Hlines]. rewrite elem_of_cons.
        intros [Heq|Hin]; [congruence|by apply Hline].
Qed.

Lemma split_join (sep : pychar) (lines : list (list pychar)) :
  lines <> [] -> Forall (fun line => sep ∉ line) lines ->
  split sep (join sep lines) = lines.
Proof.
  intros Hne Hlines. induction Hlines as [|line rest Hline Hrest IH]; [done|].
  cbn [join]. destruct rest as [|line' rest].
  - clear IH Hrest Hne. induction line as [|c line IHline]; [done|].
    cbn [split]. rewrite bool_decide_eq_false_2.
    + rewrite IHline; [done|]. intros Hin. apply Hline. by right.
    + intros ->. apply Hline. by left.
  - specialize (IH ltac:(done)). clear Hne Hrest.
    induction line as [|c line IHline].
    + cbn [app split]. rewrite bool_decide_eq_true_2 by done. by rewrite IH.
    + cbn [app split]. rewrite bool_decide_eq_false_2.
      * rewrite IHline; [done|]. intros Hin. apply Hline. by right.
      * intros ->. apply Hline. by left.
Qed.

(** X11.  The dataset cuts the stripped text at its newlines and nowhere
    else: its lines, joined again by newlines, are the stripped text, no
    line holds a newline, and there is always at least one line.  Cutting
    is the inverse of joining: any non-empty list of lines without newlines
    is what [split] makes of its join. *)
Theorem dataset_lines_are_the_stripped_text
  (vocabulary file_text : list pychar) :
  let dataset := VisualizeWarAndPeaceDataset.init vocabulary file_text in
  join newline (VisualizeWarAndPeaceDataset.data dataset) = strip file_text /\
  Forall (fun line => newline ∉ line)
    (VisualizeWarAndPeaceDataset.data dataset) /\
  1 <= VisualizeWarAndPeaceDataset.len dataset /\
  forall lines : list (list pychar),
    lines <> [] -> Forall (fun line => newline ∉ line) lines ->
    split newline (join newline lines) = lines.
Proof.
  intros dataset. unfold dataset, VisualizeWarAndPeaceDataset.len.
  cbn [VisualizeWarAndPeaceDataset.data VisualizeWarAndPeaceDataset.init].
  split_and!.
  - apply join_split.
  - apply split_no_separator.
  - pose proof (split_nonempty newline (strip file_text)).
    destruct (split newline (strip file_text)); [done|simpl; lia].
  - apply split_join.
Qed.

Lemma lstrip_blank (s : list pychar) :
  Forall (fun c => is_space c = true) s -> lstrip s = [].
Proof.
  induction 1 as [|c s Hc _ IH]; [done|]. cbn [lstrip]. by rewrite Hc.
Qed.

Lemma strip_blank (s : list pychar) :
  Forall (fun c => is_space c = true) s -> strip s = [].
Proof. intros Hs. unfold strip. by rewrite (lstrip_blank s Hs). Qed.

(** X12.  A text file that is empty, or holds white space only, still gives
    a dataset of one line, the empty line; the script then raises
    [RuntimeError] at that line and writes no figure. *)
Theorem blank_text_raises_before_any_figure
  (checkpoint : Checkpoint) (file_text : list pychar) (entropy : Entropy) :
  let dataset :=
    VisualizeWarAndPeaceDataset.init (ckpt_vocabulary checkpoint) file_text in
  Forall (fun c => is_space c = true) file_text ->
  VisualizeWarAndPeaceDataset.data dataset = [[]] /\
  VisualizeWarAndPeaceDataset.len dataset = 1 /\
  war_and_peace_visualizer checkpoint file_text entropy
  = ([], Raise RuntimeError).
Proof.
  intros dataset Hblank.
  assert (Hdata : VisualizeWarAndPeaceDataset.data dataset = [[]]).
  { unfold dataset.
    cbn [VisualizeWarAndPeaceDataset.data VisualizeWarAndPeaceDataset.init].
    by rewrite (strip_blank file_text Hblank). }
  split; [exact Hdata|].
  unfold war_and_peace_visualizer, VisualizeWarAndPeaceDataset.len.
  cbv zeta. fold dataset. rewrite Hdata. split; [reflexivity|].
  cbn [length seq batches_loop].
  rewrite (fetch_empty_line dataset 0) by by rewrite Hdata.
  by rewrite forward_float64.
Qed.

Lemma blank_text_raises_before_any_figure_witness :
  let dataset :=
    VisualizeWarAndPeaceDataset.init (ckpt_vocabulary sample_checkpoint)
      [32; 10]%N in
  VisualizeWarAndPeaceDataset.data dataset = [[]] /\
  VisualizeWarAndPeaceDataset.len dataset = 1 /\
  war_and_peace_visualizer sample_checkpoint [32; 10]%N sample_entropy
  = ([], Raise RuntimeError).
Proof.
  apply (blank_text_raises_before_any_figure sample_checkpoint [32; 10]%N
           sample_entropy).
  repeat constructor.
Defined.

(** ** Indexing the dataset *)

(** X13.  [dataset[index]] follows Python's indexing of the list of lines:
    an index outside [-len, len) raises [IndexError], and a negative index
    in that range selects the line [len + index]. *)
Theorem getitem_index_bounds
  (dataset : VisualizeWarAndPeaceDataset.t) (index : Z) :
  let n := Z.of_nat (VisualizeWarAndPeaceDataset.len dataset) in
  ((index < - n)%Z \/ (n <= index)%Z ->
   VisualizeWarAndPeaceDataset.getitem dataset index = Raise IndexError) /\
  ((- n <= index < 0)%Z ->
   VisualizeWarAndPeaceDataset.getitem dataset index
   = VisualizeWarAndPeaceDataset.getitem dataset (n + index)).
Proof.
  intros n. unfold VisualizeWarAndPeaceDataset.getitem, py_list_get.
  unfold VisualizeWarAndPeaceDataset.len in n. fold n. split.
  - intros [Hlow|Hhigh].
    + rewrite (proj2 (Z.leb_gt 0 index)) by lia.
      by rewrite (proj2 (Z.leb_gt (- n) index)) by lia.
    + rewrite (proj2 (Z.leb_le 0 index)) by lia.
      rewrite item_raise; [reflexivity|]. unfold n in Hhigh. lia.
  - intros Hneg.
    rewrite (proj2 (Z.leb_gt 0 index)) by lia.
    rewrite (proj2 (Z.leb_le (- n) index)) by lia.
    by rewrite (proj2 (Z.leb_le 0 (n + index))) by lia.
Qed.

Lemma getitem_index_bounds_witness :
  let dataset :=
    VisualizeWarAndPeaceDataset.init sample_vocabulary sample_text in
  VisualizeWarAndPeaceDataset.getitem dataset 2 = Raise IndexError /\
  VisualizeWarAndPeaceDataset.getitem dataset (-1)
  = VisualizeWarAndPeaceDataset.getitem dataset (2 + -1).
Proof.
  intros dataset. split.
  - apply (proj1 (getitem_index_bounds dataset 2)). right. vm_compute.
    discriminate.
  - apply (proj2 (getitem_index_bounds dataset (-1))). vm_compute.
    split; [discriminate|reflexivity].
Defined.

Lemma enumerate_snoc {A : Type} (l : list A) (y : A) :
  enumerate (l ++ [y]) = enumerate l ++ [(length l, y)].
Proof.
  unfold enumerate. rewrite length_app, seq_app.
  rewrite zip_with_app by (by rewrite length_seq). done.
Qed.

Lemma char2index_last (vocabulary file_text : list pychar) (x : pychar)
  (i : nat) :
  VisualizeWarAndPeaceDataset.char2index
    (VisualizeWarAndPeaceDataset.init vocabulary file_text) !! x = Some i ->
  forall j : nat, i < j -> vocabulary !! j <> Some x.
Proof.
  cbn [VisualizeWarAndPeaceDataset.char2index VisualizeWarAndPeaceDataset.init].
  revert i. induction vocabulary as [|y l IH] using rev_ind; intros i.
  - intros Hi. change ((∅ : gmap pychar nat) !! x = Some i) in Hi.
    by rewrite lookup_empty in Hi.
  - rewrite enumerate_snoc, map_app. unfold dict_comprehension.
    rewrite foldl_app. cbn [map foldl fst snd].
    destruct (decide (y = x)) as [->|Hne].
    + rewrite lookup_insert_eq. intros [= <-] j Hj.
      rewrite lookup_ge_None_2; [done|]. rewrite length_app. simpl. lia.
    + rewrite lookup_insert_ne by done. intros Hi j Hj Hlookup.
      apply lookup_snoc_Some in Hlookup as [[_ Hl]|[_ Hy]]; [|done].
      exact (IH i Hi j Hj Hl).
Qed.

Lemma mapM_Forall2 {A B : Type} (g : A -> result B) (l : list A)
  (bs : list B) :
  mapM g l = Ok bs -> Forall2 (fun a b => g a = Ok b) l bs.
Proof.
  revert bs. induction l as [|a l IH]; intros bs.
  - intros [= <-]. constructor.
  - cbn [mapM]. destruct (g a) as [b|] eqn:Hb; [|discriminate].
    unfold bind at 1. cbv beta iota.
    destruct (mapM g l) as [bs'|]; [|discriminate].
    intros [= <-]. constructor; [done|by apply IH].
Qed.

(** X14.  What [dataset[index]] returns: the label is always -1 and the
    array holds, for every character of the selected line, a position of
    that character in the vocabulary, the last one when the vocabulary
    lists the character more than once.  The array of an empty line has a
    floating point type, any other an integer type. *)
Theorem getitem_encodes_with_last_position
  (vocabulary file_text : list pychar) (index : Z) (a : ndarray) (label : Z) :
  let dataset := VisualizeWarAndPeaceDataset.init vocabulary file_text in
  VisualizeWarAndPeaceDataset.getitem dataset index = Ok (a, label) ->
  label = (-1)%Z /\
  exists line : list pychar,
    py_list_get (VisualizeWarAndPeaceDataset.data dataset) index = Ok line /\
    array_dtype a = match line with [] => float64 | _ :: _ => int64 end /\
    Forall2 (fun x k =>
               vocabulary !! k = Some x /\
               forall j : nat, k < j -> vocabulary !! j <> Some x)
      line (array_items a).
Proof.
  intros dataset. unfold VisualizeWarAndPeaceDataset.getitem.
  destruct (py_list_get _ index) as [line|]; [|discriminate].
  unfold bind at 1. cbv beta iota.
  destruct (mapM (dict_get (VisualizeWarAndPeaceDataset.char2index dataset))
              line) as [indices|] eqn:Henc; [|discriminate].
  unfold bind. intros [= <- <-]. split; [reflexivity|].
  exists line. split; [reflexivity|].
  apply mapM_Forall2 in Henc. split.
  - destruct Henc; reflexivity.
  - cbn [array_items np_array]. eapply Forall2_impl; [exact Henc|].
    intros x k Hk. cbv beta in Hk. unfold dict_get in Hk.
    destruct (VisualizeWarAndPeaceDataset.char2index dataset !! x)
      as [k'|] eqn:Hx; [|discriminate].
    injection Hk as ->. split.
    + exact (char2index_Some vocabulary file_text x k Hx).
    + exact (char2index_last vocabulary file_text x k Hx).
Qed.

Lemma getitem_encodes_with_last_position_witness :
  let vocabulary := [97; 98; 97]%N in
  let dataset := VisualizeWarAndPeaceDataset.init vocabulary sample_text in
  VisualizeWarAndPeaceDataset.getitem dataset 0
  = Ok (np_array [1; 2], (-1)%Z) /\
  exists line : list pychar,
    py_list_get (VisualizeWarAndPeaceDataset.data dataset) 0 = Ok line /\
    array_dtype (np_array [1; 2])
    = match line with [] => float64 | _ :: _ => int64 end /\
    Forall2 (fun x k =>
               vocabulary !! k = Some x /\
               forall j : nat, k < j -> vocabulary !! j <> Some x)
      line (array_items (np_array [1; 2])).
Proof.
  intros vocabulary dataset.
  assert (Hrun : VisualizeWarAndPeaceDataset.getitem dataset 0
                 = Ok (np_array [1; 2], (-1)%Z)) by (vm_compute; reflexivity).
  split; [exact Hrun|].
  apply (getitem_encodes_with_last_position [97; 98; 97]%N sample_text 0
           (np_array [1; 2]) (-1) Hrun).
Defined.

Lemma index2char_Some (vocabulary file_text : list pychar) (i : nat)
  (x : pychar) :
  VisualizeWarAndPeaceDataset.index2char
    (VisualizeWarAndPeaceDataset.init vocabulary file_text) !! i = Some x ->
  vocabulary !! i = Some x.
Proof.
  intros Hi. apply dict_comprehension_Some in Hi.
  apply list_elem_of_fmap in Hi as ([j y] & Heq & Hin).
  injection Heq as -> ->. by apply enumerate_elem_of.
Qed.

(** X15.  When no character is listed twice in the vocabulary, the two
    dictionaries of the dataset are inverse to each other: [char2index]
    sends [x] to [i] exactly when [index2char] sends [i] to [x]. *)
Theorem dictionaries_are_inverse_without_duplicates
  (vocabulary file_text : list pychar) (x : pychar) (i : nat) :
  let dataset := VisualizeWarAndPeaceDataset.init vocabulary file_text in
  NoDup vocabulary ->
  VisualizeWarAndPeaceDataset.char2index dataset !! x = Some i <->
  VisualizeWarAndPeaceDataset.index2char dataset !! i = Some x.
Proof.
  intros dataset Hnodup. split.
  - intros Hx. apply index2char_lookup.
    exact (char2index_Some vocabulary file_text x i Hx).
  - intros Hi. apply index2char_Some in Hi.
    destruct (char2index_is_Some vocabulary file_text x) as [j Hj].
    { by eapply list_elem_of_lookup_2. }
    unfold dataset. rewrite Hj. f_equal.
    apply char2index_Some in Hj.
    exact (NoDup_lookup vocabulary j i x Hnodup Hj Hi).
Qed.

Lemma dictionaries_are_inverse_without_duplicates_witness :
  let dataset :=
    VisualizeWarAndPeaceDataset.init sample_vocabulary sample_text in
  VisualizeWarAndPeaceDataset.char2index dataset !! 98%N = Some 1 <->
  VisualizeWarAndPeaceDataset.index2char dataset !! 1 = Some 98%N.
Proof.
  apply (dictionaries_are_inverse_without_duplicates sample_vocabulary
           sample_text 98%N 1).
  apply (bool_decide_unpack (NoDup sample_vocabulary)). vm_compute. exact I.
Defined.

Lemma index2char_None (vocabulary file_text : list pychar) (i : nat) :
  length vocabulary <= i ->
  VisualizeWarAndPeaceDataset.index2char
    (VisualizeWarAndPeaceDataset.init vocabulary file_text) !! i = None.
Proof.
  intros Hi.
  destruct (VisualizeWarAndPeaceDataset.index2char _ !! i) as [x|] eqn:Hx;
    [|reflexivity].
  apply index2char_Some, lookup_lt_Some in Hx. lia.
Qed.

Lemma decode_row (vocabulary file_text : list pychar) (row : list nat) :
  let dataset := VisualizeWarAndPeaceDataset.init vocabulary file_text in
  (Forall (fun i => i < length vocabulary) row ->
   exists chars : list pychar,
     mapM (dict_get (VisualizeWarAndPeaceDataset.index2char dataset)) row
     = Ok chars /\
     Forall2 (fun i x => vocabulary !! i = Some x) row chars) /\
  (Exists (fun i => length vocabulary <= i) row ->
   mapM (dict_get (VisualizeWarAndPeaceDataset.index2char dataset)) row
   = Raise KeyError).
Proof.
  intros dataset. subst dataset. split.
  - induction 1 as [|i row Hi _ (chars & Hdec & Hchars)].
    + exists []. split; [reflexivity|constructor].
    + destruct (lookup_lt_is_Some_2 vocabulary i Hi) as [x Hx].
      exists (x :: chars). split; [|by constructor].
      cbn [mapM]. unfold dict_get at 1.
      rewrite (index2char_lookup vocabulary file_text i x Hx).
      unfold bind at 1. cbv beta iota. by rewrite Hdec.
  - intros Hsome. apply mapM_raise.
    + apply Forall_forall. intros i _. apply dict_get_cases.
    + eapply Exists_impl; [exact Hsome|]. intros i Hi. cbv beta in *.
      unfold dict_get. by rewrite index2char_None.
Qed.

(** X16.  [convert_to_chars] reads every index in [index2char].  Given an
    array, or a tensor of one row, whose indices are all below the size of
    the vocabulary, it returns the characters at these positions of the
    vocabulary; when an index is not below that size it raises [KeyError],
    and on a tensor of two or more rows it raises [TypeError]. *)
Theorem convert_to_chars_needs_known_indices
  (vocabulary file_text : list pychar) (sequence : Sequence) :
  let dataset := VisualizeWarAndPeaceDataset.init vocabulary file_text in
  (forall row : list nat,
      sequence_rows sequence = [row] ->
      (Forall (fun i => i < length vocabulary) row ->
       exists chars : list pychar,
         VisualizeWarAndPeaceDataset.convert_to_chars dataset sequence
         = Ok chars /\
         Forall2 (fun i x => vocabulary !! i = Some x) row chars) /\
      (Exists (fun i => length vocabulary <= i) row ->
       VisualizeWarAndPeaceDataset.convert_to_chars dataset sequence
       = Raise KeyError)) /\
  (2 <= length (sequence_rows sequence) ->
   VisualizeWarAndPeaceDataset.convert_to_chars dataset sequence
   = Raise TypeError).
Proof.
  intros dataset. split.
  - intros row Hrows.
    assert (Hrun :
      VisualizeWarAndPeaceDataset.convert_to_chars dataset sequence
      = mapM (dict_get (VisualizeWarAndPeaceDataset.index2char dataset)) row).
    { destruct sequence as [t|a]; cbn [sequence_rows] in Hrows.
      - unfold VisualizeWarAndPeaceDataset.convert_to_chars.
        by rewrite Hrows.
      - injection Hrows as <-. reflexivity. }
    rewrite Hrun. apply decode_row.
  - destruct sequence as [t|a]; cbn [sequence_rows].
    + unfold VisualizeWarAndPeaceDataset.convert_to_chars.
      destruct (entries t) as [|row [|row' rows]]; simpl; [lia|lia|done].
    + simpl. lia.
Qed.

Lemma convert_to_chars_needs_known_indices_witness :
  let dataset :=
    VisualizeWarAndPeaceDataset.init sample_vocabulary sample_text in
  (exists chars : list pychar,
     VisualizeWarAndPeaceDataset.convert_to_chars dataset
       (OfTensor (batch_of [1; 0])) = Ok chars /\
     Forall2 (fun i x => sample_vocabulary !! i = Some x) [1; 0] chars) /\
  VisualizeWarAndPeaceDataset.convert_to_chars dataset (OfArray (np_array [2]))
  = Raise KeyError /\
  VisualizeWarAndPeaceDataset.convert_to_chars dataset
    (OfTensor {| tensor_dtype := int64; shape0 := 2; shape1 := 1;
                 entries := [[0]; [1]] |})
  = Raise TypeError.
Proof.
  intros dataset. split_and!.
  - apply (proj1 (convert_to_chars_needs_known_indices sample_vocabulary
                    sample_text (OfTensor (batch_of [1; 0]))) [1; 0]
             eq_refl).
    repeat constructor.
  - apply (proj1 (convert_to_chars_needs_known_indices sample_vocabulary
                    sample_text (OfArray (np_array [2]))) [2] eq_refl).
    apply Exists_cons_hd. simpl. lia.
  - apply (proj2 (convert_to_chars_needs_known_indices sample_vocabulary
                    sample_text
                    (OfTensor {| tensor_dtype := int64; shape0 := 2;
                                 shape1 := 1; entries := [[0]; [1]] |}))).
    simpl. lia.
Defined.

(** ** What a heatmap shows *)

Lemma transpose_lookup (t : Tensor) (m n j : nat) :
  has_shape t m n -> 1 <= m -> j < n ->
  torch.transpose t !! j = Some (map (fun r => nth j r 0%R) t).
Proof.
  intros [Hlen Hrows] Hm Hj. destruct t as [|row rest]; [simpl in Hlen; lia|].
  unfold torch.transpose. rewrite list_lookup_fmap.
  inversion Hrows as [|? ? Hrow _]; subst.
  by rewrite lookup_seq_lt by lia.
Qed.

Lemma transpose_shape (t : Tensor) (m n : nat) :
  has_shape t m n -> 1 <= m -> has_shape (torch.transpose t) n m.
Proof.
  intros [Hlen Hrows] Hm. destruct t as [|row rest]; [simpl in Hlen; lia|].
  unfold torch.transpose. inversion Hrows as [|? ? Hrow _]; subst.
  split.
  - by rewrite length_map, length_seq.
  - apply Forall_fmap, Forall_forall. intros j _. unfold compose.
    by rewrite length_map.
Qed.

Lemma transpose_within (P : R -> Prop) (t : Tensor) (m n : nat) :
  has_shape t m n -> Forall (Forall P) t -> Forall (Forall P) (torch.transpose t).
Proof.
  intros [Hlen Hrows] Hall. destruct t as [|row rest]; [constructor|].
  unfold torch.transpose. inversion Hrows as [|? ? Hrow _]; subst.
  apply Forall_fmap, Forall_forall. intros j Hj. unfold compose.
  apply elem_of_seq in Hj. apply Forall_fmap, Forall_lookup.
  intros i r Hr. unfold compose.
  rewrite Forall_lookup in Hrows. rewrite Forall_lookup in Hall.
  pose proof (Hrows i r Hr) as Hwidth. cbv beta in Hwidth.
  pose proof (Hall i r Hr) as Hin. rewrite Forall_lookup in Hin.
  destruct (lookup_lt_is_Some_2 r j) as [v Hv]; [lia|].
  rewrite (nth_lookup_Some r j 0%R v Hv). exact (Hin j v Hv).
Qed.

Lemma concat_single_rows (states : list Tensor) (width : nat) :
  Forall (fun s => has_shape s 1 width) states ->
  concat states = map (fun s => nth 0 s []) states /\
  has_shape (concat states) (length states) width.
Proof.
  induction 1 as [|s states [Hlen Hrow] _ [IH [IHlen IHrows]]].
  - repeat split. constructor.
  - destruct s as [|row [|row' s]]; try discriminate Hlen.
    cbn [concat app map nth]. rewrite IH. split; [reflexivity|]. split.
    + simpl. by rewrite length_map.
    + rewrite <- IH. constructor; [|exact IHrows].
      by inversion Hrow.
Qed.

Lemma os_makedirs_creates (saving_dir : string) :
  saving_dir <> EmptyString -> has_nul saving_dir = false ->
  os_makedirs saving_dir = Ok tt.
Proof.
  intros Hdir Hnul. unfold os_makedirs.
  by rewrite bool_decide_eq_false_2, Hnul.
Qed.

(** X17.  The heatmap of a sequence has one row for every hidden unit and
    one column for every step: for a gate of the three names, the signals
    of one sequence (tensors of one row) and a directory that
    [os.makedirs] accepts (not the empty path, which raises
    [FileNotFoundError], and no path with a null character),
    [visualize_internals] writes a figure whose cell in row [j] and column
    [step] is the signal of unit [j] at that step; the labels are the
    sequence given, the colour scale ends at 1 and starts at -1 for the
    candidates and at 0 for the two gates. *)
Theorem heatmap_cell_is_unit_at_step
  (sequence_id : nat) (sequence : list pychar) (gate_name : string)
  (states : list Tensor) (saving_dir : string) (hidden : nat) :
  gate_name ∈ gate_names -> states <> [] ->
  Forall (fun s => has_shape s 1 hidden) states ->
  saving_dir <> EmptyString -> has_nul saving_dir = false ->
  exists figure : Figure,
    visualize_internals sequence_id sequence gate_name states saving_dir
    = Ok figure /\
    xticklabels figure = sequence /\
    vmin figure
    = (if bool_decide (gate_name = "cell_state_candidates") then (-1)%Z
       else 0%Z) /\
    vmax figure = 1%Z /\
    has_shape (cells figure) hidden (length states) /\
    forall j step : nat,
      j < hidden -> step < length states ->
      nth step (nth j (cells figure) []) 0%R
      = nth j (nth 0 (nth step states []) []) 0%R.
Proof.
  intros Hgate Hne Hshapes Hdir Hnul.
  pose proof (os_makedirs_creates saving_dir Hdir Hnul) as Hmade.
  destruct (concat_single_rows states hidden Hshapes) as [Hconcat Hshape].
  assert (Hlen : 1 <= length states) by (destruct states; [done|simpl; lia]).
  assert (Hcells : has_shape (torch.transpose (concat states)) hidden
                     (length states) /\
                   forall j step : nat,
                     j < hidden -> step < length states ->
                     nth step (nth j (torch.transpose (concat states)) []) 0%R
                     = nth j (nth 0 (nth step states []) []) 0%R).
  { split; [by apply transpose_shape|]. intros j step Hj Hstep.
    rewrite (nth_lookup_Some _ j [] _
               (transpose_lookup _ _ _ j Hshape Hlen Hj)).
    rewrite Hconcat, map_map.
    rewrite (nth_indep _ 0%R
               ((fun s : Tensor => nth j (nth 0 s []) 0%R) []))
      by by rewrite length_map.
    by rewrite (map_nth (fun s : Tensor => nth j (nth 0 s []) 0%R) states []). }
  unfold visualize_internals.
  rewrite (cat_dim0_total states 1 hidden Hne Hshapes), Hmade.
  unfold bind at 1. cbv beta iota.
  unfold gate_names in Hgate. rewrite !elem_of_cons in Hgate.
  destruct Hcells as [Hcshape Hcell].
  destruct Hgate as [->|[->|[->|Hnil]]]; [| | |by apply elem_of_nil in Hnil].
  - eexists. split; [reflexivity|]. cbn [xticklabels vmin vmax cells].
    split_and!; [reflexivity|reflexivity|reflexivity|exact Hcshape|exact Hcell].
  - eexists. split; [reflexivity|]. cbn [xticklabels vmin vmax cells].
    split_and!; [reflexivity|reflexivity|reflexivity|exact Hcshape|exact Hcell].
  - eexists. split; [reflexivity|]. cbn [xticklabels vmin vmax cells].
    split_and!; [reflexivity|reflexivity|reflexivity|exact Hcshape|exact Hcell].
Qed.

Lemma heatmap_cell_is_unit_at_step_witness :
  let states := [[[1; 2; 3]]; [[4; 5; 6]]]%R in
  exists figure : Figure,
    visualize_internals 0 [97; 98]%N "reset_signals" states "visualize/"
    = Ok figure /\
    xticklabels figure = [97; 98]%N /\
    vmin figure = 0%Z /\
    vmax figure = 1%Z /\
    has_shape (cells figure) 3 2 /\
    forall j step : nat,
      j < 3 -> step < 2 ->
      nth step (nth j (cells figure) []) 0%R
      = nth j (nth 0 (nth step states []) []) 0%R.
Proof.
  apply (heatmap_cell_is_unit_at_step 0 [97; 98]%N "reset_signals"
           [[[1; 2; 3]]; [[4; 5; 6]]]%R "visualize/" 3).
  - unfold gate_names. apply elem_of_cons. right. apply elem_of_cons. by left.
  - discriminate.
  - repeat constructor.
  - discriminate.
  - reflexivity.
Defined.

(** ** The colour scale of the heatmaps *)

Lemma signals_within_rows (signals : list GateSignals) (batch width : nat) :
  Forall (fun g : GateSignals =>
            has_shape g.1.1 batch width /\ has_shape g.1.2 batch width /\
            has_shape g.2 batch width) signals ->
  (forall b : nat, b < batch ->
     exists published : list (list R * list R * list R),
       map (fun g : GateSignals => (g.1.1 !! b, g.1.2 !! b, g.2 !! b)) signals
       = map (fun s => (Some s.1.1, Some s.1.2, Some s.2)) published /\
       Forall (fun s =>
                 Forall (fun v => (0 < v < 1)%R) s.1.1 /\
                 Forall (fun v => (0 < v < 1)%R) s.1.2 /\
                 Forall (fun v => (-1 < v < 1)%R) s.2) published) ->
  Forall (fun g : GateSignals =>
            strictly_within 0 1 g.1.1 /\ strictly_within 0 1 g.1.2 /\
            strictly_within (-1) 1 g.2) signals.
Proof.
  intros Hshapes Hrows. apply Forall_lookup. intros t g Hg.
  rewrite Forall_lookup in Hshapes.
  destruct (Hshapes t g Hg) as (Hsf & Hso & Hsc).
  assert (Hgate : forall b, b < batch -> exists s,
             (g.1.1 !! b, g.1.2 !! b, g.2 !! b)
             = (Some s.1.1, Some s.1.2, Some s.2) /\
             Forall (fun v => (0 < v < 1)%R) s.1.1 /\
             Forall (fun v => (0 < v < 1)%R) s.1.2 /\
             Forall (fun v => (-1 < v < 1)%R) s.2).
  { intros b Hlt. destruct (Hrows b Hlt) as (published & Hsig & Hall).
    apply (f_equal (fun l => l !! t)) in Hsig.
    rewrite !list_lookup_fmap, Hg in Hsig.
    destruct (published !! t) as [s|] eqn:Hs; [|discriminate].
    apply (inj Some) in Hsig.
    exists s. split; [exact Hsig|].
    rewrite Forall_lookup in Hall. exact (Hall t s Hs). }
  split_and!; apply strictly_within_rows; intros b row Hb.
  - assert (Hlt : b < batch).
    { rewrite <- (has_shape_length _ _ _ Hsf). by eapply lookup_lt_Some. }
    destruct (Hgate b Hlt) as (s & Heq & Hr & _).
    rewrite Hb in Heq. by injection Heq as -> _ _.
  - assert (Hlt : b < batch).
    { rewrite <- (has_shape_length _ _ _ Hso). by eapply lookup_lt_Some. }
    destruct (Hgate b Hlt) as (s & Heq & _ & Hr & _).
    rewrite Hb in Heq. by injection Heq as _ -> _.
  - assert (Hlt : b < batch).
    { rewrite <- (has_shape_length _ _ _ Hsc). by eapply lookup_lt_Some. }
    destruct (Hgate b Hlt) as (s & Heq & _ & _ & Hr).
    rewrite Hb in Heq. by injection Heq as _ _ ->.
Qed.

Lemma forward_signal_ranges (self : VisualizeInternalGates.t)
  (t : IndexTensor) :
  checkpoint_architecture self ->
  index_tensor_wf t -> tensor_dtype t = int64 ->
  Forall (Forall (fun i => i < CKPT_VOCABULARY_SIZE)) (entries t) ->
  1 <= shape1 t ->
  exists (logits : Tensor) (signals : list GateSignals),
    VisualizeInternalGates.forward self t = Ok (logits, outputs_of signals) /\
    length signals = shape1 t /\
    Forall (fun g : GateSignals =>
              has_shape g.1.1 (shape0 t) CKPT_HIDDEN_SIZE /\
              has_shape g.1.2 (shape0 t) CKPT_HIDDEN_SIZE /\
              has_shape g.2 (shape0 t) CKPT_HIDDEN_SIZE) signals /\
    Forall (fun g : GateSignals =>
              strictly_within 0 1 g.1.1 /\ strictly_within 0 1 g.1.2 /\
              strictly_within (-1) 1 g.2) signals.
Proof.
  intros Harch Hwf Hdtype Hrange Hsteps.
  destruct (forward_full_rows self t Harch Hwf Hdtype Hrange Hsteps)
    as (logits & signals & Hrun & _ & Hlen & Hshapes & Hrows).
  exists logits, signals. split_and!; [exact Hrun|exact Hlen|exact Hshapes|].
  apply (signals_within_rows signals (shape0 t) CKPT_HIDDEN_SIZE Hshapes).
  intros b Hb. destruct Hwf as [Hrowslen _].
  destruct (lookup_lt_is_Some_2 (entries t) b) as [indices Hindices]; [lia|].
  destruct (Hrows b indices Hindices) as [_ Hsig].
  eexists. split; [exact Hsig|]. apply coupled_signals_range.
Qed.

Lemma three_figures_of_outputs (step : nat) (line : list pychar)
  (signals signals' : list GateSignals) :
  outputs_of signals = outputs_of signals' ->
  three_figures step line signals = three_figures step line signals'.
Proof.
  intros Hout.
  assert (Hu : outputs_of signals !! "update_signals"
               = Some (map (fun g : GateSignals => g.1.1) signals))
    by reflexivity.
  assert (Hr : outputs_of signals !! "reset_signals"
               = Some (map (fun g : GateSignals => g.1.2) signals))
    by reflexivity.
  assert (Hc : outputs_of signals !! "cell_state_candidates"
               = Some (map (fun g : GateSignals => g.2) signals))
    by reflexivity.
  rewrite Hout in Hu, Hr, Hc.
  assert (Hu' : outputs_of signals' !! "update_signals"
                = Some (map (fun g : GateSignals => g.1.1) signals'))
    by reflexivity.
  assert (Hr' : outputs_of signals' !! "reset_signals"
                = Some (map (fun g : GateSignals => g.1.2) signals'))
    by reflexivity.
  assert (Hc' : outputs_of signals' !! "cell_state_candidates"
                = Some (map (fun g : GateSignals => g.2) signals'))
    by reflexivity.
  rewrite Hu in Hu'. rewrite Hr in Hr'. rewrite Hc in Hc'.
  apply (inj Some) in Hu', Hr', Hc'.
  unfold three_figures, heatmap. by rewrite Hu', Hr', Hc'.
Qed.

Lemma heatmap_fits (step : nat) (line : list pychar) (gate : string)
  (lowest : Z) (states : list Tensor) :
  states <> [] -> length states = length line ->
  Forall (fun s => has_shape s 1 CKPT_HIDDEN_SIZE) states ->
  Forall (strictly_within (IZR lowest) 1) states ->
  let figure := heatmap step line gate lowest states in
  has_shape (cells figure) 128 (length (xticklabels figure)) /\
  strictly_within (IZR (vmin figure)) (IZR (vmax figure)) (cells figure).
Proof.
  intros Hne Hlen Hshapes Hranges figure.
  destruct (concat_single_rows states CKPT_HIDDEN_SIZE Hshapes)
    as [_ Hshape].
  unfold figure, heatmap. cbn [cells xticklabels vmin vmax]. split.
  - rewrite <- Hlen. apply transpose_shape; [exact Hshape|].
    destruct states; [done|simpl; lia].
  - unfold strictly_within.
    apply (transpose_within _ _ _ _ Hshape).
    apply Forall_concat. exact Hranges.
Qed.

Lemma sequence_figures_fit (model : VisualizeInternalGates.t)
  (vocabulary file_text : list pychar) (step : nat) (figures : list Figure) :
  checkpoint_architecture model ->
  length vocabulary <= CKPT_VOCABULARY_SIZE ->
  sequence_figures model
    (VisualizeWarAndPeaceDataset.init vocabulary file_text) step figures ->
  Forall (fun figure =>
            has_shape (cells figure) 128 (length (xticklabels figure)) /\
            strictly_within (IZR (vmin figure)) (IZR (vmax figure))
              (cells figure)) figures.
Proof.
  intros Harch Hsize (line & indices & logits & signals & Hline & Henc & Hrun
                      & Hlen & ->).
  apply mapM_Forall2 in Henc.
  assert (Hlt : Forall (fun i => i < CKPT_VOCABULARY_SIZE) indices).
  { apply Forall_lookup. intros k i Hi.
    destruct (Forall2_lookup_r _ _ _ _ _ Henc Hi) as (x & _ & Hx).
    cbv beta in Hx. unfold dict_get in Hx.
    destruct (VisualizeWarAndPeaceDataset.char2index _ !! x) as [i'|] eqn:Hxi;
      [|discriminate].
    injection Hx as ->. apply char2index_Some, lookup_lt_Some in Hxi. lia. }
  assert (Hind : indices <> []).
  { intros ->. by rewrite forward_float64 in Hrun. }
  destruct (forward_signal_ranges model (batch_of indices) Harch)
    as (logits' & signals' & Hrun' & Hlen' & Hshapes & Hranges).
  { split; [reflexivity|]. by repeat constructor. }
  { destruct indices; [done|reflexivity]. }
  { by repeat constructor. }
  { destruct indices; [done|simpl; lia]. }
  rewrite Hrun' in Hrun.
  assert (Hout : outputs_of signals' = outputs_of signals).
  { exact (f_equal (fun r : result (Tensor * gmap string (list Tensor)) =>
                      match r with
                      | Ok p => p.2
                      | Raise _ => outputs_of signals'
                      end) Hrun). }
  clear Hrun.
  rewrite <- (three_figures_of_outputs step line signals' signals Hout).
  assert (Hcount : length signals' = length line).
  { rewrite Hlen'. cbn [batch_of default_collate fst shape1 array_items
                          np_array].
    symmetry. exact (Forall2_length _ _ _ Henc). }
  assert (Hsome : signals' <> []).
  { intros ->. destruct indices; [done|discriminate Hlen']. }
  change (shape0 (batch_of indices)) with 1 in Hshapes.
  unfold three_figures.
  constructor; [|constructor; [|constructor; [|constructor]]].
  - apply heatmap_fits.
    + by destruct signals'.
    + by rewrite length_map.
    + apply Forall_fmap. eapply Forall_impl; [exact Hshapes|].
      by intros g (Hg & _ & _).
    + apply Forall_fmap. eapply Forall_impl; [exact Hranges|].
      by intros g (Hg & _ & _).
  - apply heatmap_fits.
    + by destruct signals'.
    + by rewrite length_map.
    + apply Forall_fmap. eapply Forall_impl; [exact Hshapes|].
      by intros g (_ & Hg & _).
    + apply Forall_fmap. eapply Forall_impl; [exact Hranges|].
      by intros g (_ & Hg & _).
  - apply heatmap_fits.
    + by destruct signals'.
    + by rewrite length_map.
    + apply Forall_fmap. eapply Forall_impl; [exact Hshapes|].
      by intros g (_ & _ & Hg).
    + apply Forall_fmap. eapply Forall_impl; [exact Hranges|].
      by intros g (_ & _ & Hg).
Qed.

(** X18.  No value is cut off by the colour scale.  On a text that the
    script replays to the end, every figure written has 128 rows and one
    column for each character of its labels, and each of its cells lies
    strictly between the two ends [vmin] and [vmax] of the colour scale of
    that figure (in exact real arithmetic: the entries of the tensors are
    real numbers). *)
Theorem heatmaps_fit_the_colour_scale
  (checkpoint : Checkpoint) (file_text : list pychar) (entropy : Entropy) :
  let vocabulary := ckpt_vocabulary checkpoint in
  let dataset := VisualizeWarAndPeaceDataset.init vocabulary file_text in
  replayable vocabulary (VisualizeWarAndPeaceDataset.data dataset) ->
  length vocabulary <= 82 ->
  exists figures : list Figure,
    war_and_peace_visualizer checkpoint file_text entropy
    = (figures, Ok tt) /\
    Forall (fun figure =>
              has_shape (cells figure) 128 (length (xticklabels figure)) /\
              strictly_within (IZR (vmin figure)) (IZR (vmax figure))
                (cells figure)) figures.
Proof.
  intros vocabulary dataset Hlines Hsize.
  destruct (visualizer_total checkpoint file_text entropy Hlines Hsize)
    as (groups & Hrun & Hgroups).
  exists (concat groups). split; [exact Hrun|].
  apply Forall_concat.
  clear Hrun. induction Hgroups as [|step figures steps groups Hfig _ IH];
    constructor; [|exact IH].
  exact (sequence_figures_fit _ vocabulary file_text step figures
           (init_architecture entropy) Hsize Hfig).
Qed.

Lemma heatmaps_fit_the_colour_scale_witness :
  exists figures : list Figure,
    war_and_peace_visualizer sample_checkpoint sample_text sample_entropy
    = (figures, Ok tt) /\
    Forall (fun figure =>
              has_shape (cells figure) 128 (length (xticklabels figure)) /\
              strictly_within (IZR (vmin figure)) (IZR (vmax figure))
                (cells figure)) figures.
Proof.
  apply (heatmaps_fit_the_colour_scale sample_checkpoint sample_text
           sample_entropy).
  - unfold replayable. vm_compute. repeat constructor; discriminate.
  - simpl. lia.
Defined.

(** ** The files of a run that raises *)

Lemma batches_loop_prefix (model : VisualizeInternalGates.t)
  (dataset : VisualizeWarAndPeaceDataset.t) (steps : list nat)
  (saved : list Figure) :
  let all := flat_map (fun i => map (file_name i) gate_names) steps in
  exists written later : list string,
    map path (batches_loop model dataset steps saved).1
    = map path saved ++ written /\
    all = written ++ later /\
    ((batches_loop model dataset steps saved).2 = Ok tt -> later = []).
Proof.
  revert saved. induction steps as [|step steps IH]; intros saved all.
  - exists [], []. simpl. by rewrite app_nil_r.
  - unfold all. cbn [flat_map batches_loop].
    set (names := map (file_name step) gate_names).
    set (rest := flat_map (fun i => map (file_name i) gate_names) steps).
    destruct (DataLoader_fetch dataset step) as [[sequences labels]|e].
    2: { exists [], (names ++ rest). simpl. rewrite app_nil_r.
         split_and!; [done|done|discriminate]. }
    destruct (VisualizeInternalGates.forward model sequences)
      as [[logits outputs]|e].
    2: { exists [], (names ++ rest). simpl. rewrite app_nil_r.
         split_and!; [done|done|discriminate]. }
    destruct (gates_loop_paths dataset step sequences outputs gate_names
                saved) as (k & Hpaths & Hdone).
    destruct (gates_loop dataset step sequences outputs gate_names saved)
      as [saved' [[]|e]].
    + destruct (IH saved') as (written & later & Hrest & Hall & Hok).
      exists (names ++ written), later. cbn [fst] in Hpaths.
      rewrite Hrest, Hpaths, (Hdone eq_refl), <- !app_assoc.
      split_and!; [done| |exact Hok].
      fold rest in Hall. by rewrite Hall.
    + exists (map (file_name step) (take k gate_names)),
        (map (file_name step) (drop k gate_names) ++ rest).
      cbn [fst snd] in *. split_and!; [exact Hpaths| |discriminate].
      rewrite app_assoc, <- map_app. by rewrite take_drop.
Qed.

(** X19.  Whatever the checkpoint, the text and the draws of the
    constructor are, the script writes no file out of turn: the names of
    the files written are an initial segment of the list
    [S00_update_signals.png], [S00_reset_signals.png],
    [S00_cell_state_candidates.png], [S01_update_signals.png], ... of the
    three files of every line, and the whole list when the run ends without
    an exception. *)
Theorem every_run_writes_an_initial_segment
  (checkpoint : Checkpoint) (file_text : list pychar) (entropy : Entropy) :
  let dataset :=
    VisualizeWarAndPeaceDataset.init (ckpt_vocabulary checkpoint) file_text in
  let all :=
    flat_map (fun i => map (file_name i) gate_names)
      (seq 0 (VisualizeWarAndPeaceDataset.len dataset)) in
  let run := war_and_peace_visualizer checkpoint file_text entropy in
  match run.2 with
  | Ok _ => map path run.1 = all
  | Raise _ => exists later : list string, all = map path run.1 ++ later
  end.
Proof.
  intros dataset all run.
  destruct (batches_loop_prefix (VisualizeInternalGates.init entropy) dataset
              (seq 0 (VisualizeWarAndPeaceDataset.len dataset)) [])
    as (written & later & Hpaths & Hall & Hok).
  change (batches_loop _ _ _ _) with run in Hpaths, Hok.
  cbn [map app] in Hpaths. fold all in Hall. rewrite Hpaths.
  destruct (run.2) as [[]|e].
  - rewrite Hall, (Hok eq_refl). by rewrite app_nil_r.
  - by exists later.
Qed.

(** ** Sequences of padding tokens *)

Lemma dot_zero (row v : list R) :
  Forall (fun a => a = 0%R) v ->
  foldr Rplus 0%R (zip_with Rmult row v) = 0%R.
Proof.
  intros Hv. revert row. induction Hv as [|a v -> _ IH]; intros row.
  - by destruct row.
  - destruct row as [|r row]; [done|]. cbn [zip_with foldr].
    rewrite IH. lra.
Qed.

Lemma matvec_zero (W : Tensor) (v : list R) :
  Forall (fun a => a = 0%R) v ->
  Published.matvec W v = replicate (length W) 0%R.
Proof.
  intros Hv. unfold Published.matvec.
  induction W as [|row W IH]; [done|].
  cbn [map length replicate]. by rewrite IH, dot_zero.
Qed.

Lemma sigmoid1_zero : torch.sigmoid1 0 = (1 / 2)%R.
Proof. unfold torch.sigmoid1. rewrite Ropp_0, exp_0. lra. Qed.

Lemma zeros_all_zero (n : nat) : Forall (fun a => a = 0%R) (replicate n 0%R).
Proof. by apply Forall_replicate. Qed.

Section AtRest.

Variables W_f W_o W_c : Tensor.
Variable n : nat.
Hypothesis rows_f : length W_f = n.
Hypothesis rows_o : length W_o = n.
Hypothesis rows_c : length W_c = n.
Variable x : list R.
Hypothesis x_zero : Forall (fun a => a = 0%R) x.

Let rest := replicate n 0%R.
Let half := replicate n (1 / 2)%R.

Lemma input_at_rest : Forall (fun a => a = 0%R) (rest ++ x).
Proof. apply Forall_app. split; [apply zeros_all_zero|exact x_zero]. Qed.

Lemma coupled_f_at_rest : Published.coupled_f W_f x rest = half.
Proof.
  unfold Published.coupled_f, Published.sigma.
  rewrite (matvec_zero _ _ input_at_rest), rows_f.
  unfold half. rewrite <- sigmoid1_zero. apply fmap_replicate.
Qed.

Lemma coupled_o_at_rest : Published.coupled_o W_o x rest = half.
Proof.
  unfold Published.coupled_o, Published.sigma.
  rewrite (matvec_zero _ _ input_at_rest), rows_o.
  unfold half. rewrite <- sigmoid1_zero. apply fmap_replicate.
Qed.

Lemma coupled_c_tilde_at_rest : Published.coupled_c_tilde W_c x rest = rest.
Proof.
  unfold Published.coupled_c_tilde, Published.vtanh.
  rewrite (matvec_zero _ _ input_at_rest), rows_c.
  unfold rest. rewrite <- tanh_zero at 2. apply fmap_replicate.
Qed.

Lemma coupled_next_c_at_rest :
  Published.coupled_next_c W_f W_c x rest rest = rest.
Proof.
  unfold Published.coupled_next_c.
  rewrite coupled_f_at_rest, coupled_c_tilde_at_rest.
  unfold Published.vadd, Published.hadamard, Published.one_minus, half, rest.
  rewrite (fmap_replicate (fun a => (1 - a)%R)), !zip_with_replicate.
  f_equal. lra.
Qed.

Lemma coupled_next_h_at_rest :
  Published.coupled_next_h W_f W_o W_c x rest rest = rest.
Proof.
  unfold Published.coupled_next_h.
  rewrite coupled_o_at_rest, coupled_next_c_at_rest.
  unfold Published.vtanh, Published.hadamard, half, rest.
  rewrite (fmap_replicate Rtrigo_def.tanh), zip_with_replicate, tanh_zero.
  f_equal. lra.
Qed.

Lemma coupled_signals_at_rest (steps : nat) :
  Published.coupled_signals W_f W_o W_c (replicate steps x) rest rest
  = replicate steps (half, half, rest) /\
  Published.coupled_final W_f W_o W_c (replicate steps x) rest rest
  = (rest, rest).
Proof.
  induction steps as [|steps [IHs IHf]]; [done|].
  cbn [replicate Published.coupled_signals Published.coupled_final].
  rewrite coupled_next_h_at_rest, coupled_next_c_at_rest.
  rewrite coupled_f_at_rest, coupled_o_at_rest, coupled_c_tilde_at_rest.
  by rewrite IHs, IHf.
Qed.

End AtRest.

Lemma padding_embedding (e : Entropy) (indices : list nat) :
  Forall (fun i => i = PADDING_TOKEN) indices ->
  embedded (VisualizeInternalGates.init e) indices
  = replicate (length indices) (replicate CKPT_EMBEDDING_DIM 0%R).
Proof.
  intros Hpad. unfold embedded.
  induction Hpad as [|i indices -> _ IH]; [done|].
  cbn [map length replicate]. rewrite IH. f_equal.
Qed.

Lemma rows_all_equal {A : Type} (l : list A) (m : nat) (a : A) :
  length l = m -> (forall i y, l !! i = Some y -> y = a) ->
  l = replicate m a.
Proof.
  intros Hlen Hall. symmetry. apply replicate_as_Forall_2; [exact Hlen|].
  apply Forall_lookup. intros i y Hy. symmetry. by eapply Hall.
Qed.

Lemma signals_all_equal (signals : list GateSignals) (batch width steps : nat)
  (u v w : list R) :
  length signals = steps ->
  Forall (fun g : GateSignals =>
            has_shape g.1.1 batch width /\ has_shape g.1.2 batch width /\
            has_shape g.2 batch width) signals ->
  (forall b : nat, b < batch ->
     map (fun g : GateSignals => (g.1.1 !! b, g.1.2 !! b, g.2 !! b)) signals
     = replicate steps (Some u, Some v, Some w)) ->
  map (fun g : GateSignals => g.1.1) signals
  = replicate steps (replicate batch u) /\
  map (fun g : GateSignals => g.1.2) signals
  = replicate steps (replicate batch v) /\
  map (fun g : GateSignals => g.2) signals
  = replicate steps (replicate batch w).
Proof.
  intros Hlen Hshapes Hrows.
  assert (Hgate : forall t g b, signals !! t = Some g -> b < batch ->
            (g.1.1 !! b, g.1.2 !! b, g.2 !! b) = (Some u, Some v, Some w)).
  { intros t g b Hg Hb. pose proof (Hrows b Hb) as Hsig.
    apply (f_equal (fun l => l !! t)) in Hsig.
    rewrite list_lookup_fmap, Hg in Hsig. cbn [fmap option_fmap option_map] in Hsig.
    assert (Ht : t < steps) by (rewrite <- Hlen; by eapply lookup_lt_Some).
    rewrite lookup_replicate_2 in Hsig by exact Ht.
    by apply (inj Some) in Hsig. }
  rewrite Forall_lookup in Hshapes.
  split_and!; apply rows_all_equal; rewrite ?length_map; try exact Hlen;
    intros t y Hy; rewrite list_lookup_fmap in Hy;
    destruct (signals !! t) as [g|] eqn:Hg; try discriminate;
    apply (inj Some) in Hy; subst y;
    destruct (Hshapes t g Hg) as (Hsf & Hso & Hsc).
  - apply rows_all_equal; [exact (has_shape_length _ _ _ Hsf)|].
    intros b row Hb.
    assert (Hlt : b < batch).
    { rewrite <- (has_shape_length _ _ _ Hsf). by eapply lookup_lt_Some. }
    pose proof (Hgate t g b Hg Hlt) as Heq. rewrite Hb in Heq. congruence.
  - apply rows_all_equal; [exact (has_shape_length _ _ _ Hso)|].
    intros b row Hb.
    assert (Hlt : b < batch).
    { rewrite <- (has_shape_length _ _ _ Hso). by eapply lookup_lt_Some. }
    pose proof (Hgate t g b Hg Hlt) as Heq. rewrite Hb in Heq. congruence.
  - apply rows_all_equal; [exact (has_shape_length _ _ _ Hsc)|].
    intros b row Hb.
    assert (Hlt : b < batch).
    { rewrite <- (has_shape_length _ _ _ Hsc). by eapply lookup_lt_Some. }
    pose proof (Hgate t g b Hg Hlt) as Heq. rewrite Hb in Heq. congruence.
Qed.

Lemma affine_zero (W : Tensor) (bias : list R) (m : nat) :
  length W = length bias ->
  affine W bias (replicate m 0%R) = bias.
Proof.
  intros Hlen. unfold affine, Published.vadd.
  rewrite (matvec_zero _ _ (zeros_all_zero m)), Hlen.
  rewrite zip_with_replicate_l by done.
  rewrite <- (list_fmap_id bias) at 2. apply list_fmap_ext.
  intros _ b _. unfold Datatypes.id. lra.
Qed.

(** X20.  The token of index 0 is the padding token, whose embedding is the
    zero vector, and the cell has no bias.  On a batch made of padding
    tokens only, the state of a newly built model therefore stays at zero:
    at every step every forget and every output gate is 1/2 and every
    candidate is 0, and the logits of every sample are the bias of the
    classifier. *)
Theorem padding_only_batch_leaves_state_at_rest
  (e : Entropy) (t : IndexTensor) :
  let model := VisualizeInternalGates.init e in
  index_tensor_wf t -> tensor_dtype t = int64 ->
  Forall (Forall (fun i => i = PADDING_TOKEN)) (entries t) ->
  1 <= shape1 t ->
  exists (logits : Tensor) (outputs : gmap string (list Tensor)),
    VisualizeInternalGates.forward model t = Ok (logits, outputs) /\
    logits
    = replicate (shape0 t)
        (Linear.bias (VisualizeInternalGates.classifier model)) /\
    outputs !! "update_signals"
    = Some (replicate (shape1 t)
              (replicate (shape0 t) (replicate 128 (1 / 2)%R))) /\
    outputs !! "reset_signals"
    = Some (replicate (shape1 t)
              (replicate (shape0 t) (replicate 128 (1 / 2)%R))) /\
    outputs !! "cell_state_candidates"
    = Some (replicate (shape1 t) (torch.zeros (shape0 t) 128)).
Proof.
  intros model Hwf Hdtype Hpad Hsteps.
  pose proof (init_architecture e) as Harch. fold model in Harch.
  assert (Hrange :
    Forall (Forall (fun i => i < CKPT_VOCABULARY_SIZE)) (entries t)).
  { eapply Forall_impl; [exact Hpad|]. intros row Hrow.
    eapply Forall_impl; [exact Hrow|]. intros i ->.
    unfold PADDING_TOKEN, CKPT_VOCABULARY_SIZE. lia. }
  destruct (forward_full_rows model t Harch Hwf Hdtype Hrange Hsteps)
    as (logits & signals & Hrun & Hlogits & Hlen & Hshapes & Hrows).
  destruct Harch as (_ & _ & Hhs & (Hf & Hc & Ho) & Hw & Hb).
  rewrite Hhs in Hf, Hc, Ho.
  set (cell := VisualizeInternalGates.rnn_model model) in *.
  assert (Hsample : forall b indices, entries t !! b = Some indices ->
            embedded model indices
            = replicate (shape1 t) (replicate CKPT_EMBEDDING_DIM 0%R)).
  { intros b indices Hindices. unfold model. rewrite padding_embedding.
    - destruct Hwf as [_ Hcols]. rewrite Forall_lookup in Hcols.
      by rewrite (Hcols b indices Hindices).
    - rewrite Forall_lookup in Hpad. exact (Hpad b indices Hindices). }
  pose proof (coupled_signals_at_rest
                (VisualizeCoupledLSTMCell.W_f cell)
                (VisualizeCoupledLSTMCell.W_o cell)
                (VisualizeCoupledLSTMCell.W_c cell) CKPT_HIDDEN_SIZE
                (has_shape_length _ _ _ Hf) (has_shape_length _ _ _ Ho)
                (has_shape_length _ _ _ Hc)
                (replicate CKPT_EMBEDDING_DIM 0%R)
                (zeros_all_zero CKPT_EMBEDDING_DIM) (shape1 t))
    as [Hsignals Hfinal].
  destruct (signals_all_equal signals (shape0 t) CKPT_HIDDEN_SIZE (shape1 t)
              (replicate CKPT_HIDDEN_SIZE (1 / 2)%R)
              (replicate CKPT_HIDDEN_SIZE (1 / 2)%R)
              (replicate CKPT_HIDDEN_SIZE 0%R) Hlen Hshapes)
    as (Hupdate & Hreset & Hcandidates).
  { intros b Hlt. destruct Hwf as [Hrowslen _].
    destruct (lookup_lt_is_Some_2 (entries t) b) as [indices Hindices];
      [lia|].
    destruct (Hrows b indices Hindices) as [_ Hsig].
    rewrite Hsig, (Hsample b indices Hindices), Hsignals.
    by rewrite fmap_replicate. }
  exists logits, (outputs_of signals). split; [exact Hrun|].
  split_and!.
  - apply rows_all_equal; [exact (has_shape_length _ _ _ Hlogits)|].
    intros b row Hrow.
    assert (Hlt : b < shape0 t).
    { rewrite <- (has_shape_length _ _ _ Hlogits). by eapply lookup_lt_Some. }
    destruct Hwf as [Hrowslen _].
    destruct (lookup_lt_is_Some_2 (entries t) b) as [indices Hindices];
      [lia|].
    destruct (Hrows b indices Hindices) as [Hlogit _].
    rewrite (Hsample b indices Hindices), Hfinal in Hlogit.
    cbn [fst] in Hlogit. rewrite affine_zero in Hlogit.
    + rewrite Hrow in Hlogit. by apply (inj Some) in Hlogit.
    + by rewrite (has_shape_length _ _ _ Hw), Hb.
  - change (outputs_of signals !! "update_signals")
      with (Some (map (fun g : GateSignals => g.1.1) signals)).
    by rewrite Hupdate.
  - change (outputs_of signals !! "reset_signals")
      with (Some (map (fun g : GateSignals => g.1.2) signals)).
    by rewrite Hreset.
  - change (outputs_of signals !! "cell_state_candidates")
      with (Some (map (fun g : GateSignals => g.2) signals)).
    by rewrite Hcandidates.
Qed.

Lemma padding_only_batch_leaves_state_at_rest_witness :
  let model := VisualizeInternalGates.init sample_entropy in
  let t := {| tensor_dtype := int64; shape0 := 1; shape1 := 2;
              entries := [[0; 0]] |} in
  exists (logits : Tensor) (outputs : gmap string (list Tensor)),
    VisualizeInternalGates.forward model t = Ok (logits, outputs) /\
    logits
    = replicate 1 (Linear.bias (VisualizeInternalGates.classifier model)) /\
    outputs !! "update_signals"
    = Some (replicate 2 (replicate 1 (replicate 128 (1 / 2)%R))) /\
    outputs !! "reset_signals"
    = Some (replicate 2 (replicate 1 (replicate 128 (1 / 2)%R))) /\
    outputs !! "cell_state_candidates"
    = Some (replicate 2 (torch.zeros 1 128)).
Proof.
  apply (padding_only_batch_leaves_state_at_rest sample_entropy
           {| tensor_dtype := int64; shape0 := 1; shape1 := 2;
              entries := [[0; 0]] |}).
  - split; [reflexivity|]. repeat constructor.
  - reflexivity.
  - repeat constructor.
  - simpl. lia.
Defined.

(** ** Newly built cells *)

(** X21.  The constructors of the four cells give the weights the shapes
    that [forward] needs (the cell with peepholes, whose gates read
    [[c;h;x]], gets the wider weights).  For a cell with at least one
    hidden unit ([reset_parameters] divides by [hidden_size]) and any batch
    of rows of [input_size] entries, with no previous state, a newly built
    cell returns, and the state it returns has the shape
    [(batch, hidden_size)] of the state it started from. *)
Theorem fresh_cells_run_on_any_batch
  (input_size hidden_size batch : nat) (rng : nat -> nat -> nat -> R)
  (x : Tensor) :
  1 <= hidden_size ->
  has_shape x batch input_size ->
  (exists next_h signals,
     VisualizeGRUCell.forward
       (VisualizeGRUCell.init input_size hidden_size rng) x None
     = Ok (next_h, signals) /\
     has_shape next_h batch hidden_size) /\
  (exists next_h next_c signals,
     VisualizeLSTMCell.forward
       (VisualizeLSTMCell.init input_size hidden_size rng) x None
     = Ok (next_h, next_c, signals) /\
     has_shape next_h batch hidden_size /\
     has_shape next_c batch hidden_size) /\
  (exists next_h next_c signals,
     VisualizePeepholedLSTMCell.forward
       (VisualizePeepholedLSTMCell.init input_size hidden_size rng) x None
     = Ok (next_h, next_c, signals) /\
     has_shape next_h batch hidden_size /\
     has_shape next_c batch hidden_size) /\
  (exists next_h next_c signals,
     VisualizeCoupledLSTMCell.forward
       (VisualizeCoupledLSTMCell.init input_size hidden_size rng) x None
     = Ok (next_h, next_c, signals) /\
     has_shape next_h batch hidden_size /\
     has_shape next_c batch hidden_size).
Proof.
  intros _ Hx. pose proof (has_shape_length _ _ _ Hx) as Hbatch.
  pose proof (has_shape_zeros batch hidden_size) as Hzeros.
  split_and!.
  - destruct (gru_forward_shaped
                (VisualizeGRUCell.init input_size hidden_size rng) x
                (torch.zeros batch hidden_size) batch)
      as (next_h & z & r & h_tilde & Hrun & (Hh & _) & _);
      try apply has_shape_new_parameter; try done.
    exists next_h, (z, r, h_tilde). split; [|exact Hh].
    rewrite <- Hrun. unfold VisualizeGRUCell.forward. by rewrite Hbatch.
  - destruct (lstm_forward_rows
                (VisualizeLSTMCell.init input_size hidden_size rng))
      with (x := x) (h := torch.zeros batch hidden_size)
           (c := torch.zeros batch hidden_size) (batch := batch)
      as (next_h & next_c & f & i & o & c_tilde & Hrun & (Hh & Hc & _) & _);
      try apply has_shape_new_parameter; try done.
    exists next_h, next_c, (f, i, o, c_tilde). split; [|by split].
    rewrite <- Hrun. unfold VisualizeLSTMCell.forward. by rewrite Hbatch.
  - destruct (peephole_forward_rows
                (VisualizePeepholedLSTMCell.init input_size hidden_size rng))
      with (x := x) (h := torch.zeros batch hidden_size)
           (c := torch.zeros batch hidden_size) (batch := batch)
      as (next_h & next_c & f & i & o & c_tilde & Hrun & (Hh & Hc & _) & _);
      try apply has_shape_new_parameter; try done.
    exists next_h, next_c, (f, i, o, c_tilde). split; [|by split].
    rewrite <- Hrun. unfold VisualizePeepholedLSTMCell.forward.
    by rewrite Hbatch.
  - destruct (coupled_forward_rows
                (VisualizeCoupledLSTMCell.init input_size hidden_size rng))
      with (x := x) (h := torch.zeros batch hidden_size)
           (c := torch.zeros batch hidden_size) (batch := batch)
      as (next_h & next_c & f & o & c_tilde & Hrun & Hh & Hc & _);
      try apply has_shape_new_parameter; try done.
    exists next_h, next_c, (f, o, c_tilde). split; [|by split].
    rewrite <- Hrun. unfold VisualizeCoupledLSTMCell.forward.
    by rewrite Hbatch.
Qed.

Lemma fresh_cells_run_on_any_batch_witness :
  let x := [[1; 2]; [3; 4]; [5; 6]]%R in
  let rng := fun _ _ _ : nat => 1%R in
  (exists next_h signals,
     VisualizeGRUCell.forward (VisualizeGRUCell.init 2 1 rng) x None
     = Ok (next_h, signals) /\
     has_shape next_h 3 1) /\
  (exists next_h next_c signals,
     VisualizeLSTMCell.forward (VisualizeLSTMCell.init 2 1 rng) x None
     = Ok (next_h, next_c, signals) /\
     has_shape next_h 3 1 /\ has_shape next_c 3 1) /\
  (exists next_h next_c signals,
     VisualizePeepholedLSTMCell.forward
       (VisualizePeepholedLSTMCell.init 2 1 rng) x None
     = Ok (next_h, next_c, signals) /\
     has_shape next_h 3 1 /\ has_shape next_c 3 1) /\
  (exists next_h next_c signals,
     VisualizeCoupledLSTMCell.forward
       (VisualizeCoupledLSTMCell.init 2 1 rng) x None
     = Ok (next_h, next_c, signals) /\
     has_shape next_h 3 1 /\ has_shape next_c 3 1).
Proof.
  apply (fresh_cells_run_on_any_batch 2 1 3 (fun _ _ _ => 1%R)
           [[1; 2]; [3; 4]; [5; 6]]%R).
  - lia.
  - split; [reflexivity|repeat constructor].
Defined.

Lemma linear_mismatch (input weight : Tensor) (m n k l : nat) :
  has_shape input m n -> has_shape weight k l ->
  1 <= m -> 1 <= k -> n <> l ->
  F.linear input weight = Raise RuntimeError.
Proof.
  intros [Hm Hrows] [Hk Hcols] Hm1 Hk1 Hne.
  destruct input as [|r input]; [simpl in Hm; lia|].
  destruct weight as [|w weight]; [simpl in Hk; lia|].
  inversion Hrows as [|? ? Hr _]; subst.
  inversion Hcols as [|? ? Hw _]; subst.
  unfold F.linear. cbn [forallb].
  by rewrite bool_decide_eq_false_2.
Qed.

(** X22.  A cell built for rows of [input_size] entries rejects rows of any
    other width: with at least one row in the batch and at least one hidden
    unit, [forward] of each of the four cells raises [RuntimeError] in its
    first [F.linear]. *)
Theorem cells_reject_rows_of_wrong_width
  (input_size hidden_size batch width : nat) (rng : nat -> nat -> nat -> R)
  (x : Tensor) :
  has_shape x batch width -> width <> input_size ->
  1 <= batch -> 1 <= hidden_size ->
  VisualizeGRUCell.forward
    (VisualizeGRUCell.init input_size hidden_size rng) x None
  = Raise RuntimeError /\
  VisualizeLSTMCell.forward
    (VisualizeLSTMCell.init input_size hidden_size rng) x None
  = Raise RuntimeError /\
  VisualizePeepholedLSTMCell.forward
    (VisualizePeepholedLSTMCell.init input_size hidden_size rng) x None
  = Raise RuntimeError /\
  VisualizeCoupledLSTMCell.forward
    (VisualizeCoupledLSTMCell.init input_size hidden_size rng) x None
  = Raise RuntimeError.
Proof.
  intros Hx Hwidth Hbatch Hhidden.
  pose proof (has_shape_length _ _ _ Hx) as Hlen.
  pose proof (has_shape_zeros batch hidden_size) as Hzeros.
  destruct (cat_dim1_ok _ _ _ _ _ Hzeros Hx) as [Hcat Hcatshape].
  destruct (cat_dim1_three_ok _ _ _ _ _ _ _ Hzeros Hzeros Hx)
    as [Hcat3 Hcat3shape].
  split_and!.
  - unfold VisualizeGRUCell.forward.
    cbn [VisualizeGRUCell.hidden_size VisualizeGRUCell.init
         VisualizeGRUCell.W_z].
    rewrite Hlen, Hcat. unfold bind at 1. cbv beta iota.
    rewrite (linear_mismatch _ _ _ _ _ _ Hcatshape
               (has_shape_new_parameter _ _ _) Hbatch Hhidden); [done|lia].
  - unfold VisualizeLSTMCell.forward.
    cbn [VisualizeLSTMCell.hidden_size VisualizeLSTMCell.init
         VisualizeLSTMCell.W_f].
    rewrite Hlen, Hcat. unfold bind at 1. cbv beta iota.
    rewrite (linear_mismatch _ _ _ _ _ _ Hcatshape
               (has_shape_new_parameter _ _ _) Hbatch Hhidden); [done|lia].
  - unfold VisualizePeepholedLSTMCell.forward.
    cbn [VisualizePeepholedLSTMCell.hidden_size
         VisualizePeepholedLSTMCell.init VisualizePeepholedLSTMCell.W_f].
    rewrite Hlen, Hcat3. unfold bind at 1. cbv beta iota.
    rewrite (linear_mismatch _ _ _ _ _ _ Hcat3shape
               (has_shape_new_parameter _ _ _) Hbatch Hhidden); [done|lia].
  - unfold VisualizeCoupledLSTMCell.forward.
    cbn [VisualizeCoupledLSTMCell.hidden_size VisualizeCoupledLSTMCell.init
         VisualizeCoupledLSTMCell.W_f].
    rewrite Hlen, Hcat. unfold bind at 1. cbv beta iota.
    rewrite (linear_mismatch _ _ _ _ _ _ Hcatshape
               (has_shape_new_parameter _ _ _) Hbatch Hhidden); [done|lia].
Qed.

Lemma cells_reject_rows_of_wrong_width_witness :
  let x := [[1; 2; 3]]%R in
  let rng := fun _ _ _ : nat => 1%R in
  VisualizeGRUCell.forward (VisualizeGRUCell.init 2 1 rng) x None
  = Raise RuntimeError /\
  VisualizeLSTMCell.forward (VisualizeLSTMCell.init 2 1 rng) x None
  = Raise RuntimeError /\
  VisualizePeepholedLSTMCell.forward
    (VisualizePeepholedLSTMCell.init 2 1 rng) x None
  = Raise RuntimeError /\
  VisualizeCoupledLSTMCell.forward
    (VisualizeCoupledLSTMCell.init 2 1 rng) x None
  = Raise RuntimeError.
Proof.
  apply (cells_reject_rows_of_wrong_width 2 1 1 3 (fun _ _ _ => 1%R)
           [[1; 2; 3]]%R).
  - split; [reflexivity|repeat constructor].
  - lia.
  - lia.
  - lia.
Defined.

(** ** What the heatmaps of a run show *)

Lemma heatmap_cells (states : list Tensor) (hidden j step : nat) :
  Forall (fun s => has_shape s 1 hidden) states ->
  j < hidden -> step < length states ->
  nth step (nth j (torch.transpose (concat states)) []) 0%R
  = nth j (nth 0 (nth step states []) []) 0%R.
Proof.
  intros Hshapes Hj Hstep.
  destruct (concat_single_rows states hidden Hshapes) as [Hconcat Hshape].
  assert (Hlen : 1 <= length states) by lia.
  rewrite (nth_lookup_Some _ j [] _
             (transpose_lookup _ _ _ j Hshape Hlen Hj)).
  rewrite Hconcat, map_map.
  rewrite (nth_indep _ 0%R
             ((fun s : Tensor => nth j (nth 0 s []) 0%R) []))
    by by rewrite length_map.
  by rewrite (map_nth (fun s : Tensor => nth j (nth 0 s []) 0%R) states []).
Qed.

Lemma sequence_figures_cells (model : VisualizeInternalGates.t)
  (vocabulary file_text : list pychar) (i : nat) (figures : list Figure) :
  let cell := VisualizeInternalGates.rnn_model model in
  checkpoint_architecture model ->
  length vocabulary <= CKPT_VOCABULARY_SIZE ->
  sequence_figures model
    (VisualizeWarAndPeaceDataset.init vocabulary file_text) i figures ->
  exists (line : list pychar) (indices : list nat)
         (update reset candidates : Figure),
    VisualizeWarAndPeaceDataset.data
      (VisualizeWarAndPeaceDataset.init vocabulary file_text) !! i
    = Some line /\
    mapM (dict_get (VisualizeWarAndPeaceDataset.char2index
                      (VisualizeWarAndPeaceDataset.init vocabulary file_text)))
      line = Ok indices /\
    figures = [update; reset; candidates] /\
    forall (step j : nat) (s : list R * list R * list R),
      Published.coupled_signals (VisualizeCoupledLSTMCell.W_f cell)
        (VisualizeCoupledLSTMCell.W_o cell) (VisualizeCoupledLSTMCell.W_c cell)
        (embedded model indices) (replicate CKPT_HIDDEN_SIZE 0%R)
        (replicate CKPT_HIDDEN_SIZE 0%R) !! step = Some s ->
      j < CKPT_HIDDEN_SIZE ->
      nth step (nth j (cells update) []) 0%R = nth j s.1.1 0%R /\
      nth step (nth j (cells reset) []) 0%R = nth j s.1.2 0%R /\
      nth step (nth j (cells candidates) []) 0%R = nth j s.2 0%R.
Proof.
  intros cell Harch Hsize
    (line & indices & logits & signals & Hline & Henc & Hrun & Hlen & ->).
  pose proof (mapM_Forall2 _ _ _ Henc) as Hcodes.
  assert (Hlt : Forall (fun k => k < CKPT_VOCABULARY_SIZE) indices).
  { apply Forall_lookup. intros k c Hc.
    destruct (Forall2_lookup_r _ _ _ _ _ Hcodes Hc) as (x & _ & Hx).
    cbv beta in Hx. unfold dict_get in Hx.
    destruct (VisualizeWarAndPeaceDataset.char2index _ !! x) as [c'|] eqn:Hxc;
      [|discriminate].
    injection Hx as ->. apply char2index_Some, lookup_lt_Some in Hxc. lia. }
  assert (Hind : indices <> []).
  { intros ->. by rewrite forward_float64 in Hrun. }
  destruct (forward_full_rows model (batch_of indices) Harch)
    as (logits' & signals' & Hrun' & _ & Hlen' & Hshapes & Hrows).
  { split; [reflexivity|]. by repeat constructor. }
  { destruct indices; [done|reflexivity]. }
  { by repeat constructor. }
  { destruct indices; [done|simpl; lia]. }
  rewrite Hrun' in Hrun.
  assert (Hout : outputs_of signals' = outputs_of signals).
  { exact (f_equal (fun r : result (Tensor * gmap string (list Tensor)) =>
                      match r with
                      | Ok p => p.2
                      | Raise _ => outputs_of signals'
                      end) Hrun). }
  clear Hrun.
  rewrite <- (three_figures_of_outputs i line signals' signals Hout).
  destruct (Hrows 0 indices eq_refl) as [_ Hsig]. fold cell in Hsig.
  change (shape0 (batch_of indices)) with 1 in Hshapes.
  exists line, indices. eexists _, _, _.
  split; [exact Hline|]. split; [exact Henc|]. split; [reflexivity|].
  intros step j s Hs Hj. cbn [cells heatmap].
  assert (Hg : exists g : GateSignals,
            signals' !! step = Some g /\
            (g.1.1 !! 0, g.1.2 !! 0, g.2 !! 0)
            = (Some s.1.1, Some s.1.2, Some s.2)).
  { apply (f_equal (fun l => l !! step)) in Hsig.
    rewrite !list_lookup_fmap, Hs in Hsig.
    destruct (signals' !! step) as [g|]; [|discriminate].
    exists g. split; [reflexivity|]. by apply (inj Some) in Hsig. }
  destruct Hg as (g & Hg & Hrow).
  assert (Hstep : step < length signals') by by eapply lookup_lt_Some.
  injection Hrow as Hf Ho Hc.
  split_and!.
  - rewrite (heatmap_cells _ CKPT_HIDDEN_SIZE j step);
      [| |exact Hj|by rewrite length_map].
    + rewrite (nth_lookup_Some _ step [] g.1.1)
        by by rewrite list_lookup_fmap, Hg.
      by rewrite (nth_lookup_Some _ 0 [] _ Hf).
    + apply Forall_fmap. eapply Forall_impl; [exact Hshapes|].
      by intros g' (Hg' & _ & _).
  - rewrite (heatmap_cells _ CKPT_HIDDEN_SIZE j step);
      [| |exact Hj|by rewrite length_map].
    + rewrite (nth_lookup_Some _ step [] g.1.2)
        by by rewrite list_lookup_fmap, Hg.
      by rewrite (nth_lookup_Some _ 0 [] _ Ho).
    + apply Forall_fmap. eapply Forall_impl; [exact Hshapes|].
      by intros g' (_ & Hg' & _).
  - rewrite (heatmap_cells _ CKPT_HIDDEN_SIZE j step);
      [| |exact Hj|by rewrite length_map].
    + rewrite (nth_lookup_Some _ step [] g.2)
        by by rewrite list_lookup_fmap, Hg.
      by rewrite (nth_lookup_Some _ 0 [] _ Hc).
    + apply Forall_fmap. eapply Forall_impl; [exact Hshapes|].
      by intros g' (_ & _ & Hg').
Qed.

(** X23.  What the heatmaps of a run show.  On a text that the script
    replays to the end, the three figures of line [i] hold the gate signals
    of the coupled cell of the newly built model, run from the zero state
    over the embedded characters of that line: the cell in row [j] and
    column [step] of the figure [update_signals] is entry [j] of the forget
    gate [f] at that step, that of [reset_signals] the entry of the output
    gate [o], and that of [cell_state_candidates] the entry of the
    candidate. *)
Theorem heatmaps_show_the_gates_of_each_line
  (checkpoint : Checkpoint) (file_text : list pychar) (entropy : Entropy) :
  let vocabulary := ckpt_vocabulary checkpoint in
  let dataset := VisualizeWarAndPeaceDataset.init vocabulary file_text in
  let lines := VisualizeWarAndPeaceDataset.data dataset in
  let model := VisualizeInternalGates.init entropy in
  let cell := VisualizeInternalGates.rnn_model model in
  replayable vocabulary lines ->
  length vocabulary <= 82 ->
  exists groups : list (list Figure),
    war_and_peace_visualizer checkpoint file_text entropy
    = (concat groups, Ok tt) /\
    length groups = length lines /\
    forall (i : nat) (line : list pychar),
      lines !! i = Some line ->
      exists (indices : list nat) (update reset candidates : Figure),
        mapM (dict_get (VisualizeWarAndPeaceDataset.char2index dataset)) line
        = Ok indices /\
        groups !! i = Some [update; reset; candidates] /\
        forall (step j : nat) (s : list R * list R * list R),
          Published.coupled_signals (VisualizeCoupledLSTMCell.W_f cell)
            (VisualizeCoupledLSTMCell.W_o cell)
            (VisualizeCoupledLSTMCell.W_c cell)
            (embedded model indices) (replicate 128 0%R) (replicate 128 0%R)
          !! step = Some s ->
          j < 128 ->
          nth step (nth j (cells update) []) 0%R = nth j s.1.1 0%R /\
          nth step (nth j (cells reset) []) 0%R = nth j s.1.2 0%R /\
          nth step (nth j (cells candidates) []) 0%R = nth j s.2 0%R.
Proof.
  intros vocabulary dataset lines model cell Hlines Hsize.
  destruct (visualizer_total checkpoint file_text entropy Hlines Hsize)
    as (groups & Hrun & Hgroups).
  exists groups. split; [exact Hrun|].
  pose proof (Forall2_length _ _ _ Hgroups) as Hcount.
  rewrite length_seq in Hcount. split; [by rewrite <- Hcount|].
  intros i line Hline.
  assert (Hi : i < length lines) by by eapply lookup_lt_Some.
  destruct (Forall2_lookup_l _ _ _ i i Hgroups) as (figures & Hfigures & Hfig).
  { by rewrite lookup_seq_lt. }
  destruct (sequence_figures_cells model vocabulary file_text i figures
              (init_architecture entropy) Hsize Hfig)
    as (line' & indices & update & reset & candidates & Hline' & Henc & ->
        & Hcells).
  fold dataset in Hline'. fold lines in Hline'.
  rewrite Hline in Hline'. injection Hline' as <-.
  exists indices, update, reset, candidates.
  split; [exact Henc|]. split; [exact Hfigures|]. exact Hcells.
Qed.

Lemma heatmaps_show_the_gates_of_each_line_witness :
  let dataset :=
    VisualizeWarAndPeaceDataset.init sample_vocabulary sample_text in
  let lines := VisualizeWarAndPeaceDataset.data dataset in
  let model := VisualizeInternalGates.init sample_entropy in
  let cell := VisualizeInternalGates.rnn_model model in
  exists groups : list (list Figure),
    war_and_peace_visualizer sample_checkpoint sample_text sample_entropy
    = (concat groups, Ok tt) /\
    length groups = length lines /\
    forall (i : nat) (line : list pychar),
      lines !! i = Some line ->
      exists (indices : list nat) (update reset candidates : Figure),
        mapM (dict_get (VisualizeWarAndPeaceDataset.char2index dataset)) line
        = Ok indices /\
        groups !! i = Some [update; reset; candidates] /\
        forall (step j : nat) (s : list R * list R * list R),
          Published.coupled_signals (VisualizeCoupledLSTMCell.W_f cell)
            (VisualizeCoupledLSTMCell.W_o cell)
            (VisualizeCoupledLSTMCell.W_c cell)
            (embedded model indices) (replicate 128 0%R) (replicate 128 0%R)
          !! step = Some s ->
          j < 128 ->
          nth step (nth j (cells update) []) 0%R = nth j s.1.1 0%R /\
          nth step (nth j (cells reset) []) 0%R = nth j s.1.2 0%R /\
          nth step (nth j (cells candidates) []) 0%R = nth j s.2 0%R.
Proof.
  apply (heatmaps_show_the_gates_of_each_line sample_checkpoint sample_text
           sample_entropy).
  - unfold replayable. vm_compute. repeat constructor; discriminate.
  - simpl. lia.
Defined.

(** ** The dictionary that [forward] returns *)

Lemma outputs_of_keys (signals : list GateSignals) (key : string)
  (states : list Tensor) :
  outputs_of signals !! key = Some states ->
  (key = "update_signals" /\
   states = map (fun g : GateSignals => g.1.1) signals) \/
  (key = "reset_signals" /\
   states = map (fun g : GateSignals => g.1.2) signals) \/
  (key = "cell_state_candidates" /\
   states = map (fun g : GateSignals => g.2) signals).
Proof.
  unfold outputs_of. intros Hkey.
  apply lookup_insert_Some in Hkey as [[<- <-]|[_ Hkey]]; [by right; right|].
  apply lookup_insert_Some in Hkey as [[<- <-]|[_ Hkey]]; [by right; left|].
  apply lookup_insert_Some in Hkey as [[<- <-]|[_ Hkey]]; [by left|].
  by rewrite lookup_empty in Hkey.
Qed.

(** X24.  The dictionary that [forward] returns has the three keys
    [update_signals], [reset_signals] and [cell_state_candidates] and no
    other; under each key it holds one tensor for every step, each of shape
    [(batch, 128)]. *)
Theorem forward_outputs_have_three_keys (e : Entropy) (t : IndexTensor) :
  index_tensor_wf t -> tensor_dtype t = int64 ->
  Forall (Forall (fun i => i < 82)) (entries t) ->
  1 <= shape1 t ->
  exists (logits : Tensor) (outputs : gmap string (list Tensor)),
    VisualizeInternalGates.forward (VisualizeInternalGates.init e) t
    = Ok (logits, outputs) /\
    (forall key : string,
        is_Some (outputs !! key) <-> key ∈ gate_names) /\
    forall (key : string) (states : list Tensor),
      outputs !! key = Some states ->
      length states = shape1 t /\
      Forall (fun s => has_shape s (shape0 t) 128) states.
Proof.
  intros Hwf Hdtype Hrange Hsteps.
  destruct (forward_full_rows (VisualizeInternalGates.init e) t
              (init_architecture e) Hwf Hdtype Hrange Hsteps)
    as (logits & signals & Hrun & _ & Hlen & Hshapes & _).
  exists logits, (outputs_of signals). split; [exact Hrun|]. split.
  - intros key. unfold gate_names. rewrite !elem_of_cons, elem_of_nil.
    split.
    + intros [states Hkey].
      destruct (outputs_of_keys signals key states Hkey)
        as [[-> _]|[[-> _]|[-> _]]]; auto.
    + intros [->|[->|[->|[]]]]; by eexists.
  - intros key states Hkey.
    destruct (outputs_of_keys signals key states Hkey)
      as [[_ ->]|[[_ ->]|[_ ->]]];
      (split; [by rewrite length_map|]); apply Forall_fmap;
      (eapply Forall_impl; [exact Hshapes|]).
    + by intros g (Hg & _ & _).
    + by intros g (_ & Hg & _).
    + by intros g (_ & _ & Hg).
Qed.

Lemma forward_outputs_have_three_keys_witness :
  exists (logits : Tensor) (outputs : gmap string (list Tensor)),
    VisualizeInternalGates.forward
      (VisualizeInternalGates.init sample_entropy) two_tokens
    = Ok (logits, outputs) /\
    (forall key : string,
        is_Some (outputs !! key) <-> key ∈ gate_names) /\
    forall (key : string) (states : list Tensor),
      outputs !! key = Some states ->
      length states = 2 /\
      Forall (fun s => has_shape s 1 128) states.
Proof.
  apply (forward_outputs_have_three_keys sample_entropy two_tokens).
  - split; [reflexivity|]. repeat constructor.
  - reflexivity.
  - repeat constructor.
  - simpl. lia.
Defined.

(** ** A text with an empty line *)

Lemma sequence_figures_labels (model : VisualizeInternalGates.t)
  (dataset : VisualizeWarAndPeaceDataset.t) (steps : list nat)
  (groups : list (list Figure)) :
  Forall2 (sequence_figures model dataset) steps groups ->
  map xticklabels (concat groups)
  = flat_map (fun step =>
                match VisualizeWarAndPeaceDataset.data dataset !! step with
                | Some line => [line; line; line]
                | None => []
                end) steps.
Proof.
  induction 1 as [|step figures steps groups Hfig _ IH]; [done|].
  destruct Hfig as (line & indices & logits & signals & Hline & _ & _ & _
                    & ->).
  cbn [concat flat_map]. by rewrite map_app, IH, Hline.
Qed.

Lemma run_raises_at_empty_line (checkpoint : Checkpoint)
  (file_text : list pychar) (entropy : Entropy) (i : nat) :
  let vocabulary := ckpt_vocabulary checkpoint in
  let dataset := VisualizeWarAndPeaceDataset.init vocabulary file_text in
  let lines := VisualizeWarAndPeaceDataset.data dataset in
  length vocabulary <= CKPT_VOCABULARY_SIZE ->
  replayable vocabulary (take i lines) ->
  lines !! i = Some [] ->
  exists groups : list (list Figure),
    war_and_peace_visualizer checkpoint file_text entropy
    = (concat groups, Raise RuntimeError) /\
    Forall2 (sequence_figures (VisualizeInternalGates.init entropy) dataset)
      (seq 0 i) groups.
Proof.
  intros vocabulary dataset lines. subst lines dataset vocabulary.
  intros Hsize Hlines Hline.
  set (dataset := VisualizeWarAndPeaceDataset.init
                    (ckpt_vocabulary checkpoint) file_text) in *.
  assert (Hi : i < length (VisualizeWarAndPeaceDataset.data dataset))
    by by eapply lookup_lt_Some.
  destruct (batches_loop_total (VisualizeInternalGates.init entropy)
              (ckpt_vocabulary checkpoint) file_text
              (init_architecture entropy) Hsize (seq 0 i) [])
    as (groups & Hloop & Hgroups).
  { apply replayable_prefix_steps;
      [exact Hlines|exact (Nat.lt_le_incl _ _ Hi)]. }
  fold dataset in Hloop, Hgroups.
  exists groups. split; [|exact Hgroups].
  unfold war_and_peace_visualizer, VisualizeWarAndPeaceDataset.len.
  cbv zeta. fold dataset.
  replace (length (VisualizeWarAndPeaceDataset.data dataset))
    with (i + S (length (VisualizeWarAndPeaceDataset.data dataset) - S i))
    by lia.
  rewrite seq_app, batches_loop_app, Hloop.
  cbn [seq batches_loop app].
  rewrite (fetch_empty_line dataset (0 + i)) by exact Hline.
  by rewrite forward_float64.
Qed.

(** C4, as stated, fails.  The text of the three lines [ba], the empty
    line and [a] gives a dataset of three sequences; the script writes the
    three images of sequence 0, raises [RuntimeError] at the empty line,
    and sequence 2 gets no image. *)
Lemma empty_line_leaves_a_sequence_without_images :
  let text := [98; 97; 10; 10; 97]%N in
  let dataset := VisualizeWarAndPeaceDataset.init sample_vocabulary text in
  let run := war_and_peace_visualizer sample_checkpoint text sample_entropy in
  VisualizeWarAndPeaceDataset.data dataset = [[98; 97]; []; [97]]%N /\
  VisualizeWarAndPeaceDataset.len dataset = 3 /\
  run.2 = Raise RuntimeError /\
  map path run.1
  = ["visualize/S00_update_signals.png"; "visualize/S00_reset_signals.png";
     "visualize/S00_cell_state_candidates.png"] /\
  ~ (forall (i : nat) (gate : string),
       i < VisualizeWarAndPeaceDataset.len dataset -> gate ∈ gate_names ->
       file_name i gate ∈ map path run.1).
Proof.
  intros text dataset run.
  assert (Hdata : VisualizeWarAndPeaceDataset.data dataset
                  = [[98; 97]; []; [97]]%N) by (vm_compute; reflexivity).
  assert (Hlen : VisualizeWarAndPeaceDataset.len dataset = 3)
    by (unfold VisualizeWarAndPeaceDataset.len; by rewrite Hdata).
  destruct (run_raises_at_empty_line sample_checkpoint text sample_entropy 1)
    as (groups & Hrun & Hgroups).
  { simpl. unfold CKPT_VOCABULARY_SIZE. lia. }
  { unfold replayable. vm_compute. repeat constructor; discriminate. }
  { vm_compute. reflexivity. }
  pose proof (sequence_figures_paths _ _ _ _ Hgroups) as Hpaths.
  assert (Hwritten : map path run.1
            = ["visualize/S00_update_signals.png";
               "visualize/S00_reset_signals.png";
               "visualize/S00_cell_state_candidates.png"]).
  { unfold run. rewrite Hrun. cbn [fst]. rewrite Hpaths. reflexivity. }
  split; [exact Hdata|]. split; [exact Hlen|].
  split; [unfold run; by rewrite Hrun|]. split; [exact Hwritten|].
  intros Hall. rewrite Hlen, Hwritten in Hall.
  specialize (Hall 2 "update_signals" ltac:(lia) ltac:(by left)).
  rewrite !elem_of_cons, elem_of_nil in Hall.
  destruct Hall as [H|[H|[H|[]]]]; vm_compute in H; discriminate H.
Qed.

(** C7, as stated, fails.  The lines that follow an empty line are never
    processed: on the text of the three lines [a], the empty line and [b]
    the script labels its three figures with the line [a] and raises
    [RuntimeError]; no figure is made of the line [b].  And the lines of
    the file are not the lines of the dataset: the file of the two lines
    that are the empty line and [b] gives the dataset of the one line
    [b]. *)
Lemma lines_after_an_empty_line_are_not_processed :
  let text := [97; 10; 10; 98]%N in
  let dataset := VisualizeWarAndPeaceDataset.init sample_vocabulary text in
  let run := war_and_peace_visualizer sample_checkpoint text sample_entropy in
  VisualizeWarAndPeaceDataset.data dataset = [[97]; []; [98]]%N /\
  run.2 = Raise RuntimeError /\
  map xticklabels run.1 = [[97]; [97]; [97]]%N /\
  ~ (forall (i : nat) (line : list pychar),
       VisualizeWarAndPeaceDataset.data dataset !! i = Some line ->
       line ∈ map xticklabels run.1) /\
  split newline [10; 98]%N = [[]; [98]]%N /\
  VisualizeWarAndPeaceDataset.data
    (VisualizeWarAndPeaceDataset.init sample_vocabulary [10; 98]%N)
  = [[98]]%N.
Proof.
  intros text dataset run.
  assert (Hdata : VisualizeWarAndPeaceDataset.data dataset
                  = [[97]; []; [98]]%N) by (vm_compute; reflexivity).
  destruct (run_raises_at_empty_line sample_checkpoint text sample_entropy 1)
    as (groups & Hrun & Hgroups).
  { simpl. unfold CKPT_VOCABULARY_SIZE. lia. }
  { unfold replayable. vm_compute. repeat constructor; discriminate. }
  { vm_compute. reflexivity. }
  assert (Hlabels :
    map xticklabels (concat groups)
    = flat_map (fun step =>
                  match VisualizeWarAndPeaceDataset.data dataset !! step with
                  | Some line => [line; line; line]
                  | None => []
                  end) (seq 0 1))
    by exact (sequence_figures_labels _ _ _ _ Hgroups).
  rewrite Hdata in Hlabels.
  assert (Hwritten : map xticklabels run.1 = [[97]; [97]; [97]]%N).
  { unfold run. rewrite Hrun. cbn [fst]. rewrite Hlabels. reflexivity. }
  split; [exact Hdata|].
  split; [unfold run; by rewrite Hrun|]. split; [exact Hwritten|].
  split; [|split; vm_compute; reflexivity].
  intros Hall. rewrite Hdata, Hwritten in Hall.
  specialize (Hall 2 [98]%N eq_refl).
  rewrite !elem_of_cons, elem_of_nil in Hall.
  destruct Hall as [H|[H|[H|[]]]]; discriminate H.
Qed.
